(** * Voice pipeline hook and voice-processing endpoint: model and properties

    Shallow embedding of [src/hooks/useVoicePipeline.ts] (the browser side:
    level meter, adaptive VAD, utterance recorder, upload, playback, stop)
    and of the [/api/voice/process] handler of [server/index.js].

    The hook is modelled with JavaScript numbers as exact rationals ([Q]):
    the arithmetic of the source is kept operation by operation, without
    the rounding of binary64.  Where a property is about the numbers
    themselves (the hysteresis thresholds), the values are taken as the
    code computes them, with the binary64 arithmetic of [Binary64].
    [Math.sqrt] is a parameter of the development. *)

From stdpp Require Import gmap strings list.
From Stdlib Require Import QArith Qround Qminmax Qabs Qpower Lqa ZArith Lia.
From Stdlib Require Floats.PrimFloat Floats.FloatOps Floats.SpecFloat.
From Stdlib.Strings Require Import Byte.

Set Warnings "-inexact-float".

(** ** JavaScript helpers *)

Module JS.

Open Scope Q_scope.

(** [a > b] and [a >= b] on numbers. *)
Definition gt (a b : Q) : bool := negb (Qle_bool a b).
Definition ge (a b : Q) : bool := Qle_bool b a.

(** [Math.round]: nearest integer, ties towards plus infinity. *)
Definition Math_round (x : Q) : Z := Qfloor (x + (1 # 2)).

(** Truthiness of a number that may be missing ([undefined]): [0] is falsy. *)
Definition truthy_number (n : option Q) : bool :=
  match n with
  | Some q => negb (Qeq_bool q 0)
  | None => false
  end.

(** Truthiness of a string that may be missing: the empty string is falsy. *)
Definition truthy_string (s : option string) : bool :=
  match s with
  | Some s => negb (String.eqb s "")
  | None => false
  end.

(** [s.includes(sub)] *)
Definition includes (s sub : string) : bool :=
  match String.index 0 sub s with
  | Some _ => true
  | None => false
  end.

(** The outcome of running statements: normal completion, or an exception
    thrown at some point; either way the state reached so far is kept. *)
Inductive Completion (S : Type) :=
| Normal (s : S)
| Throw (e : string) (s : S).
Arguments Normal {S} s.
Arguments Throw {S} e s.

(** [try { c } catch {}] *)
Definition try_catch {S : Type} (c : Completion S) : S :=
  match c with
  | Normal s => s
  | Throw _ s => s
  end.

Definition bind {S : Type} (c : Completion S) (k : S -> Completion S) : Completion S :=
  match c with
  | Normal s => k s
  | Throw e s => Throw e s
  end.

End JS.

(** ** Binary64 arithmetic

    The numbers of JavaScript are the binary64 numbers of IEEE 754: a
    result is the exact result rounded to the nearest number with 53
    significant bits, a tie going to the even one. *)

Module Binary64.

Open Scope Q_scope.

(** [floor (log2 x)] for a positive [x]. *)
Definition ilog2 (x : Q) : Z :=
  let k := (Z.log2 (Qnum x) - Z.log2 (Zpos (Qden x)))%Z in
  if Qle_bool (2 ^ k) x then k else (k - 1)%Z.

(** The nearest integer, a tie going to the even one. *)
Definition nearest_even (t : Q) : Z :=
  let f := Qfloor t in
  match Qcompare (t - inject_Z f) (1 # 2) with
  | Lt => f
  | Gt => (f + 1)%Z
  | Eq => if Z.even f then f else (f + 1)%Z
  end.

(** The exponent of the unit in the last place at [x]: 53 significant
    bits, and the spacing [2^-1074] of the subnormal numbers at the
    bottom. *)
Definition ulp_exponent (x : Q) : Z := Z.max (ilog2 (Qabs x) - 52) (-1074).

(** Rounding to the nearest number of the binary64 grid, the exponent not
    yet bounded above. *)
Definition round (x : Q) : Q :=
  if Qeq_bool x 0 then 0
  else
    let e := ulp_exponent x in
    Qred (inject_Z (nearest_even (x / 2 ^ e)) * 2 ^ e).

(** A JavaScript number: a finite one as the rational it denotes (the two
    zeros are not told apart: nothing here divides by zero), an infinity,
    or [NaN]. *)
Inductive number := Finite (q : Q) | Infinity (negative : bool) | NaN.

(** The number an exact result is rounded to; past the largest finite
    number ([2^1024 - 2^970]) the result is an infinity. *)
Definition of_Q (x : Q) : number :=
  let r := round x in
  if Qle_bool (2 ^ 1024) (Qabs r) then Infinity (negb (Qle_bool 0 x)) else Finite r.

(** A decimal literal of the source text. *)
Definition literal (x : Q) : number := of_Q x.

(** [a + b] *)
Definition add (a b : number) : number :=
  match a, b with
  | NaN, _ | _, NaN => NaN
  | Finite x, Finite y => of_Q (x + y)
  | Infinity s, Infinity s' => if Bool.eqb s s' then Infinity s else NaN
  | Infinity s, Finite _ | Finite _, Infinity s => Infinity s
  end.

(** [-a] *)
Definition opp (a : number) : number :=
  match a with
  | Finite x => Finite (- x)
  | Infinity s => Infinity (negb s)
  | NaN => NaN
  end.

(** [a - b] *)
Definition sub (a b : number) : number := add a (opp b).

(** [a * b] *)
Definition mul (a b : number) : number :=
  match a, b with
  | NaN, _ | _, NaN => NaN
  | Finite x, Finite y => of_Q (x * y)
  | Infinity s, Infinity s' => Infinity (xorb s s')
  | Infinity s, Finite y | Finite y, Infinity s =>
      if Qeq_bool y 0 then NaN else Infinity (xorb s (negb (Qle_bool 0 y)))
  end.

(** A finite number that is on the binary64 grid. *)
Definition representable (x : Q) : Prop := of_Q x = Finite (Qred x).

(** The relative and the absolute error bound of one rounding. *)
Definition u : Q := 2 ^ (-53).
Definition eta : Q := 2 ^ (-1075).

End Binary64.

(** The binary64 numbers of the Rocq kernel, read as numbers of
    [Binary64]: a reference to compare the operations above with. *)

Module KernelFloat.

Import Binary64.
Import Floats.PrimFloat Floats.FloatOps Floats.SpecFloat.
Open Scope Q_scope.

Definition of_float (f : float) : number :=
  match Prim2SF f with
  | S754_zero _ => Finite 0
  | S754_infinity s => Infinity s
  | S754_nan => NaN
  | S754_finite s m e =>
      Finite (Qred ((if s then -1 else 1) * inject_Z (Z.pos m) * 2 ^ e))
  end.

(** The thresholds of the VAD loop on kernel floats, the expressions as
    the source has them. *)
Definition margin (vadThreshold : float) : float := (0.02 + 0.06 * vadThreshold)%float.
Definition onThresh (noiseFloor vadThreshold : float) : float :=
  (noiseFloor + margin vadThreshold)%float.
Definition offThresh (noiseFloor vadThreshold : float) : float :=
  (noiseFloor + margin vadThreshold * 0.5)%float.

(** Sample inputs: the initial noise floor [0.01], a floor of [1e16], and
    the slider positions [0], [0.3] and [1]. *)
Definition floor_initial : float := 0.01%float.
Definition floor_huge : float := 1e16%float.
Definition slider_0 : float := 0%float.
Definition slider_03 : float := 0.3%float.
Definition slider_1 : float := 1%float.

End KernelFloat.

(** ** AudioLevelAnalyzer: [computeAudioLevelAndVad] *)

Module AudioLevel.

Import JS.
Open Scope Q_scope.

(** The analyser node: its [fftSize] and the bytes that
    [getByteTimeDomainData] copies out. *)
Record AnalyserNode := {
  fftSize : nat;
  byteTimeDomainData : list Z
}.

(** [new Uint8Array(n)] followed by [analyser.getByteTimeDomainData]:
    the array keeps its length, missing samples stay [0]. *)
Definition getByteTimeDomainData (a : AnalyserNode) (n : nat) : list Z :=
  take n (byteTimeDomainData a ++ replicate n 0%Z).

(** The [for (let i = 0; i < bufferLength; i++)] loop; [n] counts the
    iterations that remain. *)
Fixpoint sumSquares_loop (dataArray : list Z) (n i : nat) (sumSquares : Q) : Q :=
  match n with
  | O => sumSquares
  | S n' =>
      let val := (inject_Z (nth i dataArray 0%Z) - 128) / 128 in
      sumSquares_loop dataArray n' (S i) (sumSquares + val * val)
  end.

(** [Math.max(0, Math.min(255, Math.round(rms * 255)))] *)
Definition level_of_rms (rms : Q) : Z :=
  Z.max 0 (Z.min 255 (Math_round (rms * 255))).

Record LevelRms := { level : Z; rms : Q }.

Section WithSqrt.

Variable Math_sqrt : Q -> Q.

Definition computeAudioLevelAndVad (analyserRef : option AnalyserNode) : LevelRms :=
  match analyserRef with
  | None => {| level := 0; rms := 0 |}
  | Some analyser =>
      let bufferLength := fftSize analyser in
      let dataArray := getByteTimeDomainData analyser bufferLength in
      let sumSquares := sumSquares_loop dataArray bufferLength 0 0 in
      let rms := Math_sqrt (sumSquares / inject_Z (Z.of_nat bufferLength)) in
      {| level := level_of_rms rms; rms := rms |}
  end.

End WithSqrt.

(** *** The contract in the words of the specification *)

Definition Qsum (l : list Q) : Q := fold_left Qplus l 0.

Definition mean (l : list Q) : Q := Qsum l / inject_Z (Z.of_nat (length l)).

(** [((sample - center) / halfRange)^2] with center and half range 128 *)
Definition normalised_square (sample : Z) : Q :=
  ((inject_Z sample - 128) / 128) ^ 2.

Definition clamp (x lo hi : Q) : Q := Qmax lo (Qmin hi x).

Definition display_level_spec (rms : Q) : Z := Math_round (clamp (rms * 255) 0 255).

End AudioLevel.

(** ** Types of the application ([types], [config/constants]) *)

Module Types.

Module AppState.
Inductive t := idle | connecting | listening | speaking | error.
End AppState.

Module ConnectionState.
Inductive t := disconnected | connecting | connected | error.
End ConnectionState.

Module ErrorType.
Inductive t := microphone | connection | api | general.
End ErrorType.

Record AppError := { type : ErrorType.t; message : string }.

Inductive Language := de | en.
Inductive Voice := nova | shimmer | echo | onyx | fable | alloy | ash | sage | coral.
Inductive TtsProvider := openai | coqui | piper.
Inductive TurnDetection := server_vad | semantic_vad.

Record CoquiSettings := {
  coqui_temperature : option Q;
  length_penalty : option Q;
  repetition_penalty : option Q;
  top_k : option Q;
  top_p : option Q
}.

(** [AppConfig]; an optional field ([?:]) is an [option]. *)
Record AppConfig := {
  systemPrompt : string;
  greeting : string;
  volume : Q;
  showSubtitles : bool;
  voice : Voice;
  vadThreshold : Q;
  silenceDurationMs : Q;
  prefixPaddingMs : Q;
  turnDetectionType : TurnDetection;
  temperature : Q;
  aiLanguage : option Language;
  micGain : option Q;
  ttsProvider : option TtsProvider;
  ttsModel : option string;
  openaiSpeed : option Q;
  piperSpeed : option Q;
  piperPitch : option Q;
  coquiSettings : option CoquiSettings
}.

(** A [Blob]: its bytes and its declared MIME type. *)
Record Blob := { blob_bytes : list byte; blob_type : string }.

Definition blob_size (b : Blob) : nat := length (blob_bytes b).

(** [new Blob(parts, { type })] *)
Definition new_Blob (parts : list Blob) (type : string) : Blob :=
  {| blob_bytes := concat (map blob_bytes parts); blob_type := type |}.

(** The text of a form field.  A number written with [String(n)] is kept
    as the number it denotes: that text is never empty and [parseFloat]
    reads [n] back from it. *)
Inductive FieldText := Str (s : string) | Num (n : Q).

Inductive FormEntry :=
| Field (v : FieldText)
| FileEntry (b : Blob) (filename : string).

(** [FormData]: the entries in the order of the [append] calls. *)
Definition FormData := list (string * FormEntry).

Definition append (name : string) (e : FormEntry) (form : FormData) : FormData :=
  form ++ [(name, e)].

Record FetchRequest := { url_path : string; method : string; body : FormData }.

(** What a response carries: the JSON object of an error reply
    ([{ error, details }]), or the audio stream as the chunks in which the
    network delivers it, or nothing ([resp.body] is [null]). *)
Inductive Payload :=
| Json (error : string) (details : option string)
| Audio (chunks : list (list byte))
| NoBody.

Record HttpResponse := { status : Z; content_type : string; payload : Payload }.

(** [resp.ok] *)
Definition ok (resp : HttpResponse) : bool :=
  (200 <=? status resp)%Z && (status resp <=? 299)%Z.

(** [resp.body] is not [null] *)
Definition has_body (resp : HttpResponse) : bool :=
  match payload resp with
  | NoBody => false
  | _ => true
  end.

(** The chunks a reader of [resp.body] delivers.  The bytes of a JSON
    reply are not modelled: the hook never reads them. *)
Definition body_chunks (resp : HttpResponse) : list (list byte) :=
  match payload resp with
  | Audio chunks => chunks
  | _ => []
  end.

(** [new Blob(chunks, { type })] for [Uint8Array] chunks *)
Definition Blob_of_chunks (chunks : list (list byte)) (type : string) : Blob :=
  {| blob_bytes := concat chunks; blob_type := type |}.

End Types.

(** ** Browser objects the hook holds references to *)

Module Dom.

Import JS Types.
Open Scope Q_scope.

Inductive TrackState := live | ended.
Inductive RecordingState := inactive | recording | paused.

Record MediaRecorder := { rec_state : RecordingState; mimeType : string }.

(** A [MediaStream] is the list of its tracks ([getTracks()]). *)
Record MediaStream := { getTracks : list nat }.

Inductive AudioSrc := NoSrc | BlobUrl (b : Blob) | MediaSourceUrl.

Record HTMLAudioElement := { audio_paused : bool; src : AudioSrc; muted : bool; audio_volume : Q }.

(** [new Audio()] *)
Definition new_Audio : HTMLAudioElement :=
  {| audio_paused := true; src := NoSrc; muted := false; audio_volume := 1 |}.

(** The last [setTargetAtTime(target, currentTime, timeConstant)] of a gain. *)
Record GainParam := { target : Q; timeConstant : Q }.

Record Browser := {
  animationFrames : gset positive;        (* pending requestAnimationFrame ids *)
  intervals : gset positive;              (* running setInterval ids *)
  tracks : gmap nat TrackState;           (* MediaStreamTrack objects *)
  recorders : gmap nat MediaRecorder;     (* MediaRecorder objects *)
  audios : gmap nat HTMLAudioElement;     (* audio elements *)
  gainParams : gmap nat GainParam;        (* GainNode objects *)
  fetches : list FetchRequest;            (* requests sent with fetch, oldest first *)
  opusSupported : bool                    (* MediaRecorder.isTypeSupported('audio/webm;codecs=opus') *)
}.

Definition set_animationFrames v (b : Browser) : Browser :=
  {| animationFrames := v; intervals := intervals b; tracks := tracks b;
     recorders := recorders b; audios := audios b; gainParams := gainParams b;
     fetches := fetches b; opusSupported := opusSupported b |}.

Definition set_intervals v (b : Browser) : Browser :=
  {| animationFrames := animationFrames b; intervals := v; tracks := tracks b;
     recorders := recorders b; audios := audios b; gainParams := gainParams b;
     fetches := fetches b; opusSupported := opusSupported b |}.

Definition set_tracks v (b : Browser) : Browser :=
  {| animationFrames := animationFrames b; intervals := intervals b; tracks := v;
     recorders := recorders b; audios := audios b; gainParams := gainParams b;
     fetches := fetches b; opusSupported := opusSupported b |}.

Definition set_recorders v (b : Browser) : Browser :=
  {| animationFrames := animationFrames b; intervals := intervals b;
     tracks := tracks b; recorders := v; audios := audios b;
     gainParams := gainParams b; fetches := fetches b;
     opusSupported := opusSupported b |}.

Definition set_audios v (b : Browser) : Browser :=
  {| animationFrames := animationFrames b; intervals := intervals b;
     tracks := tracks b; recorders := recorders b; audios := v;
     gainParams := gainParams b; fetches := fetches b;
     opusSupported := opusSupported b |}.

Definition set_gainParams v (b : Browser) : Browser :=
  {| animationFrames := animationFrames b; intervals := intervals b;
     tracks := tracks b; recorders := recorders b; audios := audios b;
     gainParams := v; fetches := fetches b; opusSupported := opusSupported b |}.

Definition set_fetches v (b : Browser) : Browser :=
  {| animationFrames := animationFrames b; intervals := intervals b;
     tracks := tracks b; recorders := recorders b; audios := audios b;
     gainParams := gainParams b; fetches := v; opusSupported := opusSupported b |}.

(** [recorder.stop()]: an inactive recorder raises [InvalidStateError]. *)
Definition MediaRecorder_stop (id : nat) (b : Browser) : Completion Browser :=
  match recorders b !! id with
  | Some r =>
      match rec_state r with
      | inactive => Throw "InvalidStateError" b
      | _ => Normal
               (set_recorders
                  (<[id := {| rec_state := inactive; mimeType := mimeType r |}]> (recorders b)) b)
      end
  | None => Throw "TypeError" b
  end.

(** [audio.pause()] *)
Definition HTMLAudioElement_pause (id : nat) (b : Browser) : Completion Browser :=
  match audios b !! id with
  | Some a =>
      Normal (set_audios
                (<[id := {| audio_paused := true; src := src a; muted := muted a;
                            audio_volume := audio_volume a |}]> (audios b)) b)
  | None => Throw "TypeError" b
  end.

(** [track.stop()] *)
Definition MediaStreamTrack_stop (b : Browser) (t : nat) : Browser :=
  set_tracks (<[t := ended]> (tracks b)) b.

(** [requestAnimationFrame(callback)]: a new pending frame and its id. *)
Definition requestAnimationFrame (b : Browser) : positive * Browser :=
  let id := fresh (animationFrames b) in
  (id, set_animationFrames ({[id]} ∪ animationFrames b) b).

(** [cancelAnimationFrame(id)] and [clearInterval(id)] *)
Definition cancelAnimationFrame (id : positive) (b : Browser) : Browser :=
  set_animationFrames (animationFrames b ∖ {[id]}) b.

Definition clearInterval (id : positive) (b : Browser) : Browser :=
  set_intervals (intervals b ∖ {[id]}) b.

(** [gain.setTargetAtTime(target, ctx.currentTime, timeConstant)] *)
Definition setTargetAtTime (g : nat) (tgt tc : Q) (b : Browser) : Browser :=
  set_gainParams (<[g := {| target := tgt; timeConstant := tc |}]> (gainParams b)) b.

(** [fetch(url, { method, body })]: the request leaves. *)
Definition fetch (r : FetchRequest) (b : Browser) : Browser :=
  set_fetches (fetches b ++ [r]) b.

End Dom.

(** ** PlaybackController: [tryStream] in [recorder.onstop] *)

Module Playback.

Import JS Types Dom.

(** What [tryStream] asks of the runtime. *)
Record Window := {
  hasMediaSource : bool;                                  (* 'MediaSource' in window && window.MediaSource *)
  MediaSource_isTypeSupported : option (string -> bool);  (* [None]: not a function *)
  addSourceBuffer_throws : bool;
  play_rejects : bool -> bool                             (* does [play()] reject, given [muted] *)
}.

(** [const enableStreaming = false; // Temporarily disabled for reliability] *)
Definition enableStreaming : bool := false.

Definition mse_available (w : Window) (resp : HttpResponse) : bool :=
  has_body resp && hasMediaSource w &&
  match MediaSource_isTypeSupported w with
  | Some isTypeSupported => isTypeSupported "audio/mpeg"
  | None => false
  end.

Definition canUseMSE (w : Window) (resp : HttpResponse) : bool :=
  enableStreaming && mse_available w resp.

(** *** The audio element *)

Definition update_audio (id : nat) (f : HTMLAudioElement -> HTMLAudioElement)
    (b : Browser) : Browser :=
  set_audios (alter f id (audios b)) b.

Definition with_src (v : AudioSrc) (a : HTMLAudioElement) : HTMLAudioElement :=
  {| audio_paused := audio_paused a; src := v; muted := muted a;
     audio_volume := audio_volume a |}.

Definition with_muted (v : bool) (a : HTMLAudioElement) : HTMLAudioElement :=
  {| audio_paused := audio_paused a; src := src a; muted := v;
     audio_volume := audio_volume a |}.

Definition with_paused (v : bool) (a : HTMLAudioElement) : HTMLAudioElement :=
  {| audio_paused := v; src := src a; muted := muted a;
     audio_volume := audio_volume a |}.

(** [await audioEl.play()] *)
Definition play (w : Window) (id : nat) (b : Browser) : Completion Browser :=
  match audios b !! id with
  | Some a =>
      if play_rejects w (muted a) then Throw "NotAllowedError" b
      else Normal (update_audio id (with_paused false) b)
  | None => Throw "TypeError" b
  end.

(** [play()], and on rejection once more muted; the 50 ms timer that
    restores [muted] is run at once. *)
Definition play_unlocking (w : Window) (id : nat) (b : Browser) : Browser :=
  match play w id b with
  | Normal b => b
  | Throw _ b =>
      let wasMuted := match audios b !! id with Some a => muted a | None => false end in
      let b := update_audio id (with_muted true) b in
      match play w id b with
      | Normal b => update_audio id (with_muted wasMuted) b
      | Throw _ b => b
      end
  end.

(** What the audio element of the closure is set to play. *)
Definition audio_src (id : nat) (b : Browser) : AudioSrc :=
  match audios b !! id with
  | Some a => src a
  | None => NoSrc
  end.

(** *** The closure of [tryStream] *)

(** Where the [run] loop is suspended. *)
Inductive RunPc := NotStarted | AwaitRead | AwaitAppend | AwaitPlay | Finished.

(** Which [audioEl.onended] is installed. *)
Inductive Onended := OnendedNone | OnendedBlob | OnendedStream.

Record TryStream := {
  resp : HttpResponse;
  audioEl : nat;
  bodyUsed : bool;                     (* [resp.body] is locked by a reader or was consumed *)
  unread : list (list byte);           (* chunks the reader has not delivered yet *)
  reader : option bool;                (* [None]: unassigned; [Some c]: assigned, [c]: cancelled *)
  started : bool;
  aborted : bool;
  receivedChunks : list (list byte);
  pc : RunPc;
  mediaSourceEnded : bool;
  objectUrlRevoked : bool;
  watchdog : bool;                     (* the 1200 ms timer is pending *)
  errorListener : bool;                (* the once-only 'error' listener is installed *)
  onended : Onended
}.

Definition set_bodyUsed v (s : TryStream) : TryStream :=
  {| resp := resp s; audioEl := audioEl s; bodyUsed := v; unread := unread s;
     reader := reader s; started := started s; aborted := aborted s;
     receivedChunks := receivedChunks s; pc := pc s;
     mediaSourceEnded := mediaSourceEnded s; objectUrlRevoked := objectUrlRevoked s;
     watchdog := watchdog s; errorListener := errorListener s;
     onended := onended s |}.

Definition set_unread v (s : TryStream) : TryStream :=
  {| resp := resp s; audioEl := audioEl s; bodyUsed := bodyUsed s; unread := v;
     reader := reader s; started := started s; aborted := aborted s;
     receivedChunks := receivedChunks s; pc := pc s;
     mediaSourceEnded := mediaSourceEnded s; objectUrlRevoked := objectUrlRevoked s;
     watchdog := watchdog s; errorListener := errorListener s;
     onended := onended s |}.

Definition set_reader v (s : TryStream) : TryStream :=
  {| resp := resp s; audioEl := audioEl s; bodyUsed := bodyUsed s;
     unread := unread s; reader := v; started := started s; aborted := aborted s;
     receivedChunks := receivedChunks s; pc := pc s;
     mediaSourceEnded := mediaSourceEnded s; objectUrlRevoked := objectUrlRevoked s;
     watchdog := watchdog s; errorListener := errorListener s;
     onended := onended s |}.

Definition set_started v (s : TryStream) : TryStream :=
  {| resp := resp s; audioEl := audioEl s; bodyUsed := bodyUsed s;
     unread := unread s; reader := reader s; started := v; aborted := aborted s;
     receivedChunks := receivedChunks s; pc := pc s;
     mediaSourceEnded := mediaSourceEnded s; objectUrlRevoked := objectUrlRevoked s;
     watchdog := watchdog s; errorListener := errorListener s;
     onended := onended s |}.

Definition set_aborted v (s : TryStream) : TryStream :=
  {| resp := resp s; audioEl := audioEl s; bodyUsed := bodyUsed s;
     unread := unread s; reader := reader s; started := started s; aborted := v;
     receivedChunks := receivedChunks s; pc := pc s;
     mediaSourceEnded := mediaSourceEnded s; objectUrlRevoked := objectUrlRevoked s;
     watchdog := watchdog s; errorListener := errorListener s;
     onended := onended s |}.

Definition set_receivedChunks v (s : TryStream) : TryStream :=
  {| resp := resp s; audioEl := audioEl s; bodyUsed := bodyUsed s;
     unread := unread s; reader := reader s; started := started s;
     aborted := aborted s; receivedChunks := v; pc := pc s;
     mediaSourceEnded := mediaSourceEnded s; objectUrlRevoked := objectUrlRevoked s;
     watchdog := watchdog s; errorListener := errorListener s;
     onended := onended s |}.

Definition set_pc v (s : TryStream) : TryStream :=
  {| resp := resp s; audioEl := audioEl s; bodyUsed := bodyUsed s;
     unread := unread s; reader := reader s; started := started s;
     aborted := aborted s; receivedChunks := receivedChunks s; pc := v;
     mediaSourceEnded := mediaSourceEnded s; objectUrlRevoked := objectUrlRevoked s;
     watchdog := watchdog s; errorListener := errorListener s;
     onended := onended s |}.

Definition set_mediaSourceEnded v (s : TryStream) : TryStream :=
  {| resp := resp s; audioEl := audioEl s; bodyUsed := bodyUsed s;
     unread := unread s; reader := reader s; started := started s;
     aborted := aborted s; receivedChunks := receivedChunks s; pc := pc s;
     mediaSourceEnded := v; objectUrlRevoked := objectUrlRevoked s;
     watchdog := watchdog s; errorListener := errorListener s;
     onended := onended s |}.

Definition set_objectUrlRevoked v (s : TryStream) : TryStream :=
  {| resp := resp s; audioEl := audioEl s; bodyUsed := bodyUsed s;
     unread := unread s; reader := reader s; started := started s;
     aborted := aborted s; receivedChunks := receivedChunks s; pc := pc s;
     mediaSourceEnded := mediaSourceEnded s; objectUrlRevoked := v;
     watchdog := watchdog s; errorListener := errorListener s;
     onended := onended s |}.

Definition set_watchdog v (s : TryStream) : TryStream :=
  {| resp := resp s; audioEl := audioEl s; bodyUsed := bodyUsed s;
     unread := unread s; reader := reader s; started := started s;
     aborted := aborted s; receivedChunks := receivedChunks s; pc := pc s;
     mediaSourceEnded := mediaSourceEnded s; objectUrlRevoked := objectUrlRevoked s;
     watchdog := v; errorListener := errorListener s; onended := onended s |}.

Definition set_errorListener v (s : TryStream) : TryStream :=
  {| resp := resp s; audioEl := audioEl s; bodyUsed := bodyUsed s;
     unread := unread s; reader := reader s; started := started s;
     aborted := aborted s; receivedChunks := receivedChunks s; pc := pc s;
     mediaSourceEnded := mediaSourceEnded s; objectUrlRevoked := objectUrlRevoked s;
     watchdog := watchdog s; errorListener := v; onended := onended s |}.

Definition set_onended v (s : TryStream) : TryStream :=
  {| resp := resp s; audioEl := audioEl s; bodyUsed := bodyUsed s;
     unread := unread s; reader := reader s; started := started s;
     aborted := aborted s; receivedChunks := receivedChunks s; pc := pc s;
     mediaSourceEnded := mediaSourceEnded s; objectUrlRevoked := objectUrlRevoked s;
     watchdog := watchdog s; errorListener := errorListener s; onended := v |}.

Definition closure (resp : HttpResponse) (audioEl : nat) : TryStream :=
  {| resp := resp; audioEl := audioEl; bodyUsed := false; unread := [];
     reader := None; started := false; aborted := false; receivedChunks := [];
     pc := NotStarted; mediaSourceEnded := false; objectUrlRevoked := false;
     watchdog := false; errorListener := false; onended := OnendedNone |}.

(** [await resp.blob()]: rejects once the body is locked or consumed. *)
Definition resp_blob (s : TryStream) : option Blob :=
  if bodyUsed s then None
  else Some (Blob_of_chunks (body_chunks (resp s)) (content_type (resp s))).

(** [fallbackToBlob(prebuiltBlob?)]; a [Blob] object is truthy even when
    it is empty, so a prebuilt blob is always the one played. *)
Definition fallbackToBlob (w : Window) (prebuiltBlob : option Blob)
    (sb : TryStream * Browser) : TryStream * Browser :=
  let '(s, b) := sb in
  let audioBlob :=
    match prebuiltBlob with
    | Some blob => Some blob
    | None => resp_blob s
    end in
  let s := match prebuiltBlob with Some _ => s | None => set_bodyUsed true s end in
  match audioBlob with
  | None => (s, b)
  | Some audioBlob =>
      let b := update_audio (audioEl s) (with_src (BlobUrl audioBlob)) b in
      let b := play_unlocking w (audioEl s) b in
      (set_onended OnendedBlob s, b)
  end.

(** [safeEnd()] and [URL.revokeObjectURL(objectUrl)] *)
Definition safeEnd (s : TryStream) : TryStream := set_mediaSourceEnded true s.
Definition revokeObjectURL (s : TryStream) : TryStream := set_objectUrlRevoked true s.

(** [reader?.cancel()] *)
Definition reader_cancel (s : TryStream) : TryStream :=
  match reader s with
  | Some _ => set_reader (Some true) s
  | None => s
  end.

(** The streaming branch of [tryStream]: the code after
    [if (!canUseMSE) { ... return; }]. *)
Definition streaming_start (resp : HttpResponse) (audioEl : nat) (b : Browser)
    : TryStream * Browser :=
  let b := update_audio audioEl (with_src MediaSourceUrl) b in
  (set_onended OnendedStream
     (set_errorListener true (set_watchdog true (closure resp audioEl))), b).

Definition tryStream (w : Window) (resp : HttpResponse) (audioEl : nat) (b : Browser)
    : TryStream * Browser :=
  if negb (canUseMSE w resp) then fallbackToBlob w None (closure resp audioEl, b)
  else streaming_start resp audioEl b.

(** *** Events of the streaming branch *)

Inductive Event :=
| SourceOpen        (* 'sourceopen' of the MediaSource *)
| ReadSettles       (* [reader.read()] resolves *)
| StreamFails       (* [reader.read()] or [appendBuffer] rejects *)
| UpdateEnd         (* 'updateend' of the source buffer *)
| PlaySettles       (* [audioEl.play()] of the loop settles *)
| WatchdogFires     (* the 1200 ms timer *)
| AudioError        (* 'error' of the audio element *)
| Ended.            (* 'ended' of the audio element *)

Definition on_sourceopen (w : Window) (sb : TryStream * Browser) : TryStream * Browser :=
  let '(s, b) := sb in
  match pc s, audio_src (audioEl s) b with
  | NotStarted, MediaSourceUrl =>
      if addSourceBuffer_throws w then fallbackToBlob w None (revokeObjectURL s, b)
      else
        (set_pc AwaitRead
           (set_unread (body_chunks (resp s)) (set_bodyUsed true (set_reader (Some false) s))),
         b)
  | _, _ => (s, b)
  end.

(** One [await reader.read()] of the [while (true)] loop. *)
Definition on_read_settles (sb : TryStream * Browser) : TryStream * Browser :=
  let '(s, b) := sb in
  match pc s with
  | AwaitRead =>
      match reader s, unread s with
      | Some false, value :: rest =>
          let s := set_unread rest s in
          if (0 <? length value)%nat
          then (set_pc AwaitAppend (set_receivedChunks (receivedChunks s ++ [value]) s), b)
          else (s, b)
      | _, _ => (set_pc Finished (safeEnd s), b)
      end
  | _ => (s, b)
  end.

(** The [catch] of [run]. *)
Definition on_stream_fails (w : Window) (sb : TryStream * Browser) : TryStream * Browser :=
  let '(s, b) := sb in
  match pc s with
  | AwaitRead | AwaitAppend =>
      let s := revokeObjectURL (safeEnd s) in
      let fallbackBlob := Blob_of_chunks (receivedChunks s) "audio/mpeg" in
      fallbackToBlob w (Some fallbackBlob) (set_pc Finished s, b)
  | _ => (s, b)
  end.

(** [await appendChunk(value)] resumes. *)
Definition on_updateend (w : Window) (sb : TryStream * Browser) : TryStream * Browser :=
  let '(s, b) := sb in
  match pc s with
  | AwaitAppend =>
      if negb (started s)
      then (set_pc AwaitPlay (set_started true s), try_catch (play w (audioEl s) b))
      else (set_pc AwaitRead s, b)
  | _ => (s, b)
  end.

Definition on_play_settles (sb : TryStream * Browser) : TryStream * Browser :=
  let '(s, b) := sb in
  match pc s with
  | AwaitPlay => (set_pc AwaitRead s, b)
  | _ => (s, b)
  end.

(** The callback of [window.setTimeout(..., 1200)]. *)
Definition on_watchdog (w : Window) (sb : TryStream * Browser) : TryStream * Browser :=
  let '(s, b) := sb in
  if watchdog s then
    let s := set_watchdog false s in
    if negb (started s) && negb (aborted s) then
      let s := set_aborted true s in
      let s := reader_cancel s in
      let s := safeEnd s in
      let s := revokeObjectURL s in
      let fallbackBlob := Blob_of_chunks (receivedChunks s) "audio/mpeg" in
      fallbackToBlob w (Some fallbackBlob) (s, b)
    else (s, b)
  else (s, b).

(** The ['error'] listener of the audio element. *)
Definition on_audio_error (w : Window) (sb : TryStream * Browser) : TryStream * Browser :=
  let '(s, b) := sb in
  if errorListener s then
    let s := set_errorListener false s in
    if aborted s then (s, b)
    else
      let s := set_aborted true s in
      let s := reader_cancel s in
      let s := safeEnd s in
      let s := revokeObjectURL s in
      fallbackToBlob w None (s, b)
  else (s, b).

(** [audioEl.onended] of the streaming branch; the one that
    [fallbackToBlob] installs leaves the closure as it is. *)
Definition on_ended (sb : TryStream * Browser) : TryStream * Browser :=
  let '(s, b) := sb in
  match onended s with
  | OnendedStream => (set_watchdog false (revokeObjectURL s), b)
  | _ => (s, b)
  end.

Definition handle (w : Window) (e : Event) (sb : TryStream * Browser)
    : TryStream * Browser :=
  match e with
  | SourceOpen => on_sourceopen w sb
  | ReadSettles => on_read_settles sb
  | StreamFails => on_stream_fails w sb
  | UpdateEnd => on_updateend w sb
  | PlaySettles => on_play_settles sb
  | WatchdogFires => on_watchdog w sb
  | AudioError => on_audio_error w sb
  | Ended => on_ended sb
  end.

Definition run (w : Window) (events : list Event) (sb : TryStream * Browser)
    : TryStream * Browser :=
  fold_left (fun sb e => handle w e sb) events sb.

(** The bytes the audio element is set to play from a blob. *)
Definition played_bytes (sb : TryStream * Browser) : option (list byte) :=
  match audio_src (audioEl (fst sb)) (snd sb) with
  | BlobUrl blob => Some (blob_bytes blob)
  | _ => None
  end.

(** The bytes full-buffer playback plays: [fallbackToBlob()] on the
    untouched response. *)
Definition full_buffer_bytes (resp : HttpResponse) : list byte :=
  concat (body_chunks resp).

End Playback.

(** ** The hook [useVoicePipeline] *)

Module Hook.

Import JS Types AudioLevel Dom Playback.
Open Scope Q_scope.

(** *** [useState] cells, [useRef] cells and the browser they refer into *)

Record Hook := {
  state : AppState.t;
  connectionState : ConnectionState.t;
  error : option AppError;
  audioLevel : Z;
  mediaStreamRef : option MediaStream;
  audioContextRef : option nat;
  analyserRef : option AnalyserNode;
  rafRef : option positive;
  processedStreamRef : option MediaStream;
  gateGainRef : option nat;
  preGainRef : option nat;
  noiseFloorRef : Q;
  vadVoiceStateRef : bool;
  recorderRef : option nat;
  chunksRef : list Blob;
  speakingRef : bool;
  lastVoiceMsRef : Q;
  vadIntervalRef : option positive;
  activeAudioRef : option nat;
  browser : Browser
}.

Definition set_state v (h : Hook) : Hook :=
  {| state := v; connectionState := connectionState h; error := error h;
     audioLevel := audioLevel h; mediaStreamRef := mediaStreamRef h;
     audioContextRef := audioContextRef h; analyserRef := analyserRef h;
     rafRef := rafRef h; processedStreamRef := processedStreamRef h;
     gateGainRef := gateGainRef h; preGainRef := preGainRef h;
     noiseFloorRef := noiseFloorRef h; vadVoiceStateRef := vadVoiceStateRef h;
     recorderRef := recorderRef h; chunksRef := chunksRef h;
     speakingRef := speakingRef h; lastVoiceMsRef := lastVoiceMsRef h;
     vadIntervalRef := vadIntervalRef h; activeAudioRef := activeAudioRef h;
     browser := browser h |}.

Definition set_error v (h : Hook) : Hook :=
  {| state := state h; connectionState := connectionState h; error := v;
     audioLevel := audioLevel h; mediaStreamRef := mediaStreamRef h;
     audioContextRef := audioContextRef h; analyserRef := analyserRef h;
     rafRef := rafRef h; processedStreamRef := processedStreamRef h;
     gateGainRef := gateGainRef h; preGainRef := preGainRef h;
     noiseFloorRef := noiseFloorRef h; vadVoiceStateRef := vadVoiceStateRef h;
     recorderRef := recorderRef h; chunksRef := chunksRef h;
     speakingRef := speakingRef h; lastVoiceMsRef := lastVoiceMsRef h;
     vadIntervalRef := vadIntervalRef h; activeAudioRef := activeAudioRef h;
     browser := browser h |}.

Definition set_noiseFloorRef v (h : Hook) : Hook :=
  {| state := state h; connectionState := connectionState h; error := error h;
     audioLevel := audioLevel h; mediaStreamRef := mediaStreamRef h;
     audioContextRef := audioContextRef h; analyserRef := analyserRef h;
     rafRef := rafRef h; processedStreamRef := processedStreamRef h;
     gateGainRef := gateGainRef h; preGainRef := preGainRef h; noiseFloorRef := v;
     vadVoiceStateRef := vadVoiceStateRef h; recorderRef := recorderRef h;
     chunksRef := chunksRef h; speakingRef := speakingRef h;
     lastVoiceMsRef := lastVoiceMsRef h; vadIntervalRef := vadIntervalRef h;
     activeAudioRef := activeAudioRef h; browser := browser h |}.

Definition set_vadVoiceStateRef v (h : Hook) : Hook :=
  {| state := state h; connectionState := connectionState h; error := error h;
     audioLevel := audioLevel h; mediaStreamRef := mediaStreamRef h;
     audioContextRef := audioContextRef h; analyserRef := analyserRef h;
     rafRef := rafRef h; processedStreamRef := processedStreamRef h;
     gateGainRef := gateGainRef h; preGainRef := preGainRef h;
     noiseFloorRef := noiseFloorRef h; vadVoiceStateRef := v;
     recorderRef := recorderRef h; chunksRef := chunksRef h;
     speakingRef := speakingRef h; lastVoiceMsRef := lastVoiceMsRef h;
     vadIntervalRef := vadIntervalRef h; activeAudioRef := activeAudioRef h;
     browser := browser h |}.

Definition set_recorderRef v (h : Hook) : Hook :=
  {| state := state h; connectionState := connectionState h; error := error h;
     audioLevel := audioLevel h; mediaStreamRef := mediaStreamRef h;
     audioContextRef := audioContextRef h; analyserRef := analyserRef h;
     rafRef := rafRef h; processedStreamRef := processedStreamRef h;
     gateGainRef := gateGainRef h; preGainRef := preGainRef h;
     noiseFloorRef := noiseFloorRef h; vadVoiceStateRef := vadVoiceStateRef h;
     recorderRef := v; chunksRef := chunksRef h; speakingRef := speakingRef h;
     lastVoiceMsRef := lastVoiceMsRef h; vadIntervalRef := vadIntervalRef h;
     activeAudioRef := activeAudioRef h; browser := browser h |}.

Definition set_chunksRef v (h : Hook) : Hook :=
  {| state := state h; connectionState := connectionState h; error := error h;
     audioLevel := audioLevel h; mediaStreamRef := mediaStreamRef h;
     audioContextRef := audioContextRef h; analyserRef := analyserRef h;
     rafRef := rafRef h; processedStreamRef := processedStreamRef h;
     gateGainRef := gateGainRef h; preGainRef := preGainRef h;
     noiseFloorRef := noiseFloorRef h; vadVoiceStateRef := vadVoiceStateRef h;
     recorderRef := recorderRef h; chunksRef := v; speakingRef := speakingRef h;
     lastVoiceMsRef := lastVoiceMsRef h; vadIntervalRef := vadIntervalRef h;
     activeAudioRef := activeAudioRef h; browser := browser h |}.

Definition set_speakingRef v (h : Hook) : Hook :=
  {| state := state h; connectionState := connectionState h; error := error h;
     audioLevel := audioLevel h; mediaStreamRef := mediaStreamRef h;
     audioContextRef := audioContextRef h; analyserRef := analyserRef h;
     rafRef := rafRef h; processedStreamRef := processedStreamRef h;
     gateGainRef := gateGainRef h; preGainRef := preGainRef h;
     noiseFloorRef := noiseFloorRef h; vadVoiceStateRef := vadVoiceStateRef h;
     recorderRef := recorderRef h; chunksRef := chunksRef h; speakingRef := v;
     lastVoiceMsRef := lastVoiceMsRef h; vadIntervalRef := vadIntervalRef h;
     activeAudioRef := activeAudioRef h; browser := browser h |}.

Definition set_lastVoiceMsRef v (h : Hook) : Hook :=
  {| state := state h; connectionState := connectionState h; error := error h;
     audioLevel := audioLevel h; mediaStreamRef := mediaStreamRef h;
     audioContextRef := audioContextRef h; analyserRef := analyserRef h;
     rafRef := rafRef h; processedStreamRef := processedStreamRef h;
     gateGainRef := gateGainRef h; preGainRef := preGainRef h;
     noiseFloorRef := noiseFloorRef h; vadVoiceStateRef := vadVoiceStateRef h;
     recorderRef := recorderRef h; chunksRef := chunksRef h;
     speakingRef := speakingRef h; lastVoiceMsRef := v;
     vadIntervalRef := vadIntervalRef h; activeAudioRef := activeAudioRef h;
     browser := browser h |}.

Definition set_activeAudioRef v (h : Hook) : Hook :=
  {| state := state h; connectionState := connectionState h; error := error h;
     audioLevel := audioLevel h; mediaStreamRef := mediaStreamRef h;
     audioContextRef := audioContextRef h; analyserRef := analyserRef h;
     rafRef := rafRef h; processedStreamRef := processedStreamRef h;
     gateGainRef := gateGainRef h; preGainRef := preGainRef h;
     noiseFloorRef := noiseFloorRef h; vadVoiceStateRef := vadVoiceStateRef h;
     recorderRef := recorderRef h; chunksRef := chunksRef h;
     speakingRef := speakingRef h; lastVoiceMsRef := lastVoiceMsRef h;
     vadIntervalRef := vadIntervalRef h; activeAudioRef := v; browser := browser h |}.

Definition set_browser v (h : Hook) : Hook :=
  {| state := state h; connectionState := connectionState h; error := error h;
     audioLevel := audioLevel h; mediaStreamRef := mediaStreamRef h;
     audioContextRef := audioContextRef h; analyserRef := analyserRef h;
     rafRef := rafRef h; processedStreamRef := processedStreamRef h;
     gateGainRef := gateGainRef h; preGainRef := preGainRef h;
     noiseFloorRef := noiseFloorRef h; vadVoiceStateRef := vadVoiceStateRef h;
     recorderRef := recorderRef h; chunksRef := chunksRef h;
     speakingRef := speakingRef h; lastVoiceMsRef := lastVoiceMsRef h;
     vadIntervalRef := vadIntervalRef h; activeAudioRef := activeAudioRef h;
     browser := v |}.

(** The cells as [useState] and [useRef] initialise them. *)
Definition initial (b : Browser) : Hook :=
  {| state := AppState.idle; connectionState := ConnectionState.disconnected;
     error := None; audioLevel := 0; mediaStreamRef := None; audioContextRef := None;
     analyserRef := None; rafRef := None; processedStreamRef := None;
     gateGainRef := None; preGainRef := None; noiseFloorRef := 0.01;
     vadVoiceStateRef := false; recorderRef := None; chunksRef := [];
     speakingRef := false; lastVoiceMsRef := 0; vadIntervalRef := None;
     activeAudioRef := None; browser := b |}.

(** [location.pathname === '/dev' || location.pathname === '/debug'] *)
Definition isDevRoute (pathname : string) : bool :=
  String.eqb pathname "/dev" || String.eqb pathname "/debug".

(** [recorderRef.current && recorderRef.current.state !== 'inactive'] *)
Definition recorder_not_inactive (h : Hook) : bool :=
  match recorderRef h with
  | Some id =>
      match recorders (browser h) !! id with
      | Some r => match rec_state r with inactive => false | _ => true end
      | None => false
      end
  | None => false
  end.

(** *** [recorder.ondataavailable] *)

Definition recorder_ondataavailable (e_data : option Blob) (h : Hook) : Hook :=
  match e_data with
  | Some data =>
      if (0 <? blob_size data)%nat then set_chunksRef (chunksRef h ++ [data]) h else h
  | None => h
  end.

(** *** [recorder.onstop]: from the blob to [fetch] *)

Definition language_field (config : AppConfig) : FormEntry :=
  Field (Str (match aiLanguage config with Some en => "en" | _ => "de" end)).

Definition voice_name (v : Voice) : string :=
  match v with
  | nova => "nova"
  | shimmer => "shimmer"
  | echo => "echo"
  | onyx => "onyx"
  | fable => "fable"
  | alloy => "alloy"
  | ash => "ash"
  | sage => "sage"
  | coral => "coral"
  end.

Definition ttsProvider_name (p : TtsProvider) : string :=
  match p with
  | openai => "openai"
  | coqui => "coqui"
  | piper => "piper"
  end.

(** [if (n) form.append(name, String(n))] *)
Definition append_if_truthy (name : string) (n : option Q) (form : FormData) : FormData :=
  match n with
  | Some q => if truthy_number n then append name (Field (Num q)) form else form
  | None => form
  end.

Definition build_form (isDevRoute : bool) (config : AppConfig) (blob : Blob) : FormData :=
  let form := append "audio" (FileEntry blob "utterance.webm") [] in
  if negb isDevRoute then
    let form := append "systemPrompt" (Field (Str (systemPrompt config))) form in
    let form := append "temperature" (Field (Num (temperature config))) form in
    let form := append "voice" (Field (Str (voice_name (voice config)))) form in
    let form := append "language" (language_field config) form in
    let form :=
      append "ttsProvider"
        (Field (Str (match ttsProvider config with
                     | Some p => ttsProvider_name p
                     | None => "openai"
                     end))) form in
    let form :=
      append "ttsModel"
        (Field (Str (match ttsModel config with
                     | Some m => if truthy_string (Some m) then m else "tts-1"
                     | None => "tts-1"
                     end))) form in
    let form := append "greeting" (Field (Str (greeting config))) form in
    let form := append_if_truthy "openaiSpeed" (openaiSpeed config) form in
    let form := append_if_truthy "piperSpeed" (piperSpeed config) form in
    let form := append_if_truthy "piperPitch" (piperPitch config) form in
    append_if_truthy "coquiTemperature"
      (match coquiSettings config with
       | Some c => coqui_temperature c
       | None => None
       end) form
  else
    append "language" (language_field config) form.

(** The handler up to [await fetch(...)]; [pathname], [config] and
    [mimeType] are the values its closure captured. *)
Definition recorder_onstop_upload (pathname : string) (config : AppConfig)
    (mimeType : string) (h : Hook) : Hook :=
  let blob := new_Blob (chunksRef h) mimeType in
  let h := set_chunksRef [] h in
  let form := build_form (isDevRoute pathname) config blob in
  set_browser
    (fetch {| url_path := "/api/voice/process"; method := "POST"; body := form |}
       (browser h)) h.

(** *** [recorder.onstop]: after [await fetch(...)] *)

Inductive FetchResult := Resolved (resp : HttpResponse) | Rejected.

Definition with_volume (v : Q) (a : HTMLAudioElement) : HTMLAudioElement :=
  {| audio_paused := audio_paused a; src := src a; muted := muted a; audio_volume := v |}.

(** The rest of the handler; [t] is the translation function.  The debug
    bookkeeping ([debugService], the [X-...] headers) does not act on the
    hook and is left out.  The second component is the closure of
    [tryStream] when playback was started. *)
Definition recorder_onstop_response (w : Window) (t : string -> string)
    (config : AppConfig) (r : FetchResult) (h : Hook) : Hook * option TryStream :=
  match r with
  | Rejected =>
      (set_state AppState.error
         (set_error (Some {| type := ErrorType.general; message := t "error.general" |}) h),
       None)
  | Resolved resp =>
      if negb (ok resp) then
        (set_state AppState.error
           (set_error (Some {| type := ErrorType.api; message := t "error.general" |}) h),
         None)
      else
        let h := set_state AppState.speaking h in
        let '(audioEl, h) :=
          match activeAudioRef h with
          | Some id => (id, h)
          | None =>
              let id := fresh (dom (audios (browser h))) in
              (id, set_activeAudioRef (Some id)
                     (set_browser
                        (set_audios (<[id := new_Audio]> (audios (browser h))) (browser h)) h))
          end in
        let b := update_audio audioEl (with_volume (volume config / 100)) (browser h) in
        let '(s, b) := tryStream w resp audioEl b in
        (set_browser b h, Some s)
  end.

(** [audioEl.onended]: [capturedState] is the [state] the closure saw. *)
Definition audioEl_onended (capturedState : AppState.t) (h : Hook) : Hook :=
  match capturedState with
  | AppState.idle => h
  | _ => set_state AppState.listening h
  end.

(** *** [startRecorder] and [stopRecorder] *)

Definition startRecorder (h : Hook) : Hook :=
  match mediaStreamRef h with
  | None => h
  | Some _ =>
      if recorder_not_inactive h then h
      else
        let h := set_chunksRef [] h in
        let mimeType :=
          if opusSupported (browser h) then "audio/webm;codecs=opus"%string
          else "audio/webm"%string in
        let streamForRecord :=
          match processedStreamRef h with
          | Some s => Some s
          | None => mediaStreamRef h
          end in
        match streamForRecord with
        | None => h
        | Some _ =>
            let id := fresh (dom (recorders (browser h))) in
            let h := set_recorderRef (Some id) h in
            (* [recorder.start()] on the recorder just built *)
            set_browser
              (set_recorders
                 (<[id := {| rec_state := recording; mimeType := mimeType |}]>
                    (recorders (browser h))) (browser h)) h
        end
  end.

Definition stopRecorder (h : Hook) : Hook :=
  match recorderRef h with
  | Some id =>
      if recorder_not_inactive h
      then set_browser (try_catch (MediaRecorder_stop id (browser h))) h
      else h
  | None => h
  end.

(** *** The VAD loop: the callback of [window.setInterval(..., 50)] *)

Definition margin (config : AppConfig) : Q := 0.02 + 0.06 * vadThreshold config.
Definition onThresh (config : AppConfig) (noiseFloor : Q) : Q := noiseFloor + margin config.
Definition offThresh (config : AppConfig) (noiseFloor : Q) : Q :=
  noiseFloor + margin config * 0.5.

(** [gateGainRef.current && audioContextRef.current] guards the gate. *)
Definition gate_to (tgt tc : Q) (h : Hook) : Hook :=
  match gateGainRef h, audioContextRef h with
  | Some g, Some _ => set_browser (setTargetAtTime g tgt tc (browser h)) h
  | _, _ => h
  end.

(** One tick, given the [rms] that [computeAudioLevelAndVad()] returned
    and the [now] that [performance.now()] returned. *)
Definition vadTick (config : AppConfig) (rms now : Q) (h : Hook) : Hook :=
  let alpha := 0.98 in
  let h :=
    if negb (vadVoiceStateRef h)
    then set_noiseFloorRef (noiseFloorRef h * alpha + rms * (1 - alpha)) h
    else h in
  let isVoice :=
    if vadVoiceStateRef h
    then gt rms (offThresh config (noiseFloorRef h))
    else gt rms (onThresh config (noiseFloorRef h)) in
  if isVoice then
    let h := set_lastVoiceMsRef now h in
    let h := gate_to 1.0 0.015 h in
    if negb (speakingRef h) then
      let h := set_speakingRef true h in
      let h := set_vadVoiceStateRef true h in
      let h := set_state AppState.listening h in
      startRecorder h
    else h
  else
    let h :=
      if speakingRef h then
        let silenceFor := now - lastVoiceMsRef h in
        if ge silenceFor (silenceDurationMs config) then
          let h := set_speakingRef false h in
          let h := set_vadVoiceStateRef false h in
          stopRecorder h
        else h
      else h in
    gate_to 0.04 0.08 h.

Section WithSqrt.

Variable Math_sqrt : Q -> Q.

(** The whole callback: read the analyser, then tick. *)
Definition vadInterval (config : AppConfig) (now : Q) (h : Hook) : Hook :=
  vadTick config (rms (computeAudioLevelAndVad Math_sqrt (analyserRef h))) now h.

(** One [tick] of [monitorAudio]: [setAudioLevel(level)], then
    [rafRef.current = requestAnimationFrame(tick)]. *)
Definition monitorAudio_tick (h : Hook) : Hook :=
  let level := level (computeAudioLevelAndVad Math_sqrt (analyserRef h)) in
  let '(id, b) := requestAnimationFrame (browser h) in
  {| state := state h; connectionState := connectionState h; error := error h;
     audioLevel := level; mediaStreamRef := mediaStreamRef h;
     audioContextRef := audioContextRef h; analyserRef := analyserRef h;
     rafRef := Some id; processedStreamRef := processedStreamRef h;
     gateGainRef := gateGainRef h; preGainRef := preGainRef h;
     noiseFloorRef := noiseFloorRef h; vadVoiceStateRef := vadVoiceStateRef h;
     recorderRef := recorderRef h; chunksRef := chunksRef h;
     speakingRef := speakingRef h; lastVoiceMsRef := lastVoiceMsRef h;
     vadIntervalRef := vadIntervalRef h; activeAudioRef := activeAudioRef h;
     browser := b |}.

End WithSqrt.

(** The loop over the ticks [(rms, now)] of a session, oldest first. *)
Definition vadRun (config : AppConfig) (ticks : list (Q * Q)) (h : Hook) : Hook :=
  fold_left (fun h t => vadTick config (fst t) (snd t) h) ticks h.

(** *** [stopConversation] *)

Definition stopConversation (h : Hook) : Completion Hook :=
  let h :=
    match rafRef h with
    | Some id => set_browser (cancelAnimationFrame id (browser h)) h
    | None => h
    end in
  let h :=
    match vadIntervalRef h with
    | Some id => set_browser (clearInterval id (browser h)) h
    | None => h
    end in
  let h := try_catch (Normal (stopRecorder h)) in
  let h :=
    match activeAudioRef h with
    | Some id =>
        set_activeAudioRef None
          (set_browser (try_catch (HTMLAudioElement_pause id (browser h))) h)
    | None => h
    end in
  let b :=
    match mediaStreamRef h with
    | Some stream => fold_left MediaStreamTrack_stop (getTracks stream) (browser h)
    | None => browser h
    end in
  Normal
    {| state := AppState.idle; connectionState := ConnectionState.disconnected;
       error := None; audioLevel := 0;
       mediaStreamRef := None; audioContextRef := None; analyserRef := None;
       rafRef := rafRef h; processedStreamRef := None; gateGainRef := None;
       preGainRef := None; noiseFloorRef := noiseFloorRef h;
       vadVoiceStateRef := vadVoiceStateRef h; recorderRef := None;
       chunksRef := chunksRef h; speakingRef := speakingRef h;
       lastVoiceMsRef := lastVoiceMsRef h; vadIntervalRef := vadIntervalRef h;
       activeAudioRef := activeAudioRef h; browser := b |}.

End Hook.

(** ** The thresholds of the VAD loop as the numbers the code computes *)

Module VadBinary64.

Import Types Binary64.
Open Scope Q_scope.

(** [const margin = 0.02 + 0.06 * config.vadThreshold] *)
Definition margin (config : AppConfig) : number :=
  add (literal 0.02) (mul (literal 0.06) (Finite (vadThreshold config))).

(** [const onThresh = noiseFloorRef.current + margin] *)
Definition onThresh (config : AppConfig) (noiseFloor : number) : number :=
  add noiseFloor (margin config).

(** [const offThresh = noiseFloorRef.current + margin * 0.5] *)
Definition offThresh (config : AppConfig) (noiseFloor : number) : number :=
  add noiseFloor (mul (margin config) (literal 0.5)).

End VadBinary64.

(** ** The endpoint [POST /api/voice/process] of [server/index.js] *)

Module Server.

Import JS Types.
Open Scope Q_scope.

(** The settings object of the Firebase cache; any field may be missing. *)
Record FirebaseSettings := {
  fb_systemPrompt : option string;
  fb_temperature : option Q;
  fb_voice : option string;
  fb_aiLanguage : option string;
  fb_ttsProvider : option string;
  fb_ttsModel : option string;
  fb_openaiSpeed : option Q;
  fb_piperSpeed : option Q;
  fb_piperPitch : option Q;
  fb_coquiSettings : option (option Q)     (* [coquiSettings] and its [temperature] *)
}.

(** [DEFAULT_CONFIG] of [services/defaultConfig.js], the fields read here. *)
Definition DEFAULT_CONFIG : FirebaseSettings :=
  {| fb_systemPrompt :=
       Some "You are a helpful, friendly assistant. Reply concisely and in English."%string;
     fb_temperature := Some 0.8;
     fb_voice := Some "alloy"%string;
     fb_aiLanguage := Some "en"%string;
     fb_ttsProvider := Some "openai"%string;
     fb_ttsModel := Some "tts-1"%string;
     fb_openaiSpeed := None;
     fb_piperSpeed := Some 1.0;
     fb_piperPitch := Some 1.0;
     fb_coquiSettings := Some (Some 0.7) |}.

(** [getCurrentSettings() { return this.settingsCache || DEFAULT_CONFIG; }] *)
Definition getCurrentSettings (settingsCache : option FirebaseSettings) : FirebaseSettings :=
  match settingsCache with
  | Some settings => settings
  | None => DEFAULT_CONFIG
  end.

(** *** The upload as the handler receives it

    The form travels as [multipart/form-data] and is parsed by
    [upload.single('audio')] (multer with memory storage and
    [limits: { fileSize: 20 * 1024 * 1024 }]).  Neither the encoder of the
    browser nor multer is part of the repository: they are modelled by what
    they do to the forms of the hook. *)

(** [req.file]: the fields the handler reads. *)
Record File := { buffer : list byte; mimetype : string; originalname : string }.

Record Request := { req_body : gmap string FieldText; req_file : option File }.

Definition CR : Ascii.ascii := Ascii.ascii_of_nat 13.
Definition LF : Ascii.ascii := Ascii.ascii_of_nat 10.

(** The line breaks of a text value in the encoded form: every CR not
    followed by LF and every LF not preceded by CR becomes CR LF.
    [after_cr]: the character before was a CR. *)
Fixpoint crlf (after_cr : bool) (s : string) : string :=
  match s with
  | EmptyString => EmptyString
  | String c rest =>
      if Ascii.eqb c CR then String CR (String LF (crlf true rest))
      else if Ascii.eqb c LF then
        if after_cr then crlf false rest else String CR (String LF (crlf false rest))
      else String c (crlf false rest)
  end.

Definition normalize_newlines (s : string) : string := crlf false s.

(** The text of a field as the server reads it; the text of a number has
    no line break. *)
Definition received (v : FieldText) : FieldText :=
  match v with
  | Str s => Str (normalize_newlines s)
  | Num n => Num n
  end.

(** The text fields of a form.  (multer collects a name that occurs more
    than once into an array; the forms of the hook repeat no name.) *)
Definition fields_of (form : FormData) : gmap string FieldText :=
  fold_left
    (fun body entry =>
       match entry with
       | (name, Field v) => <[name := received v]> body
       | (_, FileEntry _ _) => body
       end) form ∅.

(** The [Content-Type] of a file part: the type of the blob, or
    [application/octet-stream] if it has none. *)
Definition part_content_type (b : Blob) : string :=
  if String.eqb (blob_type b) "" then "application/octet-stream" else blob_type b.

(** The media type that multer reports as [mimetype]: the type and subtype
    of the header, without the parameters that follow the first [;]. *)
Fixpoint media_type (content_type : string) : string :=
  match content_type with
  | EmptyString => EmptyString
  | String c rest =>
      if Ascii.eqb c (Ascii.ascii_of_nat 59) then EmptyString
      else String c (media_type rest)
  end.

Definition received_file (b : Blob) (filename : string) : File :=
  {| buffer := blob_bytes b;
     mimetype := media_type (part_content_type b);
     originalname := filename |}.

(** The first file entry called ['audio']. *)
Definition file_of (form : FormData) : option File :=
  head (omap (fun entry =>
                match entry with
                | (name, FileEntry b filename) =>
                    if String.eqb name "audio" then Some (received_file b filename) else None
                | _ => None
                end) form).

(** The request that reaches the handler when multer accepts the upload. *)
Definition multipart (form : FormData) : Request :=
  {| req_body := fields_of form; req_file := file_of form |}.




(** Truthiness of [req.body.name]. *)
Definition truthy_field (v : option FieldText) : bool :=
  match v with
  | Some (Str s) => negb (String.eqb s "")
  | Some (Num _) => true
  | None => false
  end.

(** [parseFloat(text)]; [None] is [NaN]. *)
Definition parseFloat (v : FieldText) : option Q :=
  match v with
  | Num n => Some n
  | Str _ => None
  end.

(** [req.body.name || firebaseSettings.name || 'default'] *)
Definition text_or (v : option FieldText) (fb : option string) (dflt : string) : FieldText :=
  match v with
  | Some x => if truthy_field v then x else
                match fb with
                | Some s => if truthy_string fb then Str s else Str dflt
                | None => Str dflt
                end
  | None =>
      match fb with
      | Some s => if truthy_string fb then Str s else Str dflt
      | None => Str dflt
      end
  end.

(** [a || firebaseSettings.name || dflt] on numbers ([None]: [null],
    [undefined] or [NaN]). *)
Definition number_or (a fb : option Q) (dflt : Q) : Q :=
  match a with
  | Some x => if truthy_number a then x else
                match fb with
                | Some y => if truthy_number fb then y else dflt
                | None => dflt
                end
  | None =>
      match fb with
      | Some y => if truthy_number fb then y else dflt
      | None => dflt
      end
  end.

(** [req.body.name ? parseFloat(req.body.name) : null] *)
Definition parsed (v : option FieldText) : option Q :=
  match v with
  | Some x => if truthy_field v then parseFloat x else None
  | None => None
  end.

(** [req.body.temperature ? Math.max(0, Math.min(2, parseFloat(...))) : null] *)
Definition parsed_temperature (v : option FieldText) : option Q :=
  match parsed v with
  | Some x => Some (Qmax 0 (Qmin 2 x))
  | None => None
  end.

Definition default_prompt_en : string :=
  "You are a helpful, friendly assistant. Reply concisely and in English.".

Definition default_prompt_de : string :=
  "Du bist Buddy, ein warmherziger älterer Mann, der ruhig, humorvoll und geduldig spricht. Du hörst aufmerksam zu und gibst hilfreiche, ermutigende Antworten. Du sprichst Deutsch und verwendest eine freundliche, respektvolle Sprache. Halte deine Antworten kurz und prägnant, aber warmherzig.".

Definition is_en (language : FieldText) : bool :=
  match language with
  | Str s => String.eqb s "en"
  | Num _ => false
  end.

(** The configuration the handler works with. *)
Record VoiceConfig := {
  language : FieldText;
  systemPrompt : FieldText;
  temperature : Q;
  voice : FieldText;
  ttsProvider : FieldText;
  ttsModel : FieldText;
  openaiSpeed : Q;
  piperSpeed : Q;
  piperPitch : Q;
  coquiTemperature : Q
}.

(** "Use request parameters FIRST, then Firebase as fallback": the
    [const] declarations of the handler. *)
Definition resolve_config (body : gmap string FieldText)
    (firebaseSettings : FirebaseSettings) : VoiceConfig :=
  let language := text_or (body !! "language") (fb_aiLanguage firebaseSettings) "de" in
  {| language := language;
     systemPrompt :=
       text_or (body !! "systemPrompt") (fb_systemPrompt firebaseSettings)
         (if is_en language then default_prompt_en else default_prompt_de);
     temperature :=
       number_or (parsed_temperature (body !! "temperature"))
         (fb_temperature firebaseSettings) 0.7;
     voice := text_or (body !! "voice") (fb_voice firebaseSettings) "alloy";
     ttsProvider := text_or (body !! "ttsProvider") (fb_ttsProvider firebaseSettings) "openai";
     ttsModel := text_or (body !! "ttsModel") (fb_ttsModel firebaseSettings) "tts-1";
     openaiSpeed :=
       number_or (parsed (body !! "openaiSpeed")) (fb_openaiSpeed firebaseSettings) 1.0;
     piperSpeed :=
       number_or (parsed (body !! "piperSpeed")) (fb_piperSpeed firebaseSettings) 1.0;
     piperPitch :=
       number_or (parsed (body !! "piperPitch")) (fb_piperPitch firebaseSettings) 1.0;
     coquiTemperature :=
       number_or (parsed (body !! "coquiTemperature"))
         (match fb_coquiSettings firebaseSettings with
          | Some temperature => temperature
          | None => None
          end) 0.7 |}.

(** The [catch (err)] of the handler, from [err.message]. *)
Definition error_reply (message : string) : HttpResponse :=
  let error :=
    if includes message "Whisper" || includes message "transcription" then
      "STT service failed"%string
    else if includes message "GPT" || includes message "LLM" then
      "LLM service failed"%string
    else if includes message "TTS" then
      "TTS service failed"%string
    else "Server error in voice pipeline"%string in
  {| status := 500; content_type := "application/json";
     payload := Json error (Some message) |}.

Section Pipeline.

(** The three awaited service calls (STT, LLM, TTS) of the [try] block:
    the audio stream, or the message of the error one of them threw. *)
Variable pipeline : Request -> VoiceConfig -> list (list byte) + string.

(** [ttsService.getContentType()] *)
Variable getContentType : string.

Definition voice_process (firebaseSettings : FirebaseSettings) (req : Request)
    : HttpResponse :=
  let isTestMode :=
    match req_body req !! "testMode" with
    | Some (Str s) => String.eqb s "true"
    | _ => false
    end in
  if negb (bool_decide (is_Some (req_file req))) && negb isTestMode then
    {| status := 400; content_type := "application/json";
       payload := Json "No audio file uploaded" None |}
  else
    match pipeline req (resolve_config (req_body req) firebaseSettings) with
    | inl audioStream =>
        {| status := 200; content_type := getContentType; payload := Audio audioStream |}
    | inr message => error_reply message
    end.

End Pipeline.

End Server.

(** ** Statements of the specification, and sample data *)

Module Examples.

Import JS Types Dom Playback Hook.
Open Scope Q_scope.

(** [DEFAULT_CONFIG] of [config/constants.ts] *)
Definition DEFAULT_CONFIG : AppConfig :=
  {| systemPrompt := "Du bist Buddy, ein warmherziger älterer Mann, der ruhig, humorvoll und geduldig spricht. Du hörst aufmerksam zu und gibst hilfsreiche, ermutigende Antworten. Du sprichst Deutsch und verwendest eine freundliche, aber respektvolle Sprache. Halte deine Antworten kurz und prägnant, aber warmherzig.";
     greeting := "Schön, dass du da bist. Wie geht es dir heute?";
     volume := 80;
     showSubtitles := false;
     voice := alloy;
     vadThreshold := 0;
     silenceDurationMs := 500;
     prefixPaddingMs := 300;
     turnDetectionType := server_vad;
     temperature := 0.8;
     aiLanguage := Some de;
     micGain := Some 1.5;
     ttsProvider := Some openai;
     ttsModel := Some "tts-1"%string;
     openaiSpeed := Some 1.0;
     piperSpeed := Some 1.0;
     piperPitch := Some 1.0;
     coquiSettings :=
       Some {| coqui_temperature := Some 0.7; length_penalty := Some 1.0;
               repetition_penalty := Some 1.0; top_k := Some 50; top_p := Some 0.85 |} |}.

(** A browser with one live microphone track, one audio element, one
    animation frame and one interval pending. *)
Definition browser0 : Browser :=
  {| animationFrames := {[ 7%positive ]}; intervals := {[ 3%positive ]};
     tracks := {[ 0%nat := live ]}; recorders := ∅;
     audios := {[ 0%nat := new_Audio ]}; gainParams := ∅; fetches := [];
     opusSupported := true |}.

(** The hook as [startConversation] leaves it: listening, graph built,
    both loops running, [speakingRef] false. *)
Definition listening0 : Hook :=
  {| state := AppState.listening; connectionState := ConnectionState.connected;
     error := None; audioLevel := 0;
     mediaStreamRef := Some {| getTracks := [0%nat] |}; audioContextRef := Some 0%nat;
     analyserRef := None; rafRef := Some 7%positive;
     processedStreamRef := Some {| getTracks := [1%nat] |};
     gateGainRef := Some 0%nat; preGainRef := Some 1%nat; noiseFloorRef := 0.01;
     vadVoiceStateRef := false; recorderRef := None; chunksRef := [];
     speakingRef := false; lastVoiceMsRef := 0; vadIntervalRef := Some 3%positive;
     activeAudioRef := Some 0%nat; browser := browser0 |}.

(** The same session one voice tick later: speaking, recorder running. *)
Definition speaking0 : Hook := vadTick DEFAULT_CONFIG 0.5 100 listening0.

(** A runtime with [MediaSource] that supports ['audio/mpeg']. *)
Definition window_mse : Window :=
  {| hasMediaSource := true;
     MediaSource_isTypeSupported := Some (fun type => String.eqb type "audio/mpeg");
     addSourceBuffer_throws := false;
     play_rejects := fun _ => false |}.

(** The speaking session after an upload whose [fetch] was rejected: the
    hook is in the error state with the microphone, the recorder and both
    loops still live. *)
Definition errored0 : Hook :=
  fst (recorder_onstop_response window_mse (fun key => key) DEFAULT_CONFIG Rejected speaking0).

(** A successful reply whose audio arrives in two chunks. *)
Definition resp_two_chunks : HttpResponse :=
  {| status := 200; content_type := "audio/mpeg";
     payload := Audio [[x49; x44]; [x33]] |}.

(** A stand-in for [Math.sqrt]: the square root to six decimals. *)
Definition sqrt6 (q : Q) : Q :=
  Z.sqrt (Qfloor (q * 1000000000000)) # 1000000.

Definition analyser4 : AudioLevel.AnalyserNode :=
  {| AudioLevel.fftSize := 4; AudioLevel.byteTimeDomainData := [128; 255; 1; 128]%Z |}.

End Examples.

Module VadSpec.

Import JS Types Dom Hook.
Open Scope Q_scope.

(** The noise floor a tick works with, and its voice decision. *)
Definition nextNoiseFloor (rms : Q) (h : Hook) : Q :=
  if vadVoiceStateRef h then noiseFloorRef h
  else noiseFloorRef h * 0.98 + rms * (1 - 0.98).

Definition isVoice (config : AppConfig) (rms : Q) (h : Hook) : bool :=
  if vadVoiceStateRef h
  then gt rms (offThresh config (nextNoiseFloor rms h))
  else gt rms (onThresh config (nextNoiseFloor rms h)).

(** The silence test of a tick that is not voice. *)
Definition silenceElapsed (config : AppConfig) (now : Q) (h : Hook) : bool :=
  ge (now - lastVoiceMsRef h) (silenceDurationMs config).

(** Speech-end fires on a tick: the tick leaves the speaking state. *)
Definition speech_end (h h' : Hook) : Prop :=
  speakingRef h = true /\ speakingRef h' = false.

(** The ticks after the last one that counted as voice, oldest first. *)
Fixpoint quiet_since (config : AppConfig) (ticks : list (Q * Q)) (h : Hook)
    (acc : list (Q * Q)) : list (Q * Q) :=
  match ticks with
  | [] => acc
  | t :: ticks' =>
      quiet_since config ticks' (vadTick config (fst t) (snd t) h)
        (if isVoice config (fst t) h then [] else acc ++ [t])
  end.

(** The time of the last tick that counted as voice, [t0] if there was none. *)
Fixpoint last_voice_at (config : AppConfig) (ticks : list (Q * Q)) (h : Hook)
    (t0 : Q) : Q :=
  match ticks with
  | [] => t0
  | t :: ticks' =>
      last_voice_at config ticks' (vadTick config (fst t) (snd t) h)
        (if isVoice config (fst t) h then snd t else t0)
  end.

(** While speaking, the hysteresis state is set and every tick since the
    last voice tick was at or below the off threshold. *)
Definition quiet_inv (config : AppConfig) (h : Hook) (acc : list (Q * Q)) : Prop :=
  speakingRef h = true ->
  vadVoiceStateRef h = true /\
  Forall (fun t => fst t <= offThresh config (noiseFloorRef h)) acc.

(** "Verify [onThresh - offThresh == margin*0.5 > 0] for any threshold
    >= 0", of the numbers the callback computes from a noise floor and a
    threshold setting that are binary64 numbers: the difference of the
    two thresholds, taken exactly or as the subtraction computes it, is
    the half of the margin, and it is positive. *)
Definition band_is_half_margin : Prop :=
  forall (config : AppConfig) (noiseFloor : Q),
    Binary64.representable (vadThreshold config) ->
    Binary64.representable noiseFloor ->
    0 <= vadThreshold config ->
    exists m on off : Q,
      VadBinary64.margin config = Binary64.Finite m /\
      VadBinary64.onThresh config (Binary64.Finite noiseFloor) = Binary64.Finite on /\
      VadBinary64.offThresh config (Binary64.Finite noiseFloor) = Binary64.Finite off /\
      (on - off == m * 0.5 \/
       Binary64.sub (Binary64.Finite on) (Binary64.Finite off)
       = Binary64.mul (Binary64.Finite m) (Binary64.literal 0.5)) /\
      0 < on - off.

End VadSpec.

Module PlaybackSpec.

Import JS Types Dom Playback.

(** The runtime supports chunked-append buffering ([MediaSource]) for the
    content type of the response, and the body is readable. *)
Definition runtime_supports (w : Window) (resp : HttpResponse) : bool :=
  has_body resp && hasMediaSource w &&
  match MediaSource_isTypeSupported w with
  | Some isTypeSupported => isTypeSupported (content_type resp)
  | None => false
  end.

(** "Attempt incremental playback if the runtime supports chunked-append
    audio buffering and the content type is supported; otherwise go
    directly to Buffered mode." *)
Definition streams_when_supported : Prop :=
  forall w resp a b,
    is_Some (audios b !! a) ->
    (runtime_supports w resp = true ->
       tryStream w resp a b = streaming_start resp a b) /\
    (runtime_supports w resp = false ->
       tryStream w resp a b = fallbackToBlob w None (closure resp a, b)).

(** "If the watchdog fires before streaming start, the eventual played
    byte content equals the bytes that would have been played via
    full-buffer fallback (no data loss)", of the streaming branch taken by
    itself: of the code after [if (!canUseMSE) { ... return; }], which
    [tryStream] does not reach while [enableStreaming] is [false]. *)
Definition watchdog_no_data_loss : Prop :=
  forall w resp a b events,
    is_Some (audios b !! a) ->
    let sb := run w events (streaming_start resp a b) in
    watchdog (fst sb) = true -> started (fst sb) = false -> aborted (fst sb) = false ->
    played_bytes (handle w WatchdogFires sb) = Some (full_buffer_bytes resp).

(** What the reader has delivered is a prefix of the body. *)
Definition received_inv (resp0 : HttpResponse) (a : nat) (sb : TryStream * Browser) : Prop :=
  resp (fst sb) = resp0 /\
  audioEl (fst sb) = a /\
  is_Some (audios (snd sb) !! a) /\
  match reader (fst sb) with
  | None => receivedChunks (fst sb) = []
  | Some _ =>
      concat (receivedChunks (fst sb)) ++ concat (unread (fst sb))
      = concat (body_chunks resp0)
  end /\
  (pc (fst sb) = NotStarted -> reader (fst sb) = None).

End PlaybackSpec.

Module UploadSpec.

Import JS Types Dom Playback Hook.

(** "Must tolerate rapid start/stop (stop before any data captured) by
    simply discarding an empty payload": with no chunk captured, the stop
    handler sends nothing. *)
Definition discards_empty_payload : Prop :=
  forall pathname config mimeType h,
    chunksRef h = [] ->
    fetches (browser (recorder_onstop_upload pathname config mimeType h))
    = fetches (browser h).

(** The stage text of an error reply. *)
Definition reply_error (resp : HttpResponse) : option string :=
  match payload resp with
  | Json error _ => Some error
  | _ => None
  end.

(** "Fails with a pipeline error carrying the stage, and this
    classification reaches the caller": the stage of the reply can be read
    off what the hook is left with. *)
Definition classification_reaches_caller : Prop :=
  forall w t config,
    exists decode : Hook -> option string,
      forall message h,
        decode (fst (recorder_onstop_response w t config
                       (Resolved (Server.error_reply message)) h))
        = reply_error (Server.error_reply message).



(** The eight entries every upload off the dev routes starts with. *)
Definition home_core_entries (config : AppConfig) (blob : Blob) : FormData :=
  [ ("audio", FileEntry blob "utterance.webm");
    ("systemPrompt", Field (Str (systemPrompt config)));
    ("temperature", Field (Num (temperature config)));
    ("voice", Field (Str (voice_name (voice config))));
    ("language", language_field config);
    ("ttsProvider",
      Field (Str (match ttsProvider config with
                  | Some p => ttsProvider_name p
                  | None => "openai"
                  end)));
    ("ttsModel",
      Field (Str (match ttsModel config with
                  | Some m => if truthy_string (Some m) then m else "tts-1"
                  | None => "tts-1"
                  end)));
    ("greeting", Field (Str (greeting config))) ]%string.


Definition coqui_knob (config : AppConfig) : option Q :=
  match coquiSettings config with
  | Some c => coqui_temperature c
  | None => None
  end.

(** The language the hook sends: ['en'] or ['de']. *)
Definition sent_language (config : AppConfig) : string :=
  match aiLanguage config with
  | Some en => "en"
  | _ => "de"
  end.

Definition sent_ttsProvider (config : AppConfig) : string :=
  match ttsProvider config with
  | Some p => ttsProvider_name p
  | None => "openai"
  end.

Definition sent_ttsModel (config : AppConfig) : string :=
  match ttsModel config with
  | Some m => if String.eqb m "" then "tts-1" else m
  | None => "tts-1"
  end.



(** "From its Firebase settings cache with per-field hardcoded defaults":
    the Firebase text if there is one and it is not empty, the Firebase
    number if there is one and it is not zero, else the default. *)
Definition firebase_text (fb : option string) (dflt : string) : FieldText :=
  match fb with
  | Some s => if String.eqb s "" then Str dflt else Str s
  | None => Str dflt
  end.

Definition firebase_number (fb : option Q) (dflt : Q) : Q :=
  match fb with
  | Some q => if Qeq_bool q 0 then dflt else q
  | None => dflt
  end.

(** The default prompt goes by the language. *)
Definition default_prompt (language : string) : string :=
  if String.eqb language "en" then Server.default_prompt_en else Server.default_prompt_de.

Definition firebase_coquiTemperature (fb : Server.FirebaseSettings) : option Q :=
  match Server.fb_coquiSettings fb with
  | Some temperature => temperature
  | None => None
  end.


(** "Each request field takes priority", as far as it goes: a text that
    is not empty (with the line breaks of the encoded form), a temperature
    above zero (clamped), a knob that is set and not zero; else Firebase
    or the default. *)
Definition request_text (s : string) (fb : option string) (dflt : string) : FieldText :=
  if String.eqb s "" then firebase_text fb dflt else Str (Server.normalize_newlines s).

Definition request_temperature (temperature : Q) (fb : option Q) : Q :=
  if Qle_bool temperature 0 then firebase_number fb 0.7 else Qmax 0 (Qmin 2 temperature).

Definition request_number (n : option Q) (fb : option Q) (dflt : Q) : Q :=
  match n with
  | Some q => if Qeq_bool q 0 then firebase_number fb dflt else q
  | None => firebase_number fb dflt
  end.

(** The configuration of an upload from any other route. *)
Definition home_config (config : AppConfig) (fb : Server.FirebaseSettings)
    : Server.VoiceConfig :=
  {| Server.language := Str (sent_language config);
     Server.systemPrompt :=
       request_text (systemPrompt config) (Server.fb_systemPrompt fb)
         (default_prompt (sent_language config));
     Server.temperature := request_temperature (temperature config) (Server.fb_temperature fb);
     Server.voice := Str (voice_name (voice config));
     Server.ttsProvider := Str (sent_ttsProvider config);
     Server.ttsModel := Str (Server.normalize_newlines (sent_ttsModel config));
     Server.openaiSpeed :=
       request_number (openaiSpeed config) (Server.fb_openaiSpeed fb) 1.0;
     Server.piperSpeed :=
       request_number (piperSpeed config) (Server.fb_piperSpeed fb) 1.0;
     Server.piperPitch :=
       request_number (piperPitch config) (Server.fb_piperPitch fb) 1.0;
     Server.coquiTemperature :=
       request_number (coqui_knob config) (firebase_coquiTemperature fb) 0.7 |}.


End UploadSpec.

(** ** The session: [startConversation], [restartWithNewSettings] and the
    effects of [useVoicePipeline] *)

Module Session.

Import JS Types AudioLevel Dom Playback Hook.
Open Scope Q_scope.

Definition set_connectionState v (h : Hook) : Hook :=
  {| state := state h; connectionState := v; error := error h;
     audioLevel := audioLevel h; mediaStreamRef := mediaStreamRef h;
     audioContextRef := audioContextRef h; analyserRef := analyserRef h;
     rafRef := rafRef h; processedStreamRef := processedStreamRef h;
     gateGainRef := gateGainRef h; preGainRef := preGainRef h;
     noiseFloorRef := noiseFloorRef h; vadVoiceStateRef := vadVoiceStateRef h;
     recorderRef := recorderRef h; chunksRef := chunksRef h;
     speakingRef := speakingRef h; lastVoiceMsRef := lastVoiceMsRef h;
     vadIntervalRef := vadIntervalRef h; activeAudioRef := activeAudioRef h;
     browser := browser h |}.

Definition set_mediaStreamRef v (h : Hook) : Hook :=
  {| state := state h; connectionState := connectionState h; error := error h;
     audioLevel := audioLevel h; mediaStreamRef := v;
     audioContextRef := audioContextRef h; analyserRef := analyserRef h;
     rafRef := rafRef h; processedStreamRef := processedStreamRef h;
     gateGainRef := gateGainRef h; preGainRef := preGainRef h;
     noiseFloorRef := noiseFloorRef h; vadVoiceStateRef := vadVoiceStateRef h;
     recorderRef := recorderRef h; chunksRef := chunksRef h;
     speakingRef := speakingRef h; lastVoiceMsRef := lastVoiceMsRef h;
     vadIntervalRef := vadIntervalRef h; activeAudioRef := activeAudioRef h;
     browser := browser h |}.

Definition set_audioContextRef v (h : Hook) : Hook :=
  {| state := state h; connectionState := connectionState h; error := error h;
     audioLevel := audioLevel h; mediaStreamRef := mediaStreamRef h;
     audioContextRef := v; analyserRef := analyserRef h;
     rafRef := rafRef h; processedStreamRef := processedStreamRef h;
     gateGainRef := gateGainRef h; preGainRef := preGainRef h;
     noiseFloorRef := noiseFloorRef h; vadVoiceStateRef := vadVoiceStateRef h;
     recorderRef := recorderRef h; chunksRef := chunksRef h;
     speakingRef := speakingRef h; lastVoiceMsRef := lastVoiceMsRef h;
     vadIntervalRef := vadIntervalRef h; activeAudioRef := activeAudioRef h;
     browser := browser h |}.

(** [Math.max(0.5, Math.min(3.0, config.micGain ?? 1.5))] *)
Definition micGain_target (config : AppConfig) : Q :=
  Qmax 0.5 (Qmin 3.0 (match micGain config with Some g => g | None => 1.5 end)).

(** The effect on [config.micGain]: the pre-amplifier follows the setting
    while a graph exists. *)
Definition micGain_effect (config : AppConfig) (h : Hook) : Hook :=
  match preGainRef h, audioContextRef h with
  | Some g, Some _ =>
      set_browser (setTargetAtTime g (micGain_target config) 0.05 (browser h)) h
  | _, _ => h
  end.

(** The callback of the timer that the effect on [error] sets:
    [setTimeout(() => setError(null), 5000)]. *)
Definition error_timeout (h : Hook) : Hook := set_error None h.

(** *** What the runtime answers to [startConversation] *)

(** A thrown value, as far as the [catch] looks at it:
    [err instanceof DOMException] and [err.name]. *)
Record Exception := { isDOMException : bool; name : string }.

Inductive UserMedia :=
| Granted (stream : MediaStream)
| Denied (err : Exception).

Record Runtime := {
  getUserMedia : UserMedia;                        (* how [getUserMedia] settles *)
  new_AudioContext : Exception + nat;              (* [new AudioContext()]: throws, or the context *)
  createMediaStreamSource_throws : option Exception;
  analyser_data : list Z;                          (* the samples the new analyser holds *)
  performance_now : Q
}.

(** The tracks of a stream that [getUserMedia] hands out are live. *)
Definition grant (stream : MediaStream) (b : Browser) : Browser :=
  set_tracks (fold_left (fun m t => <[t := live]> m) (getTracks stream) (tracks b)) b.

(** [ctx.createGain()] followed by [gain.value = v]: a new gain node; the
    assignment is recorded as a target reached at once. *)
Definition createGain (v : Q) (b : Browser) : nat * Browser :=
  let g := fresh (dom (gainParams b)) in
  (g, set_gainParams (<[g := {| target := v; timeConstant := 0 |}]> (gainParams b)) b).

(** [ctx.createMediaStreamDestination()]: its stream has one new live track. *)
Definition createMediaStreamDestination (b : Browser) : MediaStream * Browser :=
  let t := fresh (dom (tracks b)) in
  ({| getTracks := [t] |}, set_tracks (<[t := live]> (tracks b)) b).

(** [window.setInterval(callback, 50)] *)
Definition setInterval (b : Browser) : positive * Browser :=
  let id := fresh (intervals b) in
  (id, set_intervals ({[id]} ∪ intervals b) b).

(** The [catch (err)] of [startConversation]. *)
Definition startConversation_catch (t : string -> string) (err : Exception) (h : Hook)
    : Hook :=
  let h :=
    if isDOMException err && String.eqb (name err) "NotAllowedError"
    then set_error (Some {| type := ErrorType.microphone; message := t "error.microphone" |}) h
    else set_error (Some {| type := ErrorType.general; message := t "error.general" |}) h in
  let h := set_state AppState.error h in
  set_connectionState ConnectionState.error h.

Section WithSqrt.

Variable Math_sqrt : Q -> Q.

(** The graph from [createMediaStreamSource] on, the two loops and the
    final state; [ctx] is [audioContextRef.current]. *)
Definition startConversation_graph (config : AppConfig) (rt : Runtime) (h : Hook) : Hook :=
  let '(preGain, b) := createGain (micGain_target config) (browser h) in
  let '(gateGain, b) := createGain 1.0 b in
  let analyser := {| fftSize := 1024; byteTimeDomainData := analyser_data rt |} in
  let '(destination_stream, b) := createMediaStreamDestination b in
  let h :=
    {| state := state h; connectionState := connectionState h; error := error h;
       audioLevel := audioLevel h; mediaStreamRef := mediaStreamRef h;
       audioContextRef := audioContextRef h; analyserRef := Some analyser;
       rafRef := rafRef h; processedStreamRef := Some destination_stream;
       gateGainRef := Some gateGain; preGainRef := Some preGain;
       noiseFloorRef := noiseFloorRef h; vadVoiceStateRef := vadVoiceStateRef h;
       recorderRef := recorderRef h; chunksRef := chunksRef h;
       speakingRef := speakingRef h; lastVoiceMsRef := lastVoiceMsRef h;
       vadIntervalRef := vadIntervalRef h; activeAudioRef := activeAudioRef h;
       browser := b |} in
  (* monitorAudio() *)
  let h := monitorAudio_tick Math_sqrt h in
  let h := set_speakingRef false h in
  let h := set_lastVoiceMsRef (performance_now rt) h in
  let '(interval, b) := setInterval (browser h) in
  let h :=
    {| state := state h; connectionState := connectionState h; error := error h;
       audioLevel := audioLevel h; mediaStreamRef := mediaStreamRef h;
       audioContextRef := audioContextRef h; analyserRef := analyserRef h;
       rafRef := rafRef h; processedStreamRef := processedStreamRef h;
       gateGainRef := gateGainRef h; preGainRef := preGainRef h;
       noiseFloorRef := noiseFloorRef h; vadVoiceStateRef := vadVoiceStateRef h;
       recorderRef := recorderRef h; chunksRef := chunksRef h;
       speakingRef := speakingRef h; lastVoiceMsRef := lastVoiceMsRef h;
       vadIntervalRef := Some interval; activeAudioRef := activeAudioRef h;
       browser := b |} in
  let h := set_connectionState ConnectionState.connected h in
  set_state AppState.listening h.

Definition startConversation (t : string -> string) (config : AppConfig)
    (rt : Runtime) (h : Hook) : Hook :=
  let h := set_error None h in
  let h := set_state AppState.connecting h in
  let h := set_connectionState ConnectionState.connecting h in
  match getUserMedia rt with
  | Denied err => startConversation_catch t err h
  | Granted stream =>
      let h := set_mediaStreamRef (Some stream) (set_browser (grant stream (browser h)) h) in
      let ctx :=
        match audioContextRef h with
        | Some ctx => inr ctx
        | None => new_AudioContext rt
        end in
      match ctx with
      | inl err => startConversation_catch t err h
      | inr ctx =>
          let h := set_audioContextRef (Some ctx) h in
          match createMediaStreamSource_throws rt with
          | Some err => startConversation_catch t err h
          | None => startConversation_graph config rt h
          end
      end
  end.

End WithSqrt.

(** [restartWithNewSettings]: the hook after the call, and whether the
    120 ms timer that calls [startConversation] was set. *)
Definition restartWithNewSettings (h : Hook) : Completion Hook * bool :=
  match state h with
  | AppState.idle => (Normal h, false)
  | _ => (stopConversation h, true)
  end.

(** *** The hook as a machine: one step per callback *)

Inductive Event :=
| StartConversation (rt : Runtime)
| StopConversation
| RestartWithNewSettings
| MonitorFrame                                  (* a frame of [monitorAudio] fires *)
| VadInterval (rms now : Q)                     (* the interval fires; [rms] as measured *)
| DataAvailable (data : option Blob)            (* [recorder.ondataavailable] *)
| RecorderStop (pathname mimeType : string)     (* [recorder.onstop], up to [fetch] *)
| FetchSettles (r : FetchResult)                (* [recorder.onstop], from [fetch] on *)
| AudioEnded (capturedState : AppState.t)       (* [audioEl.onended] *)
| MicGainChanged                                (* the effect on [config.micGain] *)
| ErrorTimeout.                                 (* the 5 s timer of the effect on [error] *)

Section Machine.

Variable Math_sqrt : Q -> Q.
Variable w : Window.
Variable t : string -> string.
Variable config : AppConfig.

Definition step (h : Hook) (e : Event) : Hook :=
  match e with
  | StartConversation rt => startConversation Math_sqrt t config rt h
  | StopConversation => try_catch (stopConversation h)
  | RestartWithNewSettings => try_catch (fst (restartWithNewSettings h))
  | MonitorFrame => monitorAudio_tick Math_sqrt h
  | VadInterval rms now => vadTick config rms now h
  | DataAvailable data => recorder_ondataavailable data h
  | RecorderStop pathname mimeType => recorder_onstop_upload pathname config mimeType h
  | FetchSettles r => fst (recorder_onstop_response w t config r h)
  | AudioEnded capturedState => audioEl_onended capturedState h
  | MicGainChanged => micGain_effect config h
  | ErrorTimeout => error_timeout h
  end.

Definition run (events : list Event) (h : Hook) : Hook := fold_left step events h.

End Machine.

(** A runtime that grants the microphone and builds the graph. *)
Definition runtime0 : Runtime :=
  {| getUserMedia := Granted {| getTracks := [0%nat] |};
     new_AudioContext := inr 0%nat;
     createMediaStreamSource_throws := None;
     analyser_data := [128; 255; 1; 128]%Z;
     performance_now := 1000 |}.

End Session.

(** ** The server: configuration, the three services, the pipeline of
    [/api/voice/process] and [/api/admin/auth] *)

Module Services.

Import JS Types.
Open Scope Q_scope.

(** [value || dflt] on a string that may be missing *)
Definition string_or (value : option string) (dflt : string) : string :=
  match value with
  | Some s => if truthy_string value then s else dflt
  | None => dflt
  end.

(** [s.split(sep)] for a one-character separator; [cur] is the piece
    being read. *)
Fixpoint split_from (sep : Ascii.ascii) (s : string) (cur : string) : list string :=
  match s with
  | EmptyString => [cur]
  | String c s' =>
      if Ascii.eqb c sep then cur :: split_from sep s' ""
      else split_from sep s' (cur +:+ String c "")
  end.

Definition split (sep : Ascii.ascii) (s : string) : list string := split_from sep s "".

(** The characters [','] and ['/']. *)
Definition comma : Ascii.ascii := Ascii.ascii_of_nat 44.
Definition slash : Ascii.ascii := Ascii.ascii_of_nat 47.

(** The environment variables [server/config.js] reads here. *)
Record Env := {
  ADMIN_PASSWORD : option string;
  OPENAI_API_KEY : option string;
  LLM_PROVIDER : option string;
  STT_PROVIDER : option string;
  TTS_PROVIDER : option string;
  LLM_MODEL : option string;
  TTS_MODEL : option string;
  STT_MODEL : option string;
  ALLOWED_VOICES : option string
}.

(** [cfg], as far as the services and the two handlers read it. *)
Record Cfg := {
  adminPassword : string;
  openaiApiKey : string;
  providers_LLM : string;
  providers_STT : string;
  providers_TTS : string;
  models_llm : string;
  models_tts : string;
  models_stt : string;
  allowedVoices : list string               (* the members of the [Set] *)
}.

(** What a promise settles to: a value, or an [Error] with its message. *)
Inductive Promise (A : Type) :=
| Resolves (a : A)
| Rejects (message : string).
Arguments Resolves {A} a.
Arguments Rejects {A} message.

(** [await p] inside a function that does not catch. *)
Definition await {A B : Type} (p : Promise A) (k : A -> Promise B) : Promise B :=
  match p with
  | Resolves a => k a
  | Rejects message => Rejects message
  end.

(** A [Response] of [fetch]: [ok], [text()], [json()] and [body]. *)
Record Response (A : Type) := {
  response_ok : bool;
  response_text : Promise string;
  response_json : Promise A;
  response_body : option (list (list byte))
}.
Arguments response_ok {A} r.
Arguments response_text {A} r.
Arguments response_json {A} r.
Arguments response_body {A} r.

(** [promise.catch(() => '')] *)
Definition catch_empty (p : Promise string) : string :=
  match p with
  | Resolves s => s
  | Rejects _ => ""
  end.

(** *** Requests to the providers *)

Record TranscriptionRequest := {
  tr_apiKey : string;
  tr_file : Blob;
  tr_fileName : string;
  tr_model : string;
  tr_language : string
}.

(** The fields of the transcription reply that are strings. *)
Record TranscriptionData := {
  data_text : option string;
  data_transcription : option string;
  data_data : option string
}.

Record ChatRequest := {
  chat_apiKey : option string;              (* [None]: no [Authorization] header *)
  chat_model : string;
  chat_temperature : Q;
  chat_max_tokens : Q;
  chat_system : string;
  chat_user : string
}.

Record OllamaRequest := {
  ollama_model : string;
  ollama_prompt : string;
  ollama_temperature : Q;
  ollama_max_tokens : Q
}.

Record SpeechRequest := {
  speech_apiKey : string;
  speech_model : string;
  speech_voice : string;
  speech_input : string;
  speech_speed : Q
}.

Record CoquiRequest := {
  coqui_text : string;
  coqui_language : string;
  coqui_model : option string;
  coqui_speaker_id : option string;
  coqui_request_temperature : option Q
}.

Record PiperRequest := {
  piper_text : string;
  piper_language : string;
  piper_voice : option string;
  piper_speed : option Q;
  piper_pitch : option Q
}.

(** How the providers answer: what [fetch] settles to for each request.
    The chat replies carry [choices[0].message.content] (for Ollama:
    [response]) when it is a string. *)
Record Providers := {
  openai_transcriptions : TranscriptionRequest -> Promise (Response (option TranscriptionData));
  openai_chat : ChatRequest -> Promise (Response (option string));
  ollama_generate : OllamaRequest -> Promise (Response (option string));
  local_chat : ChatRequest -> Promise (Response (option string));
  openai_speech : SpeechRequest -> Promise (Response unit);
  coqui_tts : CoquiRequest -> Promise (Response unit);
  piper_tts : PiperRequest -> Promise (Response unit)
}.

(** The options of the three service calls; [None] is [undefined]. *)
Record GptOptions := {
  opt_systemPrompt : option string;
  opt_temperature : option Q;
  opt_maxTokens : option Q;
  opt_aiLanguage : option string
}.

Record TtsOptions := {
  opt_voice : option string;
  opt_speed : option Q;
  opt_pitch : option Q;
  opt_language : option string;
  opt_provider : option string;
  opt_model : option string;
  opt_tts_temperature : option Q
}.

(** [x = dflt] in a parameter list or a destructuring pattern *)
Definition default_to {A : Type} (dflt : A) (x : option A) : A :=
  match x with
  | Some a => a
  | None => dflt
  end.

(** The reply of [/api/admin/auth]. *)
Record AuthReply := { auth_status : Z; auth_ok : bool; auth_error : option string }.

Section WithRuntime.

(** [String.prototype.trim] *)
Variable String_trim : string -> string.

(** [server/config.js] *)
Definition cfg_of (env : Env) : Cfg :=
  {| adminPassword := string_or (ADMIN_PASSWORD env) "";
     openaiApiKey := string_or (OPENAI_API_KEY env) "";
     providers_LLM := string_or (LLM_PROVIDER env) "openai";
     providers_STT := string_or (STT_PROVIDER env) "openai";
     providers_TTS := string_or (TTS_PROVIDER env) "openai";
     models_llm := string_or (LLM_MODEL env) "gpt-4o-mini";
     models_tts := string_or (TTS_MODEL env) "tts-1";
     models_stt := string_or (STT_MODEL env) "whisper-1";
     allowedVoices :=
       filter (fun v => v <> ""%string)
         (map String_trim
            (split comma
               (string_or (ALLOWED_VOICES env)
                  "nova,shimmer,echo,onyx,fable,alloy,ash,sage,coral"))) |}.

Variable cfg : Cfg.
Variable providers : Providers.

(** *** [services/whisper.js] *)

(** [(mimetype && mimetype.split('/')[1]) || 'webm'] *)
Definition extension_of (mimetype : string) : string :=
  string_or (if truthy_string (Some mimetype) then split slash mimetype !! 1%nat else None) "webm".

Definition _transcribeOpenAI (audioBuffer : list byte) (mimetype originalname language : string)
    : Promise string :=
  let apiKey := string_or (Some (openaiApiKey cfg)) (openaiApiKey cfg) in
  if negb (truthy_string (Some apiKey)) then
    Rejects "Missing OPENAI_API_KEY for Whisper service"
  else
    let fileName :=
      string_or (Some originalname) ("audio." +:+ extension_of mimetype) in
    let blob := {| blob_bytes := audioBuffer; blob_type := mimetype |} in
    await
      (openai_transcriptions providers
         {| tr_apiKey := apiKey; tr_file := blob; tr_fileName := fileName;
            tr_model := models_stt cfg; tr_language := language |})
      (fun response =>
         if negb (response_ok response) then
           await (response_text response)
             (fun errorText => Rejects ("Whisper transcription failed: " +:+ errorText))
         else
           await (response_json response)
             (fun data =>
                let text :=
                  match data with
                  | Some data =>
                      string_or (data_text data)
                        (string_or (data_transcription data)
                           (string_or (data_data data) ""))
                  | None => ""%string
                  end in
                if negb (truthy_string (Some (String_trim text))) then
                  Rejects "Empty transcription result"
                else Resolves (String_trim text))).

Definition transcribe (audioBuffer : list byte) (mimetype originalname : option string)
    (language : option string) : Promise string :=
  let mimetype := default_to "audio/webm"%string mimetype in
  let originalname := default_to "audio.webm"%string originalname in
  let language := default_to "de"%string language in
  if String.eqb (providers_STT cfg) "openai" then
    _transcribeOpenAI audioBuffer mimetype originalname language
  else if String.eqb (providers_STT cfg) "local" then
    Rejects "Local Whisper not implemented yet"
  else Rejects ("Unknown STT provider: " +:+ providers_STT cfg).

(** *** [services/gpt.js] *)

(** [Math.max(0, Math.min(2, temperature))] *)
Definition clamp_temperature (temperature : Q) : Q := Qmax 0 (Qmin 2 temperature).

(** [data?.choices?.[0]?.message?.content?.trim?.() || ''] *)
Definition content_of (data : option string) : string :=
  match data with
  | Some content => String_trim content
  | None => ""
  end.

Definition newline : string := String (Ascii.ascii_of_nat 10) "".

Definition _generateOpenAI (userText systemPrompt : string) (temperature maxTokens : Q)
    (aiLanguage : string) : Promise string :=
  if negb (truthy_string (Some (openaiApiKey cfg))) then
    Rejects "Missing OPENAI_API_KEY for GPT service"
  else
    let langRules :=
      if String.eqb aiLanguage "en"
      then "Important: Always reply in English, concisely."%string
      else "Wichtige Regeln: Antworte stets auf Deutsch und halte dich kurz."%string in
    await
      (openai_chat providers
         {| chat_apiKey := Some (openaiApiKey cfg);
            chat_model := models_llm cfg;
            chat_temperature := clamp_temperature temperature;
            chat_max_tokens := maxTokens;
            chat_system := systemPrompt +:+ newline +:+ newline +:+ langRules;
            chat_user := userText |})
      (fun response =>
         if negb (response_ok response) then
           await (response_text response)
             (fun errorText => Rejects ("OpenAI GPT completion failed: " +:+ errorText))
         else
           await (response_json response)
             (fun data =>
                let assistantText := content_of data in
                if negb (truthy_string (Some assistantText)) then Rejects "Empty GPT response"
                else Resolves assistantText)).

(** [try { ... } catch (error) { throw new Error(prefix + error.message) }] *)
Definition rethrow {A : Type} (prefix : string) (p : Promise A) : Promise A :=
  match p with
  | Resolves a => Resolves a
  | Rejects message => Rejects (prefix +:+ message)
  end.

Definition _generateOllama (userText systemPrompt : string) (temperature maxTokens : Q)
    : Promise string :=
  rethrow "Ollama service unavailable: "
    (await
       (ollama_generate providers
          {| ollama_model := string_or (Some (models_llm cfg)) "llama2";
             ollama_prompt :=
               systemPrompt +:+ newline +:+ newline +:+ "User: " +:+ userText
               +:+ newline +:+ newline +:+ "Assistant:";
             ollama_temperature := temperature;
             ollama_max_tokens := maxTokens |})
       (fun response =>
          if negb (response_ok response) then
            await (response_text response)
              (fun errorText => Rejects ("Ollama completion failed: " +:+ errorText))
          else
            await (response_json response)
              (fun data =>
                 let assistantText := content_of data in
                 if negb (truthy_string (Some assistantText))
                 then Rejects "Empty Ollama response"
                 else Resolves assistantText))).

Definition _generateLocal (userText systemPrompt : string) (temperature maxTokens : Q)
    : Promise string :=
  rethrow "Local LLM service unavailable: "
    (await
       (local_chat providers
          {| chat_apiKey := None;
             chat_model := string_or (Some (models_llm cfg)) "local-model";
             chat_temperature := clamp_temperature temperature;
             chat_max_tokens := maxTokens;
             chat_system := systemPrompt;
             chat_user := userText |})
       (fun response =>
          if negb (response_ok response) then
            await (response_text response)
              (fun errorText => Rejects ("Local LLM completion failed: " +:+ errorText))
          else
            await (response_json response)
              (fun data =>
                 let assistantText := content_of data in
                 if negb (truthy_string (Some assistantText))
                 then Rejects "Empty local LLM response"
                 else Resolves assistantText))).

Definition generateResponse (userText : string) (options : GptOptions) : Promise string :=
  let systemPrompt :=
    default_to
      "Du bist ein hilfreicher, freundlicher Assistent. Antworte knapp, präzise und auf Deutsch."%string
      (opt_systemPrompt options) in
  let temperature := default_to 0.7 (opt_temperature options) in
  let maxTokens := default_to 1000 (opt_maxTokens options) in
  let aiLanguage := default_to "de"%string (opt_aiLanguage options) in
  if String.eqb (providers_LLM cfg) "openai" then
    _generateOpenAI userText systemPrompt temperature maxTokens aiLanguage
  else if String.eqb (providers_LLM cfg) "ollama" then
    _generateOllama userText systemPrompt temperature maxTokens
  else if String.eqb (providers_LLM cfg) "local" then
    _generateLocal userText systemPrompt temperature maxTokens
  else Rejects ("Unknown LLM provider: " +:+ providers_LLM cfg).

(** *** [services/tts.js] *)

(** [if (!response.ok || !response.body) throw ...; return response.body] *)
Definition body_or_throw (prefix : string) (response : Response unit)
    : Promise (list (list byte)) :=
  match response_body response with
  | Some body =>
      if response_ok response then Resolves body
      else Rejects (prefix +:+ catch_empty (response_text response))
  | None => Rejects (prefix +:+ catch_empty (response_text response))
  end.

(** The [speed] and [model] arguments reach the log line only: the
    request is sent with ['tts-1'] and [speed: 1]. *)
Definition _synthesizeOpenAI (text voice : string) (speed : Q) (model : string)
    : Promise (list (list byte)) :=
  if negb (truthy_string (Some (openaiApiKey cfg))) then
    Rejects "Missing OPENAI_API_KEY for TTS service"
  else
    let fixedModel := "tts-1"%string in
    await
      (openai_speech providers
         {| speech_apiKey := openaiApiKey cfg; speech_model := fixedModel;
            speech_voice := voice; speech_input := text; speech_speed := 1 |})
      (body_or_throw "OpenAI TTS failed: ").

(** [if (s) requestBody.name = s] *)
Definition if_truthy_string (s : string) : option string :=
  if truthy_string (Some s) then Some s else None.

Definition _synthesizeCoqui (text voice language : string) (temperature : Q) (model : string)
    : Promise (list (list byte)) :=
  rethrow "Coqui TTS service unavailable: "
    (await
       (coqui_tts providers
          {| coqui_text := text; coqui_language := language;
             coqui_model := if_truthy_string model;
             coqui_speaker_id := if_truthy_string voice;
             coqui_request_temperature := Some temperature |})
       (body_or_throw "Coqui TTS failed: ")).

(** [if (x && x !== 1.0) requestBody.name = x] *)
Definition if_not_default (x : Q) : option Q :=
  if truthy_number (Some x) && negb (Qeq_bool x 1.0) then Some x else None.

Definition _synthesizePiper (text voice language : string) (speed pitch : Q)
    : Promise (list (list byte)) :=
  rethrow "Piper TTS service unavailable: "
    (await
       (piper_tts providers
          {| piper_text := text; piper_language := language;
             piper_voice := if_truthy_string voice;
             piper_speed := if_not_default speed;
             piper_pitch := if_not_default pitch |})
       (body_or_throw "Piper TTS failed: ")).

(** [this.allowedVoices.has(voice) ? voice : 'alloy'] *)
Definition sanitizedVoice (voice : string) : string :=
  if bool_decide (voice ∈ allowedVoices cfg) then voice else "alloy".

Definition synthesize (text : string) (options : TtsOptions) : Promise (list (list byte)) :=
  let voice := default_to "alloy"%string (opt_voice options) in
  let speed := default_to 1.0 (opt_speed options) in
  let pitch := default_to 1.0 (opt_pitch options) in
  let language := default_to "de"%string (opt_language options) in
  let provider := default_to (providers_TTS cfg) (opt_provider options) in
  let model := default_to (models_tts cfg) (opt_model options) in
  let temperature := default_to 0.7 (opt_tts_temperature options) in
  let activeProvider := string_or (Some provider) (providers_TTS cfg) in
  let activeModel := string_or (Some model) (models_tts cfg) in
  if String.eqb activeProvider "openai" then
    _synthesizeOpenAI text (sanitizedVoice voice) speed activeModel
  else if String.eqb activeProvider "coqui" then
    _synthesizeCoqui text voice language temperature activeModel
  else if String.eqb activeProvider "piper" then
    _synthesizePiper text voice language speed pitch
  else Rejects ("Unknown TTS provider: " +:+ activeProvider).

(** [getContentType()] switches on the provider of the configuration,
    not on the one that synthesised. *)
Definition getContentType : string :=
  if String.eqb (providers_TTS cfg) "openai" then "audio/mpeg"
  else if String.eqb (providers_TTS cfg) "coqui" || String.eqb (providers_TTS cfg) "piper"
       then "audio/wav"
       else "audio/mpeg".

(** *** The [try] block of [/api/voice/process] *)

(** [String(n)] for the text of a field that [FieldText] keeps as a number. *)
Variable String_of_number : Q -> string.

Definition text_of (v : FieldText) : string :=
  match v with
  | Str s => s
  | Num n => String_of_number n
  end.

(** The message of the [TypeError] that the engine throws for
    [req.file.buffer] when [req.file] is [undefined]. *)
Variable TypeError_message : string.

(** The options the handler hands to [ttsService.synthesize]. *)
Definition ttsOptions (c : Server.VoiceConfig) : TtsOptions :=
  let ttsProvider := text_of (Server.ttsProvider c) in
  {| opt_voice := Some (text_of (Server.voice c));
     opt_speed :=
       Some (if String.eqb ttsProvider "openai" then Server.openaiSpeed c
             else if String.eqb ttsProvider "piper" then Server.piperSpeed c
             else 1.0);
     opt_pitch := Some (Server.number_or (Some (Server.piperPitch c)) None 1.0);
     opt_language := Some (text_of (Server.language c));
     opt_provider := Some ttsProvider;
     opt_model := Some (text_of (Server.ttsModel c));
     opt_tts_temperature := Some (Server.coquiTemperature c) |}.

(** STT, LLM, TTS: the audio stream, or the message of what was thrown.
    Reading [req.file.buffer] of a request without a file throws a
    [TypeError]. *)
Definition pipeline (req : Server.Request) (c : Server.VoiceConfig)
    : list (list byte) + string :=
  let isTestMode :=
    match Server.req_body req !! "testMode" with
    | Some (Str s) => String.eqb s "true"
    | _ => false
    end in
  let message := Server.req_body req !! "message" in
  let language := text_of (Server.language c) in
  let userText :=
    if isTestMode && Server.truthy_field message then
      match message with
      | Some m => Resolves (text_of m)
      | None => Resolves ""%string
      end
    else
      match Server.req_file req with
      | Some file =>
          transcribe (Server.buffer file) (Some (Server.mimetype file))
            (Some (Server.originalname file)) (Some language)
      | None => Rejects TypeError_message
      end in
  let audioStream :=
    await userText
      (fun userText =>
         let assistantText :=
           if isTestMode then Resolves userText
           else
             generateResponse userText
               {| opt_systemPrompt := Some (text_of (Server.systemPrompt c));
                  opt_temperature := Some (Server.temperature c);
                  opt_maxTokens := None;
                  opt_aiLanguage := Some language |} in
         await assistantText (fun assistantText => synthesize assistantText (ttsOptions c))) in
  match audioStream with
  | Resolves audioStream => inl audioStream
  | Rejects message => inr message
  end.

(** The handler with its services in place. *)
Definition voice_process (firebaseSettings : Server.FirebaseSettings) (req : Server.Request)
    : HttpResponse :=
  Server.voice_process pipeline getContentType firebaseSettings req.

(** *** [/api/admin/auth]; [password] is [req.body.password] when it is a
    string *)
Definition admin_auth (password : option string) : AuthReply :=
  if negb (truthy_string (Some (adminPassword cfg))) then
    {| auth_status := 500; auth_ok := false;
       auth_error := Some "ADMIN_PASSWORD not set on server"%string |}
  else if truthy_string password
          && match password with
             | Some p => String.eqb p (adminPassword cfg)
             | None => false
             end then
    {| auth_status := 200; auth_ok := true; auth_error := None |}
  else
    {| auth_status := 401; auth_ok := false; auth_error := Some "Invalid password"%string |}.

End WithRuntime.

End Services.

Module SessionSpec.

Import JS Types Dom Playback Hook.
Open Scope Q_scope.

(** What lies outside the VAD loop: playback, the network, the tracks,
    the timers, the references to the microphone and to the graph, and
    the connection, error and level cells. *)
Definition outside_vad (h h' : Hook) : Prop :=
  audios (browser h') = audios (browser h) /\
  fetches (browser h') = fetches (browser h) /\
  tracks (browser h') = tracks (browser h) /\
  animationFrames (browser h') = animationFrames (browser h) /\
  intervals (browser h') = intervals (browser h) /\
  activeAudioRef h' = activeAudioRef h /\
  mediaStreamRef h' = mediaStreamRef h /\
  processedStreamRef h' = processedStreamRef h /\
  audioContextRef h' = audioContextRef h /\
  analyserRef h' = analyserRef h /\
  gateGainRef h' = gateGainRef h /\
  preGainRef h' = preGainRef h /\
  rafRef h' = rafRef h /\
  vadIntervalRef h' = vadIntervalRef h /\
  connectionState h' = connectionState h /\
  error h' = error h /\
  audioLevel h' = audioLevel h.

(** Every recorder that is not inactive is the one [recorderRef] holds. *)
Definition one_recorder (h : Hook) : Prop :=
  forall id r,
    recorders (browser h) !! id = Some r -> rec_state r <> inactive ->
    recorderRef h = Some id.

(** No recorder is left recording or paused. *)
Definition no_recorder_active (b : Browser) : Prop :=
  forall id r, recorders b !! id = Some r -> rec_state r = inactive.

(** Two browsers that differ in their audio elements at most. *)
Definition only_audios (b b' : Browser) : Prop :=
  animationFrames b' = animationFrames b /\
  intervals b' = intervals b /\
  tracks b' = tracks b /\
  recorders b' = recorders b /\
  gainParams b' = gainParams b /\
  fetches b' = fetches b /\
  opusSupported b' = opusSupported b.

(** The bytes a [dataavailable] event carries. *)
Definition data_bytes (data : option Blob) : list byte :=
  match data with
  | Some d => blob_bytes d
  | None => []
  end.

(** [activeAudioRef], when set, refers to an element of the page. *)
Definition audio_ref_valid (h : Hook) : Prop :=
  match activeAudioRef h with
  | Some id => is_Some (audios (browser h) !! id)
  | None => True
  end.

(** The element after [play()] with the muted retry of [fallbackToBlob]:
    playing, or, when both attempts are rejected, left muted. *)
Definition after_play (w : Window) (a : HTMLAudioElement) : HTMLAudioElement :=
  if play_rejects w (muted a) then
    if play_rejects w true then with_muted true a else with_paused false a
  else with_paused false a.

(** The whole body of a reply as the blob [resp.blob()] gives. *)
Definition reply_blob (resp : HttpResponse) : Blob :=
  Blob_of_chunks (body_chunks resp) (content_type resp).

End SessionSpec.

Module ServerSpec.

Import JS Types Services.

(** The words by which the [catch] of the handler tells the stages apart. *)
Definition stage_keywords : list string := ["Whisper"; "transcription"; "GPT"; "LLM"; "TTS"].

Definition mentions_stage (message : string) : bool :=
  existsb (includes message) stage_keywords.

(** The [error] text of the reply to a thrown message. *)
Definition stage (message : string) : string :=
  match payload (Server.error_reply message) with
  | Json error _ => error
  | _ => ""
  end.

(** The texts a provider's answer carries: the message of a failed
    [fetch], the text of the reply, the message of a failed [json()]. *)
Definition upstream_texts {A : Type} (outcome : Promise (Response A)) : list string :=
  match outcome with
  | Rejects m => [m]
  | Resolves r =>
      match response_text r with Resolves s => [s] | Rejects m => [m] end
      ++ match response_json r with Resolves _ => [] | Rejects m => [m] end
  end.

Definition keyword_free {A : Type} (outcome : Promise (Response A)) : Prop :=
  Forall (fun m => mentions_stage m = false) (upstream_texts outcome).

(** The exchange itself failed with [message]: [fetch], [text()] or
    [json()] rejected. *)
Definition exchange_error {A : Type} (outcome : Promise (Response A)) (message : string)
    : Prop :=
  outcome = Rejects message \/
  exists r, outcome = Resolves r /\
            (response_text r = Rejects message \/ response_json r = Rejects message).

(** [prefix kw (p +:+ e)] and [includes (p +:+ e) kw], by recursion on a
    known beginning [p] of the text. *)
Fixpoint prefix_lit (kw p e : string) : bool :=
  match kw with
  | EmptyString => true
  | String a k =>
      match p with
      | EmptyString => String.prefix kw e
      | String b p' => if Ascii.eqb a b then prefix_lit k p' e else false
      end
  end.

Fixpoint includes_lit (p kw e : string) : bool :=
  match p with
  | EmptyString => includes e kw
  | String _ p' => prefix_lit kw p e || includes_lit p' kw e
  end.

(** [req.body.testMode === 'true'] *)
Definition isTestMode (req : Server.Request) : bool :=
  match Server.req_body req !! "testMode" with
  | Some (Str s) => String.eqb s "true"
  | _ => false
  end.

(** [!req.file] *)
Definition req_file_missing (req : Server.Request) : bool :=
  negb (bool_decide (is_Some (Server.req_file req))).

(** The provider [synthesize] dispatches on. *)
Definition activeProvider (cfg : Cfg) (options : TtsOptions) : string :=
  string_or (Some (default_to (providers_TTS cfg) (opt_provider options))) (providers_TTS cfg).

(** Two sets of providers with the same text-to-speech endpoints. *)
Definition same_tts (p1 p2 : Providers) : Prop :=
  openai_speech p1 = openai_speech p2 /\
  coqui_tts p1 = coqui_tts p2 /\
  piper_tts p1 = piper_tts p2.

(** Providers that are unreachable: every [fetch] rejects. *)
Definition unreachable : Providers :=
  {| openai_transcriptions := fun _ => Rejects "fetch failed";
     openai_chat := fun _ => Rejects "fetch failed";
     ollama_generate := fun _ => Rejects "fetch failed";
     local_chat := fun _ => Rejects "fetch failed";
     openai_speech := fun _ => Rejects "fetch failed";
     coqui_tts := fun _ => Rejects "fetch failed";
     piper_tts := fun _ => Rejects "fetch failed" |}.

(** Providers that answer: a transcript, a chat reply, two chunks of audio. *)
Definition answering : Providers :=
  let audio : Promise (Response unit) :=
    Resolves {| response_ok := true; response_text := Resolves ""%string;
                response_json := Rejects "Unexpected token"%string;
                response_body := Some [[x49; x44]; [x33]] |} in
  let chat : Promise (Response (option string)) :=
    Resolves {| response_ok := true; response_text := Resolves ""%string;
                response_json := Resolves (Some "Hallo!"%string);
                response_body := None |} in
  {| openai_transcriptions := fun _ =>
       Resolves {| response_ok := true; response_text := Resolves ""%string;
                   response_json :=
                     Resolves (Some {| data_text := Some "Guten Tag"%string;
                                       data_transcription := None; data_data := None |});
                   response_body := None |};
     openai_chat := fun _ => chat;
     ollama_generate := fun _ => chat;
     local_chat := fun _ => chat;
     openai_speech := fun _ => audio;
     coqui_tts := fun _ => audio;
     piper_tts := fun _ => audio |}.

(** The configuration of an environment with an API key and an admin
    password, everything else left to its default. *)
Definition env0 : Env :=
  {| ADMIN_PASSWORD := Some "geheim"%string; OPENAI_API_KEY := Some "sk-test"%string;
     LLM_PROVIDER := None; STT_PROVIDER := None; TTS_PROVIDER := None;
     LLM_MODEL := None; TTS_MODEL := None; STT_MODEL := None; ALLOWED_VOICES := None |}.

Definition cfg0 : Cfg := cfg_of (fun s => s) env0.

(** The same without an API key. *)
Definition cfg_nokey : Cfg :=
  cfg_of (fun s => s)
    {| ADMIN_PASSWORD := None; OPENAI_API_KEY := None;
       LLM_PROVIDER := None; STT_PROVIDER := None; TTS_PROVIDER := None;
       LLM_MODEL := None; TTS_MODEL := None; STT_MODEL := None; ALLOWED_VOICES := None |}.

(** A request of the developer console's voice test. *)
Definition test_request : Server.Request :=
  {| Server.req_body := <["testMode" := Str "true"]> (<["message" := Str "Hallo"]> ∅);
     Server.req_file := None |}.

(** An upload of the hook from the home route. *)
Definition home_request : Server.Request :=
  Server.multipart
    (Hook.build_form false Examples.DEFAULT_CONFIG
       {| blob_bytes := [x1a; x45; xdf; xa3]; blob_type := "audio/webm;codecs=opus" |}).

(** The message of V8 for [req.file.buffer] without a file. *)
Definition undefined_buffer : string :=
  "Cannot read properties of undefined (reading 'buffer')".

End ServerSpec.

(** * Properties *)

Set Warnings "-clear-no-such-hyp".

(** ** Facts about the JavaScript helpers *)

Module JSFacts.

Import JS.
Open Scope Q_scope.

Lemma gt_true a b : gt a b = true <-> b < a.
Proof.
  unfold gt. rewrite negb_true_iff, <- not_true_iff_false, Qle_bool_iff.
  split; [apply Qnot_le_lt | apply Qlt_not_le].
Qed.

Lemma gt_false a b : gt a b = false <-> a <= b.
Proof. unfold gt. rewrite negb_false_iff. apply Qle_bool_iff. Qed.

Lemma ge_true a b : ge a b = true <-> b <= a.
Proof. apply Qle_bool_iff. Qed.

Lemma ge_false a b : ge a b = false <-> a < b.
Proof.
  unfold ge. rewrite <- not_true_iff_false, Qle_bool_iff.
  split; [apply Qnot_le_lt | apply Qlt_not_le].
Qed.

Lemma Math_round_mono x y : x <= y -> (Math_round x <= Math_round y)%Z.
Proof. intros H. apply Qfloor_resp_le. lra. Qed.

Lemma Math_round_comp x y : x == y -> Math_round x = Math_round y.
Proof. intros H. apply Qfloor_comp. rewrite H. reflexivity. Qed.

Lemma Math_round_Z (z : Z) : Math_round (inject_Z z) = z.
Proof.
  unfold Math_round.
  assert (Hlo : (z <= Qfloor (inject_Z z + (1 # 2)))%Z).
  { rewrite <- (Qfloor_Z z) at 1. apply Qfloor_resp_le. lra. }
  assert (Hhi : (Qfloor (inject_Z z + (1 # 2)) < z + 1)%Z).
  { rewrite Zlt_Qlt. eapply Qle_lt_trans; [apply Qfloor_le |].
    rewrite inject_Z_plus. change (inject_Z 1) with 1. lra. }
  lia.
Qed.

End JSFacts.

(** ** Binary64 arithmetic *)

Module Binary64Props.

Import Binary64.
Open Scope Q_scope.

(** *** The operations agree with the binary64 numbers of the kernel *)

Lemma literals_agree :
  literal 0.01 = KernelFloat.of_float KernelFloat.floor_initial /\
  literal 10000000000000000 = KernelFloat.of_float KernelFloat.floor_huge /\
  literal 0.3 = KernelFloat.of_float KernelFloat.slider_03 /\
  literal 0.02 = Finite (5764607523034235 # 288230376151711744) /\
  literal 0.06 = Finite (1080863910568919 # 18014398509481984) /\
  literal 0.5 = Finite (1 # 2).
Proof. vm_compute. repeat split. Qed.

(** The thresholds computed with [add] and [mul] are those the kernel
    computes with its own addition and multiplication, at the initial and
    at a huge noise floor, for three positions of the slider. *)
Lemma thresholds_agree :
  let margin thr := add (literal 0.02) (mul (literal 0.06) thr) in
  let onThresh nf thr := add nf (margin thr) in
  let offThresh nf thr := add nf (mul (margin thr) (literal 0.5)) in
  Forall (fun '(nf, thr) =>
            onThresh (KernelFloat.of_float nf) (KernelFloat.of_float thr)
            = KernelFloat.of_float (KernelFloat.onThresh nf thr) /\
            offThresh (KernelFloat.of_float nf) (KernelFloat.of_float thr)
            = KernelFloat.of_float (KernelFloat.offThresh nf thr))
    [ (KernelFloat.floor_initial, KernelFloat.slider_0);
      (KernelFloat.floor_initial, KernelFloat.slider_03);
      (KernelFloat.floor_initial, KernelFloat.slider_1);
      (KernelFloat.floor_huge, KernelFloat.slider_0);
      (KernelFloat.floor_huge, KernelFloat.slider_1) ].
Proof. cbv zeta. repeat constructor; vm_compute; reflexivity. Qed.

(** The largest finite number, the first result that overflows, and the
    smallest positive number with the tie below it. *)
Lemma range_ends :
  of_Q (2 ^ 1024 - 2 ^ 971) = Finite (Qred (2 ^ 1024 - 2 ^ 971)) /\
  of_Q (2 ^ 1024 - 2 ^ 970) = Infinity false /\
  of_Q (2 ^ (-1074)) = Finite (Qred (2 ^ (-1074))) /\
  of_Q (2 ^ (-1075)) = Finite 0.
Proof. vm_compute. repeat split. Qed.

(** *** The error of one rounding *)

Lemma nearest_even_error t : Qabs (inject_Z (nearest_even t) - t) <= 1 # 2.
Proof.
  unfold nearest_even.
  pose proof (Qfloor_le t) as Hlo. pose proof (Qlt_floor t) as Hhi.
  rewrite inject_Z_plus in Hhi. change (inject_Z 1) with 1 in Hhi.
  apply Qabs_Qle_condition.
  destruct (Qcompare (t - inject_Z (Qfloor t)) (1 # 2)) eqn:Hc.
  - apply Qeq_alt in Hc.
    destruct (Z.even (Qfloor t)); rewrite ?inject_Z_plus; change (inject_Z 1) with 1;
      split; lra.
  - apply Qlt_alt in Hc. split; lra.
  - apply Qgt_alt in Hc. rewrite inject_Z_plus. change (inject_Z 1) with 1. split; lra.
Qed.

Lemma pow2_pos e : 0 < 2 ^ e.
Proof. apply Qpower_0_lt. reflexivity. Qed.

Lemma pow2_plus a b : 2 ^ (a + b) == 2 ^ a * 2 ^ b.
Proof. apply Qpower_plus. discriminate. Qed.

Lemma pow2_log2_le (n : Z) : (0 < n)%Z -> 2 ^ Z.log2 n <= inject_Z n.
Proof.
  intros Hn. pose proof (Z.log2_spec n Hn) as [Hlo _].
  rewrite <- (Zpower_Qpower 2) by apply Z.log2_nonneg.
  now rewrite <- Zle_Qle.
Qed.

Lemma pow2_log2_lt (n : Z) : (0 < n)%Z -> inject_Z n < 2 ^ (Z.log2 n + 1).
Proof.
  intros Hn. pose proof (Z.log2_spec n Hn) as [_ Hhi].
  rewrite <- (Zpower_Qpower 2) by (pose proof (Z.log2_nonneg n); lia).
  rewrite <- Zlt_Qlt. now rewrite Z.add_1_r.
Qed.

Lemma ilog2_spec x : 0 < x -> 2 ^ ilog2 x <= x /\ x < 2 ^ (ilog2 x + 1).
Proof.
  intros Hx. unfold ilog2.
  destruct x as [n d]. cbn [Qnum Qden].
  assert (Hn : (0 < n)%Z).
  { unfold Qlt in Hx. cbn in Hx. lia. }
  set (a := Z.log2 n). set (b := Z.log2 (Z.pos d)).
  pose proof (pow2_log2_le n Hn) as Ha1. pose proof (pow2_log2_lt n Hn) as Ha2.
  pose proof (pow2_log2_le (Z.pos d) eq_refl) as Hb1.
  pose proof (pow2_log2_lt (Z.pos d) eq_refl) as Hb2.
  fold a in Ha1, Ha2. fold b in Hb1, Hb2.
  assert (Hd : 0 < inject_Z (Z.pos d)) by reflexivity.
  assert (Hx' : n # d == inject_Z n / inject_Z (Z.pos d)) by apply Qmake_Qdiv.
  assert (Hmul : (n # d) * inject_Z (Z.pos d) == inject_Z n).
  { rewrite Hx'. field. lra. }
  pose proof (pow2_pos b) as Pb. pose proof (pow2_pos (a - b)) as Pk.
  pose proof (pow2_pos (a - b - 1)) as Pk1.
  assert (E1 : 2 ^ a == 2 ^ (a - b) * 2 ^ b).
  { rewrite <- pow2_plus. now replace (a - b + b)%Z with a by lia. }
  assert (E2 : 2 ^ (a - b) == 2 ^ (a - b - 1) * 2).
  { change 2 with (2 ^ 1) at 3. rewrite <- pow2_plus.
    now replace (a - b - 1 + 1)%Z with (a - b)%Z by lia. }
  assert (E3 : 2 ^ (b + 1) == 2 ^ b * 2).
  { rewrite pow2_plus. reflexivity. }
  assert (E4 : 2 ^ (a + 1) == 2 ^ a * 2).
  { rewrite pow2_plus. reflexivity. }
  assert (E5 : 2 ^ (a - b + 1) == 2 ^ (a - b) * 2).
  { rewrite pow2_plus. reflexivity. }
  destruct (Qle_bool (2 ^ (a - b)) (n # d)) eqn:Ht.
  - apply Qle_bool_iff in Ht. split; [exact Ht|].
    (* x * d = n < 2^(a+1) = 2^(a-b+1) * 2^b <= 2^(a-b+1) * d *)
    apply Qnot_le_lt. intros Hle.
    assert (H1 : 2 ^ (a - b + 1) * inject_Z (Z.pos d) <= (n # d) * inject_Z (Z.pos d)).
    { apply Qmult_le_compat_r; [exact Hle|lra]. }
    assert (H2 : 2 ^ (a - b + 1) * 2 ^ b <= 2 ^ (a - b + 1) * inject_Z (Z.pos d)).
    { rewrite !(Qmult_comm (2 ^ (a - b + 1))).
      apply Qmult_le_compat_r; [exact Hb1|]. pose proof (pow2_pos (a - b + 1)). lra. }
    rewrite Hmul in H1. rewrite E5 in H1, H2. rewrite E4 in Ha2.
    assert (H3 : 2 ^ (a - b) * 2 * 2 ^ b == 2 ^ a * 2) by (rewrite E1; ring).
    lra.
  - assert (Hlt : n # d < 2 ^ (a - b)).
    { apply Qnot_le_lt. intros Hle. apply Qle_bool_iff in Hle. congruence. }
    replace (a - b - 1 + 1)%Z with (a - b)%Z by lia.
    split; [|exact Hlt].
    (* 2^(a-b-1) * d < 2^(a-b-1) * 2^(b+1) = 2^a <= n = x * d *)
    apply Qnot_lt_le. intros Hgt.
    assert (H1 : (n # d) * inject_Z (Z.pos d) < 2 ^ (a - b - 1) * inject_Z (Z.pos d)).
    { apply Qmult_lt_compat_r; [lra|exact Hgt]. }
    assert (H2 : 2 ^ (a - b - 1) * inject_Z (Z.pos d) <= 2 ^ (a - b - 1) * 2 ^ (b + 1)).
    { rewrite !(Qmult_comm (2 ^ (a - b - 1))).
      apply Qmult_le_compat_r; lra. }
    rewrite Hmul in H1. rewrite E3 in H2.
    assert (H3 : 2 ^ (a - b - 1) * (2 ^ b * 2) == 2 ^ a) by (rewrite E1, E2; ring).
    lra.
Qed.

Lemma round_error x : Qabs (round x - x) <= u * Qabs x + eta.
Proof.
  unfold round. destruct (Qeq_bool x 0) eqn:Hz.
  - apply Qeq_bool_iff in Hz. rewrite Hz. vm_compute. discriminate.
  - assert (Hx : ~ x == 0).
    { intros H. apply Qeq_bool_iff in H. congruence. }
    cbv zeta. rewrite Qred_correct.
    set (e := ulp_exponent x).
    pose proof (pow2_pos e) as Pe.
    pose proof (nearest_even_error (x / 2 ^ e)) as Hn.
    set (z := inject_Z (nearest_even (x / 2 ^ e))) in *.
    assert (Hd : z * 2 ^ e - x == (z - x / 2 ^ e) * 2 ^ e) by (field; lra).
    rewrite Hd, Qabs_Qmult, (Qabs_pos (2 ^ e)) by lra.
    assert (Hb : Qabs (z - x / 2 ^ e) * 2 ^ e <= (1 # 2) * 2 ^ e).
    { apply Qmult_le_compat_r; [exact Hn|lra]. }
    assert (Hax : 0 < Qabs x).
    { destruct (Q_dec x 0) as [[Hlt|Hgt]|Heq]; [| |contradiction].
      - rewrite Qabs_neg; lra.
      - rewrite Qabs_pos; lra. }
    destruct (ilog2_spec (Qabs x) Hax) as [Hl _].
    set (l := ilog2 (Qabs x)) in *.
    assert (Hu : 0 < u) by reflexivity.
    assert (Heta : 0 < eta) by reflexivity.
    assert (Hux : u * 2 ^ l <= u * Qabs x).
    { rewrite !(Qmult_comm u). apply Qmult_le_compat_r; lra. }
    clear Hd Hn. subst e. unfold ulp_exponent in *. fold l in Hb, Pe |- *.
    destruct (Z.max_spec (l - 52) (-1074)) as [[_ Hm]|[_ Hm]]; rewrite Hm in *.
    + assert (E : (1 # 2) * 2 ^ (-1074) == eta) by reflexivity.
      assert (0 <= u * Qabs x) by (apply Qmult_le_0_compat; lra).
      lra.
    + assert (E : (1 # 2) * 2 ^ (l - 52) == u * 2 ^ l).
      { replace (l - 52)%Z with (l + -52)%Z by lia. rewrite pow2_plus.
        unfold u. change (2 ^ (-53)) with ((1 # 2) * 2 ^ (-52)). ring. }
      lra.
Qed.


(** The error of one rounding of a result that is not negative. *)
Lemma round_bounds x :
  0 <= x ->
  x - (u * x + eta) <= round x /\ round x <= x + (u * x + eta).
Proof.
  intros Hx. pose proof (round_error x) as H.
  rewrite (Qabs_pos x) in H by exact Hx.
  apply Qabs_Qle_condition in H. split; lra.
Qed.

Lemma of_Q_finite x :
  0 <= x -> x <= 2 ^ 1000 -> of_Q x = Finite (round x).
Proof.
  intros H0 H1. unfold of_Q.
  destruct (round_bounds x H0) as [Hlo Hhi].
  destruct (Qle_bool (2 ^ 1024) (Qabs (round x))) eqn:Ht; [|reflexivity].
  exfalso. apply Qle_bool_iff in Ht.
  assert (Hu : u == 1 # 9007199254740992) by reflexivity.
  assert (He : eta <= 1) by (apply Qle_bool_iff; vm_compute; reflexivity).
  assert (He0 : 0 <= eta) by (apply Qle_bool_iff; vm_compute; reflexivity).
  assert (Hc : 2 * 2 ^ 1000 + 1 < 2 ^ 1024) by (apply Qlt_alt; vm_compute; reflexivity).
  set (B := 2 ^ 1000) in *. set (C := 2 ^ 1024) in *. clearbody B C.
  assert (Hb : Qabs (round x) <= 2 * B + 1).
  { apply Qabs_Qle_condition. rewrite Hu in *. split; lra. }
  lra.
Qed.

End Binary64Props.

(** ** AudioLevelAnalyzer *)

Module AudioLevelProps.

Import JS JSFacts AudioLevel.
Open Scope Q_scope.

(** The window the analyser hands out has [fftSize] samples. *)
Lemma getByteTimeDomainData_length a n : length (getByteTimeDomainData a n) = n.
Proof.
  unfold getByteTimeDomainData.
  rewrite length_take, length_app, length_replicate. lia.
Qed.

(** Loop invariant: having summed the samples before index [length pre],
    the remaining iterations add the squares of the remaining samples. *)
Lemma sumSquares_loop_fold (l pre : list Z) (acc : Q) :
  sumSquares_loop (pre ++ l) (length l) (length pre) acc
  = fold_left Qplus (map normalised_square l) acc.
Proof.
  revert pre acc. induction l as [|x l IH]; intros pre acc; [reflexivity|].
  cbn [length sumSquares_loop map fold_left].
  replace (nth (length pre) (pre ++ x :: l) 0%Z) with x
    by (symmetry; apply nth_middle).
  specialize (IH (pre ++ [x]) (acc + (inject_Z x - 128) / 128 * ((inject_Z x - 128) / 128))).
  rewrite <- app_assoc, length_app in IH. cbn [length app] in IH.
  replace (length pre + 1)%nat with (S (length pre)) in IH by lia.
  exact IH.
Qed.

Lemma sumSquares_loop_window (l : list Z) :
  sumSquares_loop l (length l) 0 0 = Qsum (map normalised_square l).
Proof. exact (sumSquares_loop_fold l [] 0). Qed.

(** Clamping before or after rounding gives the same level. *)
Lemma level_of_rms_spec (x : Q) : level_of_rms x = display_level_spec x.
Proof.
  unfold level_of_rms, display_level_spec, clamp.
  set (y := x * 255).
  assert (H0 : Math_round 0 = 0%Z) by exact (Math_round_Z 0).
  assert (H255 : Math_round 255 = 255%Z) by exact (Math_round_Z 255).
  destruct (Qlt_le_dec y 0) as [Hneg | Hpos].
  - (* below the range *)
    assert (Hr : (Math_round y <= 0)%Z)
      by (rewrite <- H0; apply Math_round_mono; lra).
    rewrite (Math_round_comp (Qmax 0 (Qmin 255 y)) 0).
    + lia.
    + rewrite Q.max_l; [reflexivity|].
      apply Q.min_le_iff. right. lra.
  - destruct (Qlt_le_dec 255 y) as [Hbig | Hin].
    + (* above the range *)
      assert (Hr : (255 <= Math_round y)%Z)
        by (rewrite <- H255; apply Math_round_mono; lra).
      rewrite (Math_round_comp (Qmax 0 (Qmin 255 y)) 255).
      * lia.
      * rewrite Q.min_l by lra. rewrite Q.max_r by lra. reflexivity.
    + (* inside *)
      assert (Hlo : (0 <= Math_round y)%Z)
        by (rewrite <- H0; apply Math_round_mono; lra).
      assert (Hhi : (Math_round y <= 255)%Z)
        by (rewrite <- H255; apply Math_round_mono; lra).
      rewrite (Math_round_comp (Qmax 0 (Qmin 255 y)) y).
      * lia.
      * rewrite Q.min_r by lra. rewrite Q.max_r by lra. reflexivity.
Qed.

Lemma level_of_rms_mono (x y : Q) : x <= y -> (level_of_rms x <= level_of_rms y)%Z.
Proof.
  intros H. unfold level_of_rms.
  assert (Hr : (Math_round (x * 255) <= Math_round (y * 255))%Z)
    by (apply Math_round_mono; lra).
  lia.
Qed.

Lemma level_of_rms_range (x : Q) : (0 <= level_of_rms x <= 255)%Z.
Proof. unfold level_of_rms. lia. Qed.

(** C7. For every analyser window of byte samples the returned [rms] is
    [sqrt(mean(((sample - 128) / 128)^2))] over that window, and the
    returned level, which the monitor loop displays, is
    [round(clamp(rms * 255, 0, 255))]; as a function of [rms] the level is
    monotonic non-decreasing (on [[0,1]] and beyond) and always an integer
    between [0] and [255]. *)
Theorem C7_rms_and_display_level (Math_sqrt : Q -> Q) (analyser : AnalyserNode) :
  let window := getByteTimeDomainData analyser (fftSize analyser) in
  let r := computeAudioLevelAndVad Math_sqrt (Some analyser) in
  rms r = Math_sqrt (mean (map normalised_square window)) /\
  level r = display_level_spec (rms r) /\
  (forall h : Hook.Hook, Hook.analyserRef h = Some analyser ->
     Hook.audioLevel (Hook.monitorAudio_tick Math_sqrt h) = display_level_spec (rms r)) /\
  (forall x y : Q, 0 <= x -> x <= y -> y <= 1 ->
     (level_of_rms x <= level_of_rms y)%Z) /\
  (forall x : Q, 0 <= x -> x <= 1 -> (0 <= level_of_rms x <= 255)%Z).
Proof.
  intros window r. subst r. cbn [computeAudioLevelAndVad rms level].
  fold window.
  assert (Hlen : length window = fftSize analyser)
    by apply getByteTimeDomainData_length.
  split; [|split; [|split; [|split]]].
  - unfold mean. rewrite length_map, Hlen.
    rewrite <- Hlen at 1. rewrite sumSquares_loop_window. reflexivity.
  - apply level_of_rms_spec.
  - intros h Ha. unfold Hook.monitorAudio_tick. rewrite Ha.
    cbn [Hook.audioLevel Dom.requestAnimationFrame computeAudioLevelAndVad level].
    apply level_of_rms_spec.
  - intros x y _ Hxy _. now apply level_of_rms_mono.
  - intros x _ _. apply level_of_rms_range.
Qed.

Lemma C7_witness :
  level (computeAudioLevelAndVad Examples.sqrt6 (Some Examples.analyser4))
  = display_level_spec (rms (computeAudioLevelAndVad Examples.sqrt6 (Some Examples.analyser4))) /\
  (level_of_rms 0.1 <= level_of_rms 0.9)%Z /\
  (0 <= level_of_rms 0.5 <= 255)%Z.
Proof.
  destruct (C7_rms_and_display_level Examples.sqrt6 Examples.analyser4)
    as (_ & Hlevel & _ & Hmono & Hrange).
  split; [exact Hlevel|]. split.
  - apply Hmono; apply Qle_bool_imp_le; reflexivity.
  - apply Hrange; apply Qle_bool_imp_le; reflexivity.
Defined.

End AudioLevelProps.

(** ** AdaptiveVAD *)

Module VadProps.

Import JS JSFacts Types Dom Hook VadSpec.
Open Scope Q_scope.

Ltac refs_cbn :=
  cbn -[Qplus Qmult Qminus Qdiv Qopp Qle_bool Qeq_bool gt ge fresh] in *.

(** *** The recorder calls and the gate leave the VAD cells alone *)

Lemma startRecorder_refs h :
  noiseFloorRef (startRecorder h) = noiseFloorRef h /\
  vadVoiceStateRef (startRecorder h) = vadVoiceStateRef h /\
  speakingRef (startRecorder h) = speakingRef h /\
  lastVoiceMsRef (startRecorder h) = lastVoiceMsRef h.
Proof.
  unfold startRecorder.
  destruct (mediaStreamRef h) eqn:Hm; [|easy].
  destruct (recorder_not_inactive h); [easy|].
  refs_cbn. rewrite Hm. destruct (processedStreamRef h); easy.
Qed.

Lemma stopRecorder_refs h :
  noiseFloorRef (stopRecorder h) = noiseFloorRef h /\
  vadVoiceStateRef (stopRecorder h) = vadVoiceStateRef h /\
  speakingRef (stopRecorder h) = speakingRef h /\
  lastVoiceMsRef (stopRecorder h) = lastVoiceMsRef h /\
  chunksRef (stopRecorder h) = chunksRef h /\
  recorderRef (stopRecorder h) = recorderRef h.
Proof.
  unfold stopRecorder.
  destruct (recorderRef h) eqn:Hr; [|now rewrite Hr].
  destruct (recorder_not_inactive h); refs_cbn; now rewrite Hr.
Qed.

Lemma gate_to_refs tgt tc h :
  noiseFloorRef (gate_to tgt tc h) = noiseFloorRef h /\
  vadVoiceStateRef (gate_to tgt tc h) = vadVoiceStateRef h /\
  speakingRef (gate_to tgt tc h) = speakingRef h /\
  lastVoiceMsRef (gate_to tgt tc h) = lastVoiceMsRef h /\
  chunksRef (gate_to tgt tc h) = chunksRef h /\
  recorderRef (gate_to tgt tc h) = recorderRef h /\
  recorders (browser (gate_to tgt tc h)) = recorders (browser h).
Proof.
  unfold gate_to.
  destruct (gateGainRef h); [|easy].
  destruct (audioContextRef h); easy.
Qed.

(** *** What one tick does to the VAD cells *)

Lemma vadTick_cells config rms now h :
  let h' := vadTick config rms now h in
  noiseFloorRef h' = nextNoiseFloor rms h /\
  lastVoiceMsRef h' = (if isVoice config rms h then now else lastVoiceMsRef h) /\
  speakingRef h' =
    (if isVoice config rms h then true
     else if speakingRef h then negb (silenceElapsed config now h) else false) /\
  vadVoiceStateRef h' =
    (if isVoice config rms h then (if speakingRef h then vadVoiceStateRef h else true)
     else if speakingRef h
          then (if silenceElapsed config now h then false else vadVoiceStateRef h)
          else vadVoiceStateRef h).
Proof.
  unfold vadTick, isVoice, nextNoiseFloor, silenceElapsed.
  destruct (vadVoiceStateRef h) eqn:Hv; refs_cbn; rewrite ?Hv.
  - destruct (gt rms _) eqn:Hg.
    + pose proof (gate_to_refs 1.0 0.015 (set_lastVoiceMsRef now h)) as G.
      refs_cbn. destruct G as (G1 & G2 & G3 & G4 & _).
      rewrite G3. destruct (speakingRef h) eqn:Hs; refs_cbn.
      * rewrite G1, G2, G3, G4, Hv. easy.
      * match goal with |- context [startRecorder ?x] =>
          pose proof (startRecorder_refs x) as (S1 & S2 & S3 & S4) end.
        refs_cbn. rewrite S1, S2, S3, S4, G1, G4. easy.
    + destruct (speakingRef h) eqn:Hs.
      * destruct (ge _ _) eqn:He.
        -- match goal with |- context [gate_to ?a ?b ?x] =>
             pose proof (gate_to_refs a b x) as (G1 & G2 & G3 & G4 & _) end.
           rewrite G1, G2, G3, G4.
           match goal with |- context [stopRecorder ?x] =>
             pose proof (stopRecorder_refs x) as (S1 & S2 & S3 & S4 & _) end.
           rewrite S1, S2, S3, S4. easy.
        -- pose proof (gate_to_refs 0.04 0.08 h) as (G1 & G2 & G3 & G4 & _).
           rewrite G1, G2, G3, G4, Hv, Hs. easy.
      * pose proof (gate_to_refs 0.04 0.08 h) as (G1 & G2 & G3 & G4 & _).
        rewrite G1, G2, G3, G4, Hv, Hs. easy.
  - destruct (gt rms _) eqn:Hg.
    + match goal with |- context [gate_to ?a ?b ?x] =>
        pose proof (gate_to_refs a b x) as G end.
      refs_cbn. destruct G as (G1 & G2 & G3 & G4 & _).
      rewrite G3. destruct (speakingRef h) eqn:Hs; refs_cbn.
      * rewrite G1, G2, G3, G4. easy.
      * match goal with |- context [startRecorder ?x] =>
          pose proof (startRecorder_refs x) as (S1 & S2 & S3 & S4) end.
        refs_cbn. rewrite S1, S2, S3, S4, G1, G4. easy.
    + destruct (speakingRef h) eqn:Hs.
      * destruct (ge _ _) eqn:He.
        -- match goal with |- context [gate_to ?a ?b ?x] =>
             pose proof (gate_to_refs a b x) as (G1 & G2 & G3 & G4 & _) end.
           rewrite G1, G2, G3, G4.
           match goal with |- context [stopRecorder ?x] =>
             pose proof (stopRecorder_refs x) as (S1 & S2 & S3 & S4 & _) end.
           rewrite S1, S2, S3, S4. easy.
        -- match goal with |- context [gate_to ?a ?b ?x] =>
             pose proof (gate_to_refs a b x) as (G1 & G2 & G3 & G4 & _) end.
           rewrite G1, G2, G3, G4. refs_cbn. rewrite Hs. easy.
      * match goal with |- context [gate_to ?a ?b ?x] =>
          pose proof (gate_to_refs a b x) as (G1 & G2 & G3 & G4 & _) end.
        rewrite G1, G2, G3, G4. refs_cbn. rewrite Hs. easy.
Qed.

(** *** The recorder under a tick *)

Lemma stopRecorder_inactive h : recorder_not_inactive (stopRecorder h) = false.
Proof.
  unfold stopRecorder.
  destruct (recorderRef h) as [id|] eqn:Hr.
  - destruct (recorder_not_inactive h) eqn:Ha; [|exact Ha].
    unfold recorder_not_inactive in *. refs_cbn. rewrite Hr in *.
    unfold MediaRecorder_stop.
    destruct (recorders (browser h) !! id) as [r|] eqn:Hl; [|discriminate].
    destruct (rec_state r); [discriminate| |]; refs_cbn;
      now rewrite lookup_insert_eq.
  - unfold recorder_not_inactive. now rewrite Hr.
Qed.

Lemma gate_to_recorder tgt tc h :
  recorder_not_inactive (gate_to tgt tc h) = recorder_not_inactive h.
Proof.
  pose proof (gate_to_refs tgt tc h) as (_ & _ & _ & _ & _ & Hr & Hb).
  unfold recorder_not_inactive. now rewrite Hr, Hb.
Qed.

(** A tick that starts in the speaking state never calls [startRecorder];
    if it also ends there, the recorder and its chunks are as before. *)
Lemma vadTick_keeps_recorder config rms now h :
  speakingRef h = true ->
  speakingRef (vadTick config rms now h) = true ->
  recorders (browser (vadTick config rms now h)) = recorders (browser h) /\
  recorderRef (vadTick config rms now h) = recorderRef h /\
  chunksRef (vadTick config rms now h) = chunksRef h.
Proof.
  intros Hs Hs'.
  pose proof (vadTick_cells config rms now h) as (_ & _ & Hsp & _).
  cbv zeta in Hsp. rewrite Hs', Hs in Hsp.
  revert Hsp. unfold vadTick, isVoice, nextNoiseFloor, silenceElapsed.
  destruct (vadVoiceStateRef h) eqn:Hv; refs_cbn; rewrite ?Hv;
    (destruct (gt rms _) eqn:Hg; intros Hsp;
     [ match goal with |- context [gate_to ?a ?b ?x] =>
         pose proof (gate_to_refs a b x) as (_ & _ & G3 & _ & G5 & G6 & G7) end;
       refs_cbn; rewrite G3, Hs; refs_cbn; rewrite G5, G6, G7; easy
     | rewrite Hs in *; destruct (ge _ _); [discriminate|];
       match goal with |- context [gate_to ?a ?b ?x] =>
         pose proof (gate_to_refs a b x) as (_ & _ & _ & _ & G5 & G6 & G7) end;
       rewrite G5, G6, G7; easy ]).
Qed.

(** A tick on which speech-end fires resets the hysteresis state and
    leaves no recorder running. *)
Lemma speech_end_effects config rms now h :
  speech_end h (vadTick config rms now h) ->
  vadVoiceStateRef (vadTick config rms now h) = false /\
  recorder_not_inactive (vadTick config rms now h) = false.
Proof.
  intros [Hs Hs'].
  pose proof (vadTick_cells config rms now h) as (_ & _ & Hsp & Hvs).
  cbv zeta in Hsp, Hvs. rewrite Hs', Hs in Hsp. rewrite Hs in Hvs.
  destruct (isVoice config rms h) eqn:Hi; [discriminate|].
  destruct (silenceElapsed config now h) eqn:He; [|discriminate].
  split; [exact Hvs|].
  revert Hi He. unfold vadTick, isVoice, nextNoiseFloor, silenceElapsed.
  destruct (vadVoiceStateRef h) eqn:Hv; refs_cbn; rewrite ?Hv;
    intros Hi He; rewrite Hi, Hs, He;
    rewrite gate_to_recorder; apply stopRecorder_inactive.
Qed.

(** *** The history of a session *)

Lemma vadRun_app config ticks1 ticks2 h :
  vadRun config (ticks1 ++ ticks2) h = vadRun config ticks2 (vadRun config ticks1 h).
Proof. apply fold_left_app. Qed.

Lemma quiet_inv_tick config t h acc :
  quiet_inv config h acc ->
  quiet_inv config (vadTick config (fst t) (snd t) h)
    (if isVoice config (fst t) h then [] else acc ++ [t]).
Proof.
  intros Hinv Hs'.
  pose proof (vadTick_cells config (fst t) (snd t) h) as (Hnf & _ & Hsp & Hvs).
  cbv zeta in *. rewrite Hs' in Hsp.
  destruct (isVoice config (fst t) h) eqn:Hi.
  - split; [|constructor].
    rewrite Hvs. destruct (speakingRef h) eqn:Hs; [|reflexivity].
    now apply Hinv.
  - destruct (speakingRef h) eqn:Hs; [|discriminate].
    destruct (Hinv Hs) as [Hv Hall].
    destruct (silenceElapsed config (snd t) h); [discriminate|].
    rewrite Hvs, Hnf. unfold nextNoiseFloor. rewrite Hv.
    split; [reflexivity|].
    apply Forall_app. split; [exact Hall|].
    constructor; [|constructor].
    unfold isVoice, nextNoiseFloor in Hi. rewrite Hv in Hi.
    now apply gt_false.
Qed.

Lemma quiet_inv_run config ticks : forall h acc,
  quiet_inv config h acc ->
  quiet_inv config (vadRun config ticks h) (quiet_since config ticks h acc).
Proof.
  induction ticks as [|t ticks IH]; intros h acc Hinv; [exact Hinv|].
  cbn [quiet_since]. change (vadRun config (t :: ticks) h)
    with (vadRun config ticks (vadTick config (fst t) (snd t) h)).
  apply IH. now apply quiet_inv_tick.
Qed.

(** [lastVoiceMsRef] is the time of the last voice tick. *)
Lemma lastVoiceMsRef_run config ticks : forall h,
  lastVoiceMsRef (vadRun config ticks h)
  = last_voice_at config ticks h (lastVoiceMsRef h).
Proof.
  induction ticks as [|t ticks IH]; intros h; [reflexivity|].
  change (vadRun config (t :: ticks) h)
    with (vadRun config ticks (vadTick config (fst t) (snd t) h)).
  cbn [last_voice_at]. rewrite IH.
  pose proof (vadTick_cells config (fst t) (snd t) h) as (_ & Hl & _).
  cbv zeta in Hl. now rewrite Hl.
Qed.

(** *** The properties *)

(** C1. On every tick the noise floor stays as it is when [voiceState]
    is true, and becomes [noiseFloor * 0.98 + rms * (1 - 0.98)], that is
    [noiseFloor * 0.98 + rms * 0.02], when it is false; hence over any run
    of ticks that each start with [voiceState] true the noise floor does
    not change. *)
Theorem C1_noise_floor_frozen_while_voice (config : AppConfig) :
  (forall rms now h, vadVoiceStateRef h = true ->
     noiseFloorRef (vadTick config rms now h) = noiseFloorRef h) /\
  (forall rms now h, vadVoiceStateRef h = false ->
     noiseFloorRef (vadTick config rms now h) = noiseFloorRef h * 0.98 + rms * (1 - 0.98) /\
     noiseFloorRef (vadTick config rms now h) == noiseFloorRef h * 0.98 + rms * 0.02) /\
  (forall ticks h,
     (forall k, (k < length ticks)%nat ->
        vadVoiceStateRef (vadRun config (take k ticks) h) = true) ->
     noiseFloorRef (vadRun config ticks h) = noiseFloorRef h).
Proof.
  assert (Hon : forall rms now h, vadVoiceStateRef h = true ->
            noiseFloorRef (vadTick config rms now h) = noiseFloorRef h).
  { intros rms now h Hv.
    pose proof (vadTick_cells config rms now h) as (Hnf & _).
    cbv zeta in Hnf. rewrite Hnf. unfold nextNoiseFloor. now rewrite Hv. }
  split; [exact Hon|]. split.
  - intros rms now h Hv.
    pose proof (vadTick_cells config rms now h) as (Hnf & _).
    cbv zeta in Hnf. rewrite Hnf. unfold nextNoiseFloor. rewrite Hv.
    split; [reflexivity|lra].
  - induction ticks as [|t ticks IH]; intros h Hall; [reflexivity|].
    change (vadRun config (t :: ticks) h)
      with (vadRun config ticks (vadTick config (fst t) (snd t) h)).
    rewrite IH.
    + apply Hon. apply (Hall 0%nat). cbn. lia.
    + intros k Hk. apply (Hall (S k)). cbn. lia.
Qed.

Lemma C1_witness :
  vadVoiceStateRef Examples.speaking0 = true /\
  noiseFloorRef (vadTick Examples.DEFAULT_CONFIG 0.3 150 Examples.speaking0)
  = noiseFloorRef Examples.speaking0.
Proof.
  split; [reflexivity|].
  apply (proj1 (C1_noise_floor_frozen_while_voice Examples.DEFAULT_CONFIG)).
  reflexivity.
Defined.

(** In exact arithmetic the band between the two thresholds is half the
    margin, whatever the noise floor. *)
Lemma hysteresis_band_in_exact_arithmetic (config : AppConfig) (noiseFloor : Q) :
  0 <= vadThreshold config ->
  onThresh config noiseFloor - offThresh config noiseFloor == margin config * 0.5 /\
  0 < margin config * 0.5.
Proof.
  intros Hthr. unfold onThresh, offThresh, margin. split; lra.
Qed.

(** Without a bound on the noise floor the band can vanish: at a floor of
    [1e16] the two thresholds are the same number. *)
Lemma band_vanishes_at_huge_floor :
  VadBinary64.onThresh Examples.DEFAULT_CONFIG (Binary64.literal 10000000000000000)
  = VadBinary64.offThresh Examples.DEFAULT_CONFIG (Binary64.literal 10000000000000000).
Proof. vm_compute. reflexivity. Qed.

(** C3, as the specification states it, fails for the numbers the code
    computes: with the default threshold setting [0] and the initial
    noise floor [0.01] the thresholds are [0.03] and [0.02] as binary64
    numbers, and their difference, exact or computed, is one unit in the
    last place short of the half margin [0.01]. *)
Lemma C3_counterexample : ~ band_is_half_margin.
Proof.
  intros H.
  destruct (H Examples.DEFAULT_CONFIG (Binary64.round 0.01))
    as (m & on & off & Hm & Hon & Hoff & Hband & _).
  - vm_compute. reflexivity.
  - vm_compute. reflexivity.
  - apply Qle_bool_imp_le. reflexivity.
  - vm_compute in Hm, Hon, Hoff.
    injection Hm as <-. injection Hon as <-. injection Hoff as <-.
    destruct Hband as [Hexact|Hcomputed].
    + vm_compute in Hexact. discriminate.
    + vm_compute in Hcomputed. discriminate.
Qed.

(** C3 (amended). For a threshold setting and a noise floor between [0]
    and [10^6] the margin and the two thresholds the callback computes
    are finite numbers; the entry threshold is strictly above the exit
    threshold, by more than [0.009]; the band differs from the half of
    the computed margin by at most [2^-51 * (noiseFloor + margin)], the
    rounding of the additions; and the computed margin differs from
    [0.02 + 0.06 * threshold] by at most [2^-51] of it. *)
Theorem C3_hysteresis_band_binary64 (config : AppConfig) (noiseFloor : Q) :
  0 <= vadThreshold config -> vadThreshold config <= 1000000 ->
  0 <= noiseFloor -> noiseFloor <= 1000000 ->
  exists m on off : Q,
    VadBinary64.margin config = Binary64.Finite m /\
    VadBinary64.onThresh config (Binary64.Finite noiseFloor) = Binary64.Finite on /\
    VadBinary64.offThresh config (Binary64.Finite noiseFloor) = Binary64.Finite off /\
    off < on /\
    9 # 1000 < on - off /\
    Qabs ((on - off) - m * 0.5) <= 2 ^ (-51) * (noiseFloor + m) /\
    Qabs (m - (0.02 + 0.06 * vadThreshold config))
    <= 2 ^ (-51) * (0.02 + 0.06 * vadThreshold config).
Proof.
  intros T0 T1 N0 N1.
  unfold VadBinary64.onThresh, VadBinary64.offThresh, VadBinary64.margin.
  set (thr := vadThreshold config) in *. clearbody thr.
  destruct Binary64Props.literals_agree as (_ & _ & _ & L2 & L6 & L5).
  rewrite L2, L6, L5. cbn [Binary64.add Binary64.mul].
  change (2 ^ (-51)) with (1 # 2251799813685248).
  set (c2 := 5764607523034235 # 288230376151711744).
  set (c6 := 1080863910568919 # 18014398509481984).
  assert (Hu : Binary64.u == 1 # 9007199254740992) by reflexivity.
  assert (He : Binary64.eta <= 1 # 1267650600228229401496703205376)
    by (apply Qle_bool_iff; vm_compute; reflexivity).
  assert (He0 : 0 <= Binary64.eta) by (apply Qle_bool_iff; vm_compute; reflexivity).
  assert (Big : 10000000 <= 2 ^ 1000) by (apply Qle_bool_iff; vm_compute; reflexivity).
  set (B := 2 ^ 1000) in *.
  assert (Hfin : forall x, 0 <= x -> x <= 10000000 ->
            Binary64.of_Q x = Binary64.Finite (Binary64.round x)).
  { intros x X0 X1. apply Binary64Props.of_Q_finite; [exact X0|]. fold B. lra. }
  clearbody B.
  (* 0.06 * vadThreshold *)
  assert (P0 : 0 <= c6 * thr) by (unfold c6; lra).
  destruct (Binary64Props.round_bounds _ P0) as [Plo Phi].
  rewrite (Hfin (c6 * thr)) by (unfold c6; lra).
  set (p := Binary64.round (c6 * thr)) in *. rewrite Hu in Plo, Phi.
  unfold c6 in Plo, Phi, P0.
  cbn [Binary64.add].
  (* margin *)
  assert (M0 : 0 <= c2 + p) by (unfold c2; lra).
  destruct (Binary64Props.round_bounds _ M0) as [Mlo Mhi].
  rewrite (Hfin (c2 + p)) by (unfold c2; lra).
  set (m := Binary64.round (c2 + p)) in *. rewrite Hu in Mlo, Mhi.
  unfold c2 in Mlo, Mhi, M0.
  cbn [Binary64.add Binary64.mul].
  (* onThresh *)
  assert (O0 : 0 <= noiseFloor + m) by lra.
  destruct (Binary64Props.round_bounds _ O0) as [Olo Ohi].
  rewrite (Hfin (noiseFloor + m)) by lra.
  set (on := Binary64.round (noiseFloor + m)) in *. rewrite Hu in Olo, Ohi.
  (* margin * 0.5 *)
  assert (H0 : 0 <= m * (1 # 2)) by lra.
  destruct (Binary64Props.round_bounds _ H0) as [Hlo Hhi].
  rewrite (Hfin (m * (1 # 2))) by lra.
  set (hm := Binary64.round (m * (1 # 2))) in *. rewrite Hu in Hlo, Hhi.
  cbn [Binary64.add].
  (* offThresh *)
  assert (F0 : 0 <= noiseFloor + hm) by lra.
  destruct (Binary64Props.round_bounds _ F0) as [Flo Fhi].
  rewrite (Hfin (noiseFloor + hm)) by lra.
  set (off := Binary64.round (noiseFloor + hm)) in *. rewrite Hu in Flo, Fhi.
  exists m, on, off.
  split; [reflexivity|]. split; [reflexivity|]. split; [reflexivity|].
  clearbody p m on hm off. clear Hfin.
  split; [lra|]. split; [lra|].
  split; apply Qabs_Qle_condition; split; lra.
Qed.

Lemma C3_witness :
  0 <= vadThreshold Examples.DEFAULT_CONFIG <= 1000000 /\
  0 <= Binary64.round 0.01 <= 1000000 /\
  exists m on off : Q,
    VadBinary64.margin Examples.DEFAULT_CONFIG = Binary64.Finite m /\
    VadBinary64.onThresh Examples.DEFAULT_CONFIG (Binary64.Finite (Binary64.round 0.01))
    = Binary64.Finite on /\
    VadBinary64.offThresh Examples.DEFAULT_CONFIG (Binary64.Finite (Binary64.round 0.01))
    = Binary64.Finite off /\
    off < on.
Proof.
  assert (H0 : 0 <= vadThreshold Examples.DEFAULT_CONFIG)
    by (apply Qle_bool_imp_le; reflexivity).
  assert (H1 : vadThreshold Examples.DEFAULT_CONFIG <= 1000000)
    by (apply Qle_bool_imp_le; reflexivity).
  assert (H2 : 0 <= Binary64.round 0.01) by (apply Qle_bool_imp_le; vm_compute; reflexivity).
  assert (H3 : Binary64.round 0.01 <= 1000000)
    by (apply Qle_bool_imp_le; vm_compute; reflexivity).
  split; [now split|]. split; [now split|].
  destruct (C3_hysteresis_band_binary64 Examples.DEFAULT_CONFIG (Binary64.round 0.01)
              H0 H1 H2 H3)
    as (m & on & off & Hm & Hon & Hoff & Hlt & _).
  exists m, on, off. repeat split; assumption.
Defined.

(** C2. In a session that is in the speaking state after some ticks,
    speech-end (leaving the speaking state, with the hysteresis state
    reset and no recorder left running) fires on the next tick if and only
    if every tick since the last voice tick, this one included, was at or
    below the off threshold and at least [silenceDurationMs] has passed
    since [lastVoiceMsRef], which is the time of that last voice tick; and
    a tick at or below the off threshold followed by a tick above it before
    [silenceDurationMs] has passed keeps the utterance open, with the
    recorder untouched and the silence timer reset to the later tick. *)
Theorem C2_speech_end_debounce (config : AppConfig) (h0 : Hook)
    (ticks : list (Q * Q)) :
  speakingRef h0 = false ->
  let h := vadRun config ticks h0 in
  speakingRef h = true ->
  let off := offThresh config (noiseFloorRef h) in
  lastVoiceMsRef h = last_voice_at config ticks h0 (lastVoiceMsRef h0) /\
  (forall rms now,
     (speech_end h (vadTick config rms now h) <->
        Forall (fun t => fst t <= off) (quiet_since config ticks h0 [] ++ [(rms, now)]) /\
        silenceDurationMs config <= now - lastVoiceMsRef h) /\
     (speech_end h (vadTick config rms now h) ->
        vadVoiceStateRef (vadTick config rms now h) = false /\
        recorder_not_inactive (vadTick config rms now h) = false)) /\
  (forall r1 t1 r2 t2,
     r1 <= off -> off < r2 -> t1 <= t2 ->
     t2 - lastVoiceMsRef h < silenceDurationMs config ->
     let h2 := vadRun config [(r1, t1); (r2, t2)] h in
     speakingRef h2 = true /\
     vadVoiceStateRef h2 = true /\
     lastVoiceMsRef h2 = t2 /\
     recorders (browser h2) = recorders (browser h) /\
     recorderRef h2 = recorderRef h /\
     chunksRef h2 = chunksRef h).
Proof.
  intros Hs0 h Hs off.
  assert (Hinv : quiet_inv config h (quiet_since config ticks h0 [])).
  { apply quiet_inv_run. intros Habs. congruence. }
  destruct (Hinv Hs) as [Hv Hquiet].
  split; [apply lastVoiceMsRef_run|].
  split.
  - intros rms now. split; [|apply speech_end_effects].
    pose proof (vadTick_cells config rms now h) as (_ & _ & Hsp & _).
    cbv zeta in Hsp. rewrite Hs in Hsp.
    assert (Hi : isVoice config rms h = gt rms off).
    { unfold isVoice, nextNoiseFloor. now rewrite Hv. }
    unfold speech_end. rewrite Hsp, Hi, Forall_app.
    unfold silenceElapsed.
    destruct (gt rms off) eqn:Hg.
    + apply gt_true in Hg. split; [intros [_ ?]; discriminate|].
      intros [[_ Hlast] _]. inversion Hlast; subst. cbn in *. lra.
    + apply gt_false in Hg.
      destruct (ge (now - lastVoiceMsRef h) (silenceDurationMs config)) eqn:He.
      * apply ge_true in He. split; [|easy].
        intros _. repeat split; [exact Hquiet| |exact He].
        constructor; [exact Hg|constructor].
      * apply ge_false in He. split; [intros [_ ?]; discriminate|].
        intros [_ Hdur]. lra.
  - intros r1 t1 r2 t2 Hr1 Hr2 Ht Hdur h2.
    set (h1 := vadTick config r1 t1 h).
    assert (Hh2 : h2 = vadTick config r2 t2 h1) by reflexivity.
    pose proof (vadTick_cells config r1 t1 h) as (Hnf1 & Hl1 & Hsp1 & Hvs1).
    cbv zeta in Hnf1, Hl1, Hsp1, Hvs1. fold h1 in Hnf1, Hl1, Hsp1, Hvs1.
    assert (Hi1 : isVoice config r1 h = false).
    { unfold isVoice, nextNoiseFloor. rewrite Hv. now apply gt_false. }
    assert (He1 : silenceElapsed config t1 h = false).
    { unfold silenceElapsed. apply ge_false. lra. }
    rewrite Hi1, Hs, He1 in *. cbn in Hsp1.
    unfold nextNoiseFloor in Hnf1. rewrite Hv in Hnf1.
    pose proof (vadTick_cells config r2 t2 h1) as (_ & Hl2 & Hsp2 & Hvs2).
    cbv zeta in Hl2, Hsp2, Hvs2. rewrite <- Hh2 in Hl2, Hsp2, Hvs2.
    assert (Hi2 : isVoice config r2 h1 = true).
    { unfold isVoice, nextNoiseFloor. rewrite Hvs1, Hnf1, Hv. now apply gt_true. }
    rewrite Hi2, Hsp1, Hvs1 in *.
    destruct (vadTick_keeps_recorder config r1 t1 h Hs Hsp1) as (K1 & K2 & K3).
    fold h1 in K1, K2, K3.
    assert (Hsp2' : speakingRef (vadTick config r2 t2 h1) = true)
      by (rewrite <- Hh2; exact Hsp2).
    destruct (vadTick_keeps_recorder config r2 t2 h1 Hsp1 Hsp2') as (L1 & L2 & L3).
    rewrite <- Hh2 in L1, L2, L3.
    repeat split; try assumption; congruence.
Qed.

Lemma C2_witness :
  speakingRef Examples.listening0 = false /\
  speakingRef (vadRun Examples.DEFAULT_CONFIG [(0.5, 100)] Examples.listening0) = true /\
  lastVoiceMsRef
    (vadRun Examples.DEFAULT_CONFIG [(0.001, 150); (0.5, 200)]
       (vadRun Examples.DEFAULT_CONFIG [(0.5, 100)] Examples.listening0)) = 200.
Proof.
  assert (Hs : speakingRef
                 (vadRun Examples.DEFAULT_CONFIG [(0.5, 100)] Examples.listening0) = true)
    by reflexivity.
  split; [reflexivity|]. split; [exact Hs|].
  destruct (C2_speech_end_debounce Examples.DEFAULT_CONFIG Examples.listening0
              [(0.5, 100)] eq_refl Hs) as (_ & _ & Hdebounce).
  destruct (Hdebounce 0.001 150 0.5 200) as (_ & _ & Hlast & _).
  - apply Qle_bool_imp_le. vm_compute. reflexivity.
  - apply Qlt_alt. vm_compute. reflexivity.
  - apply Qle_bool_imp_le. reflexivity.
  - apply Qlt_alt. vm_compute. reflexivity.
  - exact Hlast.
Defined.

End VadProps.

(** ** SessionController: [stopConversation] *)

Module StopProps.

Import JS Types Dom Hook.

Ltac dom_cbn :=
  cbn -[difference singleton insert lookup fresh elem_of Qplus Qmult Qminus Qdiv] in *.

Lemma Browser_eta b :
  {| animationFrames := animationFrames b; intervals := intervals b;
     tracks := tracks b; recorders := recorders b; audios := audios b;
     gainParams := gainParams b; fetches := fetches b;
     opusSupported := opusSupported b |} = b.
Proof. now destruct b. Qed.

Lemma cancelAnimationFrame_absent id b :
  id ∉ animationFrames b -> cancelAnimationFrame id b = b.
Proof.
  intros Hid. unfold cancelAnimationFrame, set_animationFrames.
  replace (animationFrames b ∖ {[id]}) with (animationFrames b) by set_solver.
  apply Browser_eta.
Qed.

Lemma clearInterval_absent id b :
  id ∉ intervals b -> clearInterval id b = b.
Proof.
  intros Hid. unfold clearInterval, set_intervals.
  replace (intervals b ∖ {[id]}) with (intervals b) by set_solver.
  apply Browser_eta.
Qed.

(** What stopping the tracks of a stream touches. *)
Lemma stop_tracks_frame l : forall b,
  let b' := fold_left MediaStreamTrack_stop l b in
  animationFrames b' = animationFrames b /\
  intervals b' = intervals b /\
  recorders b' = recorders b /\
  audios b' = audios b.
Proof.
  induction l as [|t l IH]; intros b; [easy|].
  cbn [fold_left]. destruct (IH (MediaStreamTrack_stop b t)) as (A & B & C & D).
  cbv zeta. rewrite A, B, C, D. easy.
Qed.

Lemma stop_tracks_ended l : forall b t,
  t ∈ l -> tracks (fold_left MediaStreamTrack_stop l b) !! t = Some ended.
Proof.
  induction l as [|x l IH] using rev_ind; intros b t Hin; [set_solver|].
  rewrite fold_left_app. cbn [fold_left]. unfold MediaStreamTrack_stop at 1.
  dom_cbn. destruct (decide (x = t)) as [->|Hne].
  - apply lookup_insert_eq.
  - rewrite lookup_insert_ne by exact Hne. apply IH. set_solver.
Qed.

Lemma recorder_stop_frame id b :
  let b' := try_catch (MediaRecorder_stop id b) in
  animationFrames b' = animationFrames b /\
  intervals b' = intervals b /\
  audios b' = audios b /\
  tracks b' = tracks b.
Proof.
  unfold MediaRecorder_stop.
  destruct (recorders b !! id) as [r|]; [|easy].
  destruct (rec_state r); easy.
Qed.

Lemma audio_pause_frame id b :
  let b' := try_catch (HTMLAudioElement_pause id b) in
  animationFrames b' = animationFrames b /\
  intervals b' = intervals b /\
  recorders b' = recorders b /\
  tracks b' = tracks b.
Proof.
  unfold HTMLAudioElement_pause.
  destruct (audios b !! id); easy.
Qed.

Lemma stopRecorder_frame h :
  let h' := stopRecorder h in
  animationFrames (browser h') = animationFrames (browser h) /\
  intervals (browser h') = intervals (browser h) /\
  rafRef h' = rafRef h /\ vadIntervalRef h' = vadIntervalRef h /\
  activeAudioRef h' = activeAudioRef h /\ mediaStreamRef h' = mediaStreamRef h /\
  noiseFloorRef h' = noiseFloorRef h /\ vadVoiceStateRef h' = vadVoiceStateRef h /\
  chunksRef h' = chunksRef h /\ speakingRef h' = speakingRef h /\
  lastVoiceMsRef h' = lastVoiceMsRef h.
Proof.
  unfold stopRecorder.
  destruct (recorderRef h) as [id|]; [|easy].
  destruct (recorder_not_inactive h); [|easy].
  pose proof (recorder_stop_frame id (browser h)) as (A & B & _).
  cbv zeta in *. dom_cbn. rewrite A, B. easy.
Qed.

(** The recorder the hook referred to is inactive once [stopRecorder]
    has run. *)
Lemma stopRecorder_recorder h id r :
  recorderRef h = Some id ->
  recorders (browser (stopRecorder h)) !! id = Some r ->
  rec_state r = inactive.
Proof.
  intros Hr. unfold stopRecorder, recorder_not_inactive. rewrite Hr.
  destruct (recorders (browser h) !! id) as [r0|] eqn:Hl.
  - destruct (rec_state r0) eqn:Hst.
    + rewrite Hl. congruence.
    + unfold MediaRecorder_stop. rewrite Hl, Hst. dom_cbn.
      rewrite lookup_insert_eq. now intros [= <-].
    + unfold MediaRecorder_stop. rewrite Hl, Hst. dom_cbn.
      rewrite lookup_insert_eq. now intros [= <-].
  - rewrite Hl. discriminate.
Qed.

(** C8. From every state (the error state included) [stopConversation]
    completes without throwing, in the terminal state: state [idle],
    connection [disconnected], error cleared, audio level [0], both
    timers cancelled, every track of the microphone stream ended, the
    recorder inactive, the media, graph, recorder and audio references
    nulled; and calling it again from there changes nothing. *)
Theorem C8_stopConversation_idempotent (h : Hook) :
  exists h',
    stopConversation h = Normal h' /\
    state h' = AppState.idle /\
    connectionState h' = ConnectionState.disconnected /\
    error h' = None /\
    audioLevel h' = 0%Z /\
    (forall id, rafRef h = Some id -> id ∉ animationFrames (browser h')) /\
    (forall id, vadIntervalRef h = Some id -> id ∉ intervals (browser h')) /\
    (forall stream t, mediaStreamRef h = Some stream -> t ∈ getTracks stream ->
       tracks (browser h') !! t = Some ended) /\
    (forall id r, recorderRef h = Some id -> recorders (browser h') !! id = Some r ->
       rec_state r = inactive) /\
    (mediaStreamRef h' = None /\ processedStreamRef h' = None /\
     audioContextRef h' = None /\ analyserRef h' = None /\
     gateGainRef h' = None /\ preGainRef h' = None /\
     recorderRef h' = None /\ activeAudioRef h' = None) /\
    stopConversation h' = Normal h' /\
    bind (stopConversation h) stopConversation = stopConversation h.
Proof.
  pose (h1 := match rafRef h with
              | Some id => set_browser (cancelAnimationFrame id (browser h)) h
              | None => h
              end).
  pose (h2 := match vadIntervalRef h1 with
              | Some id => set_browser (clearInterval id (browser h1)) h1
              | None => h1
              end).
  pose (h3 := stopRecorder h2).
  pose (h4 := match activeAudioRef h3 with
              | Some id =>
                  set_activeAudioRef None
                    (set_browser (try_catch (HTMLAudioElement_pause id (browser h3))) h3)
              | None => h3
              end).
  pose (b := match mediaStreamRef h4 with
             | Some stream => fold_left MediaStreamTrack_stop (getTracks stream) (browser h4)
             | None => browser h4
             end).
  (* the references that survive, and what each step leaves alone *)
  assert (E1 : rafRef h1 = rafRef h /\ vadIntervalRef h1 = vadIntervalRef h /\
               mediaStreamRef h1 = mediaStreamRef h /\ recorderRef h1 = recorderRef h /\
               intervals (browser h1) = intervals (browser h) /\
               recorders (browser h1) = recorders (browser h) /\
               forall id, rafRef h = Some id -> id ∉ animationFrames (browser h1)).
  { unfold h1. destruct (rafRef h) as [id|] eqn:Hraf; dom_cbn; rewrite ?Hraf;
      repeat split; try easy.
    intros id' [= <-]. set_solver. }
  destruct E1 as (E1a & E1b & E1c & E1d & E1e & E1f & E1g).
  assert (E2 : rafRef h2 = rafRef h /\ vadIntervalRef h2 = vadIntervalRef h /\
               mediaStreamRef h2 = mediaStreamRef h /\ recorderRef h2 = recorderRef h /\
               animationFrames (browser h2) = animationFrames (browser h1) /\
               recorders (browser h2) = recorders (browser h) /\
               forall id, vadIntervalRef h = Some id -> id ∉ intervals (browser h2)).
  { unfold h2. rewrite E1b. destruct (vadIntervalRef h) as [id|] eqn:Hiv; dom_cbn;
      rewrite ?E1a, ?E1b, ?E1c, ?E1d, ?E1f, ?Hiv; repeat split; try easy. intros id' [= <-]. set_solver. }
  destruct E2 as (E2a & E2b & E2c & E2d & E2e & E2f & E2g).
  pose proof (stopRecorder_frame h2) as (E3a & E3b & E3c & E3d & E3e & E3f & _).
  cbv zeta in E3a, E3b, E3c, E3d, E3e, E3f. fold h3 in E3a, E3b, E3c, E3d, E3e, E3f.
  assert (E4 : rafRef h4 = rafRef h /\ vadIntervalRef h4 = vadIntervalRef h /\
               mediaStreamRef h4 = mediaStreamRef h /\ activeAudioRef h4 = None /\
               animationFrames (browser h4) = animationFrames (browser h1) /\
               intervals (browser h4) = intervals (browser h2) /\
               recorders (browser h4) = recorders (browser h3)).
  { unfold h4. destruct (activeAudioRef h3) as [id|] eqn:Ha; dom_cbn.
    - pose proof (audio_pause_frame id (browser h3)) as (A & B & C & _).
      cbv zeta in A, B, C. rewrite A, B, C. repeat split; congruence.
    - repeat split; congruence. }
  destruct E4 as (E4a & E4b & E4c & E4d & E4e & E4f & E4g).
  assert (Eb : animationFrames b = animationFrames (browser h1) /\
               intervals b = intervals (browser h2) /\
               recorders b = recorders (browser h3)).
  { unfold b. destruct (mediaStreamRef h4) as [stream|].
    - pose proof (stop_tracks_frame (getTracks stream) (browser h4)) as (A & B & C & _).
      cbv zeta in A, B, C. rewrite A, B, C. repeat split; congruence.
    - repeat split; congruence. }
  destruct Eb as (Eb1 & Eb2 & Eb3).
  assert (Etr : forall stream t, mediaStreamRef h = Some stream -> t ∈ getTracks stream ->
                  tracks b !! t = Some ended).
  { intros stream t Hst Hin. unfold b. rewrite E4c, Hst. now apply stop_tracks_ended. }
  assert (Erec : forall id r, recorderRef h = Some id -> recorders b !! id = Some r ->
                   rec_state r = inactive).
  { intros id r Hid. rewrite Eb3. unfold h3. apply stopRecorder_recorder. congruence. }
  exists {| state := AppState.idle; connectionState := ConnectionState.disconnected;
            error := None; audioLevel := 0;
            mediaStreamRef := None; audioContextRef := None; analyserRef := None;
            rafRef := rafRef h4; processedStreamRef := None; gateGainRef := None;
            preGainRef := None; noiseFloorRef := noiseFloorRef h4;
            vadVoiceStateRef := vadVoiceStateRef h4; recorderRef := None;
            chunksRef := chunksRef h4; speakingRef := speakingRef h4;
            lastVoiceMsRef := lastVoiceMsRef h4; vadIntervalRef := vadIntervalRef h4;
            activeAudioRef := activeAudioRef h4; browser := b |}.
  split; [reflexivity|].
  assert (Hfirst : stopConversation h = Normal
      {| state := AppState.idle; connectionState := ConnectionState.disconnected;
         error := None; audioLevel := 0;
         mediaStreamRef := None; audioContextRef := None; analyserRef := None;
         rafRef := rafRef h4; processedStreamRef := None; gateGainRef := None;
         preGainRef := None; noiseFloorRef := noiseFloorRef h4;
         vadVoiceStateRef := vadVoiceStateRef h4; recorderRef := None;
         chunksRef := chunksRef h4; speakingRef := speakingRef h4;
         lastVoiceMsRef := lastVoiceMsRef h4; vadIntervalRef := vadIntervalRef h4;
         activeAudioRef := activeAudioRef h4; browser := b |}) by reflexivity.
  clearbody b h4 h3 h2 h1.
  assert (Hagain :
    stopConversation
      {| state := AppState.idle; connectionState := ConnectionState.disconnected;
         error := None; audioLevel := 0;
         mediaStreamRef := None; audioContextRef := None; analyserRef := None;
         rafRef := rafRef h4; processedStreamRef := None; gateGainRef := None;
         preGainRef := None; noiseFloorRef := noiseFloorRef h4;
         vadVoiceStateRef := vadVoiceStateRef h4; recorderRef := None;
         chunksRef := chunksRef h4; speakingRef := speakingRef h4;
         lastVoiceMsRef := lastVoiceMsRef h4; vadIntervalRef := vadIntervalRef h4;
         activeAudioRef := activeAudioRef h4; browser := b |}
    = Normal
      {| state := AppState.idle; connectionState := ConnectionState.disconnected;
         error := None; audioLevel := 0;
         mediaStreamRef := None; audioContextRef := None; analyserRef := None;
         rafRef := rafRef h4; processedStreamRef := None; gateGainRef := None;
         preGainRef := None; noiseFloorRef := noiseFloorRef h4;
         vadVoiceStateRef := vadVoiceStateRef h4; recorderRef := None;
         chunksRef := chunksRef h4; speakingRef := speakingRef h4;
         lastVoiceMsRef := lastVoiceMsRef h4; vadIntervalRef := vadIntervalRef h4;
         activeAudioRef := activeAudioRef h4; browser := b |}).
  { unfold stopConversation. dom_cbn. rewrite E4d.
    destruct (rafRef h4) as [raf|] eqn:Hraf; dom_cbn.
    - rewrite cancelAnimationFrame_absent
        by (rewrite Eb1; apply E1g; congruence).
      destruct (vadIntervalRef h4) as [iv|] eqn:Hiv; dom_cbn.
      + rewrite clearInterval_absent
          by (rewrite Eb2; apply E2g; congruence).
        reflexivity.
      + reflexivity.
    - destruct (vadIntervalRef h4) as [iv|] eqn:Hiv; dom_cbn.
      + rewrite clearInterval_absent
          by (rewrite Eb2; apply E2g; congruence).
        reflexivity.
      + reflexivity. }
  rewrite Hfirst. cbn [bind]. dom_cbn. repeat split; try reflexivity.
  - intros id Hid. rewrite Eb1. now apply E1g.
  - intros id Hid. rewrite Eb2. now apply E2g.
  - exact Etr.
  - exact Erec.
  - exact E4d.
  - exact Hagain.
  - exact Hagain.
Qed.

Lemma C8_witness :
  state Examples.errored0 = AppState.error /\
  exists h',
    stopConversation Examples.errored0 = Normal h' /\
    state h' = AppState.idle /\
    error h' = None /\
    tracks (browser h') !! 0%nat = Some ended /\
    stopConversation h' = Normal h'.
Proof.
  split; [reflexivity|].
  destruct (C8_stopConversation_idempotent Examples.errored0)
    as (h' & H1 & H2 & _ & H3 & _ & _ & _ & Htracks & _ & _ & Hagain & _).
  exists h'. repeat split; try assumption.
  apply (Htracks {| getTracks := [0%nat] |}); [reflexivity|].
  apply list_elem_of_In. now left.
Defined.

End StopProps.

(** ** PlaybackController *)

Module PlaybackProps.

Import JS Types Dom Playback PlaybackSpec Examples.

Ltac pb_cbn := cbn -[alter lookup insert fresh concat] in *.

(** *** The audio element under [play] *)

Lemma update_audio_lookup id f b :
  audios (update_audio id f b) !! id = f <$> audios b !! id.
Proof. unfold update_audio. pb_cbn. apply lookup_alter_eq. Qed.

Lemma audio_src_update id f b :
  (forall a, src (f a) = src a) ->
  audio_src id (update_audio id f b) = audio_src id b.
Proof.
  intros Hf. unfold audio_src. rewrite update_audio_lookup.
  destruct (audios b !! id); pb_cbn; [apply Hf|reflexivity].
Qed.

Lemma audio_some_update id f b :
  is_Some (audios b !! id) -> is_Some (audios (update_audio id f b) !! id).
Proof. intros [a Ha]. rewrite update_audio_lookup, Ha. now eexists. Qed.

Lemma play_keeps w id b :
  let b' := try_catch (play w id b) in
  audio_src id b' = audio_src id b /\
  (is_Some (audios b !! id) -> is_Some (audios b' !! id)).
Proof.
  unfold play. destruct (audios b !! id) as [a|] eqn:Ha; [|pb_cbn; rewrite Ha; easy].
  destruct (play_rejects w (muted a)); pb_cbn; [now rewrite Ha|].
  split; [now apply audio_src_update|]. intros _. apply audio_some_update. now rewrite Ha.
Qed.

Lemma play_unlocking_keeps w id b :
  audio_src id (play_unlocking w id b) = audio_src id b /\
  (is_Some (audios b !! id) -> is_Some (audios (play_unlocking w id b) !! id)).
Proof.
  unfold play_unlocking.
  pose proof (play_keeps w id b) as [P1 P2]. cbv zeta in P1, P2.
  destruct (play w id b) as [b1|e b1]; pb_cbn; [easy|].
  set (b2 := update_audio id (with_muted true) b1).
  assert (S2 : audio_src id b2 = audio_src id b1) by now apply audio_src_update.
  assert (I2 : is_Some (audios b1 !! id) -> is_Some (audios b2 !! id))
    by apply audio_some_update.
  pose proof (play_keeps w id b2) as [Q1 Q2]. cbv zeta in Q1, Q2.
  destruct (play w id b2) as [b3|e' b3]; pb_cbn.
  - split.
    + rewrite audio_src_update by easy. congruence.
    + intros H. apply audio_some_update. auto.
  - split; [congruence|auto].
Qed.

(** [fallbackToBlob] with a prebuilt blob: that blob is what the element
    plays, and the closure keeps what it had received. *)
Lemma fallbackToBlob_prebuilt w blob s b :
  is_Some (audios b !! audioEl s) ->
  let sb' := fallbackToBlob w (Some blob) (s, b) in
  audio_src (audioEl s) (snd sb') = BlobUrl blob /\
  is_Some (audios (snd sb') !! audioEl s) /\
  fst sb' = set_onended OnendedBlob s.
Proof.
  intros Hsome. unfold fallbackToBlob. pb_cbn.
  pose proof (play_unlocking_keeps w (audioEl s)
                (update_audio (audioEl s) (with_src (BlobUrl blob)) b)) as [P1 P2].
  rewrite P1. repeat split.
  - unfold audio_src. rewrite update_audio_lookup.
    destruct Hsome as [a ->]. reflexivity.
  - apply P2. now apply audio_some_update.
Qed.

(** [fallbackToBlob()] on the untouched response plays the whole body. *)
Lemma fallbackToBlob_whole w s b :
  is_Some (audios b !! audioEl s) ->
  bodyUsed s = false ->
  let sb' := fallbackToBlob w None (s, b) in
  audio_src (audioEl s) (snd sb')
    = BlobUrl (Blob_of_chunks (body_chunks (resp s)) (content_type (resp s))) /\
  fst sb' = set_onended OnendedBlob (set_bodyUsed true s).
Proof.
  intros Hsome Hused. unfold fallbackToBlob, resp_blob. rewrite Hused. pb_cbn.
  pose proof (play_unlocking_keeps w (audioEl s)
                (update_audio (audioEl s)
                   (with_src (BlobUrl (Blob_of_chunks (body_chunks (resp s))
                                         (content_type (resp s))))) b)) as [P1 _].
  rewrite P1. split; [|reflexivity].
  unfold audio_src. rewrite update_audio_lookup.
  destruct Hsome as [a ->]. reflexivity.
Qed.

(** [fallbackToBlob] never touches what the reader has delivered. *)
Lemma fallbackToBlob_frame w pre s b :
  let sb' := fallbackToBlob w pre (s, b) in
  resp (fst sb') = resp s /\ audioEl (fst sb') = audioEl s /\
  reader (fst sb') = reader s /\ receivedChunks (fst sb') = receivedChunks s /\
  unread (fst sb') = unread s /\
  (is_Some (audios b !! audioEl s) -> is_Some (audios (snd sb') !! audioEl s)) /\
  pc (fst sb') = pc s.
Proof.
  unfold fallbackToBlob.
  destruct pre as [blob|]; pb_cbn.
  - pose proof (play_unlocking_keeps w (audioEl s)
                  (update_audio (audioEl s) (with_src (BlobUrl blob)) b)) as [_ P2].
    repeat split. intros H. apply P2. now apply audio_some_update.
  - destruct (resp_blob s) as [blob|]; pb_cbn; [|easy].
    pose proof (play_unlocking_keeps w (audioEl s)
                  (update_audio (audioEl s) (with_src (BlobUrl blob)) b)) as [_ P2].
    repeat split. intros H. apply P2. now apply audio_some_update.
Qed.

(** *** What the reader has delivered is a prefix of the body *)

Lemma received_inv_start resp0 a b :
  is_Some (audios b !! a) -> received_inv resp0 a (streaming_start resp0 a b).
Proof.
  intros H. unfold received_inv, streaming_start. pb_cbn.
  repeat split. now apply audio_some_update.
Qed.

(** A step that changes neither the response, the element, the reader,
    the chunks nor (away from [NotStarted]) the position keeps the
    invariant. *)
Lemma received_inv_same resp0 a s b s' b' :
  received_inv resp0 a (s, b) ->
  resp s' = resp s -> audioEl s' = audioEl s ->
  (is_Some (audios b !! a) -> is_Some (audios b' !! a)) ->
  reader s' = reader s -> receivedChunks s' = receivedChunks s ->
  unread s' = unread s ->
  (pc s' = NotStarted -> pc s = NotStarted) ->
  received_inv resp0 a (s', b').
Proof.
  intros (R & A & I & C & N) E1 E2 E3 E4 E5 E6 E7. cbn [fst snd] in *.
  unfold received_inv. cbn [fst snd]. rewrite E1, E2, E4, E5, E6. repeat split; auto.
Qed.

Lemma received_inv_cancel resp0 a s b :
  received_inv resp0 a (s, b) -> received_inv resp0 a (reader_cancel s, b).
Proof.
  intros (R & A & I & C & N). cbn [fst snd] in *.
  unfold received_inv, reader_cancel. cbn [fst snd].
  destruct (reader s) eqn:Hr; pb_cbn; rewrite ?Hr; repeat split; auto.
  intros Hpc. specialize (N Hpc). discriminate.
Qed.

Lemma received_inv_fallback w pre resp0 a s b :
  received_inv resp0 a (s, b) -> received_inv resp0 a (fallbackToBlob w pre (s, b)).
Proof.
  intros Hinv. pose proof Hinv as (R & A & I & C & N). cbn [fst snd] in R, A, I, C, N.
  pose proof (fallbackToBlob_frame w pre s b) as (F1 & F2 & F3 & F4 & F5 & F6 & F7).
  cbv zeta in F1, F2, F3, F4, F5, F6, F7.
  destruct (fallbackToBlob w pre (s, b)) as [s' b'] eqn:Hf. cbn [fst snd] in *.
  apply (received_inv_same resp0 a s b); auto.
  - subst a. exact F6.
  - now rewrite F7.
Qed.

Lemma received_inv_handle w e resp0 a sb :
  received_inv resp0 a sb -> received_inv resp0 a (handle w e sb).
Proof.
  destruct sb as [s b]. intros Hinv.
  pose proof Hinv as (R & A & I & C & N). cbn [fst snd] in R, A, I, C, N.
  destruct e; cbn [handle].
  - (* sourceopen *)
    unfold on_sourceopen.
    destruct (pc s) eqn:Hpc; try exact Hinv.
    destruct (audio_src (audioEl s) b); try exact Hinv.
    destruct (addSourceBuffer_throws w).
    + apply received_inv_fallback.
      now apply (received_inv_same resp0 a s b).
    + unfold received_inv. pb_cbn. repeat split; try assumption; [|discriminate].
      rewrite (N eq_refl) in C. now rewrite C, R.
  - (* read settles *)
    unfold on_read_settles.
    destruct (pc s) eqn:Hpc; try exact Hinv.
    destruct (reader s) as [[|]|] eqn:Hr;
      try (apply (received_inv_same resp0 a s b); pb_cbn; now auto).
    destruct (unread s) as [|value rest] eqn:Hu;
      [apply (received_inv_same resp0 a s b); pb_cbn; now auto|].
    destruct value as [|x value].
    + (* an empty chunk is skipped *)
      unfold received_inv. pb_cbn. rewrite Hr, Hpc.
      repeat split; try assumption; discriminate.
    + unfold received_inv. pb_cbn. rewrite Hr.
      repeat split; try assumption; [|discriminate].
      rewrite concat_app. cbn [concat]. rewrite app_nil_r, <- app_assoc. exact C.
  - (* stream fails *)
    unfold on_stream_fails.
    destruct (pc s) eqn:Hpc; try exact Hinv; apply received_inv_fallback;
      apply (received_inv_same resp0 a s b); pb_cbn; auto; discriminate.
  - (* updateend *)
    unfold on_updateend.
    destruct (pc s) eqn:Hpc; try exact Hinv.
    destruct (started s); pb_cbn.
    + apply (received_inv_same resp0 a s b); pb_cbn; auto; discriminate.
    + pose proof (play_keeps w (audioEl s) b) as [_ P2]. cbv zeta in P2.
      apply (received_inv_same resp0 a s b); pb_cbn; auto; [|discriminate].
      now subst a.
  - (* play settles *)
    unfold on_play_settles.
    destruct (pc s) eqn:Hpc; try exact Hinv.
    apply (received_inv_same resp0 a s b); pb_cbn; auto; discriminate.
  - (* watchdog *)
    unfold on_watchdog.
    destruct (watchdog s); [|exact Hinv]. cbv zeta.
    match goal with |- context [if ?c then _ else _] => destruct c end.
    + apply received_inv_fallback.
      set (s1 := set_aborted true (set_watchdog false s)).
      assert (H1 : received_inv resp0 a (s1, b))
        by (apply (received_inv_same resp0 a s b); pb_cbn; auto).
      apply received_inv_cancel in H1.
      apply (received_inv_same resp0 a (reader_cancel s1) b); [exact H1|..];
        pb_cbn; auto.
    + apply (received_inv_same resp0 a s b); pb_cbn; auto.
  - (* audio error *)
    unfold on_audio_error.
    destruct (errorListener s); [|exact Hinv]. cbv zeta.
    match goal with |- context [if ?c then _ else _] => destruct c end.
    + apply (received_inv_same resp0 a s b); pb_cbn; auto.
    + apply received_inv_fallback.
      set (s1 := set_aborted true (set_errorListener false s)).
      assert (H1 : received_inv resp0 a (s1, b))
        by (apply (received_inv_same resp0 a s b); pb_cbn; auto).
      apply received_inv_cancel in H1.
      apply (received_inv_same resp0 a (reader_cancel s1) b); [exact H1|..];
        pb_cbn; auto.
  - (* ended *)
    unfold on_ended.
    destruct (onended s); exact Hinv.
Qed.

Lemma received_inv_run w events : forall resp0 a sb,
  received_inv resp0 a sb -> received_inv resp0 a (run w events sb).
Proof.
  induction events as [|e events IH]; intros resp0 a sb Hinv; [exact Hinv|].
  cbn [run fold_left]. apply IH. now apply received_inv_handle.
Qed.

(** *** The properties *)

(** C4, as the specification states it, fails: a runtime with
    [MediaSource] and ['audio/mpeg'] support and a readable body still
    gets full-buffer playback. *)
Lemma C4_counterexample : ~ streams_when_supported.
Proof.
  intros H.
  destruct (H window_mse resp_two_chunks 0%nat browser0) as [Hs _];
    [eexists; reflexivity|].
  specialize (Hs eq_refl).
  apply (f_equal (fun sb => watchdog (fst sb))) in Hs.
  vm_compute in Hs. discriminate.
Qed.

(** C4 (amended). With [enableStreaming] fixed to [false], [canUseMSE]
    is false whatever the runtime supports, so for every response
    [tryStream] goes directly to full-buffer playback: no watchdog is
    armed, no streaming handler is installed, and the element plays a
    blob of the whole body with the response's content type. *)
Theorem C4_always_full_buffer (w : Window) (resp : HttpResponse) (a : nat) (b : Browser) :
  is_Some (audios b !! a) ->
  canUseMSE w resp = false /\
  tryStream w resp a b = fallbackToBlob w None (closure resp a, b) /\
  watchdog (fst (tryStream w resp a b)) = false /\
  onended (fst (tryStream w resp a b)) = OnendedBlob /\
  audio_src a (snd (tryStream w resp a b))
    = BlobUrl (Blob_of_chunks (body_chunks resp) (content_type resp)) /\
  played_bytes (tryStream w resp a b) = Some (full_buffer_bytes resp).
Proof.
  intros Hsome.
  assert (Hcan : canUseMSE w resp = false) by reflexivity.
  assert (Htry : tryStream w resp a b = fallbackToBlob w None (closure resp a, b))
    by (unfold tryStream; now rewrite Hcan).
  pose proof (fallbackToBlob_whole w (closure resp a) b Hsome eq_refl) as [Hsrc Hfst].
  cbv zeta in Hsrc, Hfst. cbn [audioEl closure Playback.resp] in Hsrc.
  rewrite <- Htry in Hsrc, Hfst.
  split; [exact Hcan|]. split; [exact Htry|].
  split; [now rewrite Hfst|]. split; [now rewrite Hfst|].
  split; [exact Hsrc|].
  unfold played_bytes. rewrite Hfst. cbn [audioEl set_onended set_bodyUsed closure].
  rewrite Hsrc. reflexivity.
Qed.

Lemma C4_witness :
  is_Some (audios browser0 !! 0%nat) /\
  played_bytes (tryStream window_mse resp_two_chunks 0%nat browser0)
  = Some (full_buffer_bytes resp_two_chunks).
Proof.
  assert (Hsome : is_Some (audios browser0 !! 0%nat)) by (eexists; reflexivity).
  split; [exact Hsome|].
  apply (C4_always_full_buffer window_mse resp_two_chunks 0%nat browser0 Hsome).
Defined.

(** *** No reply is lost to the watchdog *)





(** *** The disabled streaming branch

    What follows is about the code after [if (!canUseMSE) { ... return; }]
    taken by itself, from [streaming_start]: no run of [tryStream] gets
    there while [enableStreaming] is [false]. *)

(** Were the branch enabled, a watchdog that fires after the first chunk
    was read and before playback began would leave the element with that
    chunk only, not the whole body. *)
Lemma streaming_branch_would_lose_unread_chunks : ~ watchdog_no_data_loss.
Proof.
  intros H.
  specialize (H window_mse resp_two_chunks 0%nat browser0 [SourceOpen; ReadSettles]).
  cbv zeta in H.
  assert (Hplayed :
    played_bytes
      (handle window_mse WatchdogFires
         (run window_mse [SourceOpen; ReadSettles]
            (streaming_start resp_two_chunks 0%nat browser0)))
    = Some [x49; x44]) by (vm_compute; reflexivity).
  rewrite Hplayed in H.
  assert (Hfull : full_buffer_bytes resp_two_chunks = [x49; x44; x33]) by reflexivity.
  rewrite Hfull in H.
  specialize (H ltac:(eexists; reflexivity) ltac:(vm_compute; reflexivity)
                ltac:(vm_compute; reflexivity) ltac:(vm_compute; reflexivity)).
  discriminate.
Qed.

(** The handler of the watchdog, lines 323 to 333: if it fires while
    playback has not started and nothing was aborted, it marks the
    closure aborted, cancels the reader if there is one, ends the media
    source, revokes the object URL and plays, through [fallbackToBlob], a
    blob of exactly the chunks received so far, a prefix of the response
    body. *)
Lemma streaming_branch_watchdog_plays_received_prefix (w : Window) (resp : HttpResponse)
    (a : nat) (b : Browser) (events : list Event) :
  is_Some (audios b !! a) ->
  let sb := run w events (streaming_start resp a b) in
  watchdog (fst sb) = true -> started (fst sb) = false -> aborted (fst sb) = false ->
  let sb' := handle w WatchdogFires sb in
  aborted (fst sb') = true /\
  watchdog (fst sb') = false /\
  (forall c, reader (fst sb) = Some c -> reader (fst sb') = Some true) /\
  mediaSourceEnded (fst sb') = true /\
  objectUrlRevoked (fst sb') = true /\
  audio_src a (snd sb') = BlobUrl (Blob_of_chunks (receivedChunks (fst sb)) "audio/mpeg") /\
  played_bytes sb' = Some (concat (receivedChunks (fst sb))) /\
  (exists rest, full_buffer_bytes resp = concat (receivedChunks (fst sb)) ++ rest) /\
  watchdog (fst (tryStream w resp a b)) = false.
Proof.
  intros Hsome sb Hw Hst Hab sb'.
  pose proof (received_inv_run w events resp a _ (received_inv_start resp a b Hsome))
    as (R & A & I & C & N).
  fold sb in R, A, I, C, N.
  destruct sb as [s b1] eqn:Hsb. cbn [fst snd] in *.
  subst sb'. cbn [handle]. unfold on_watchdog.
  rewrite Hw. cbv zeta.
  replace (negb (started (set_watchdog false s)) && negb (aborted (set_watchdog false s)))
    with true by (cbn [started aborted set_watchdog]; now rewrite Hst, Hab).
  set (s4 := revokeObjectURL (safeEnd (reader_cancel (set_aborted true (set_watchdog false s))))).
  assert (E : audioEl s4 = a /\ receivedChunks s4 = receivedChunks s /\
              aborted s4 = true /\ watchdog s4 = false /\
              mediaSourceEnded s4 = true /\ objectUrlRevoked s4 = true /\
              (forall c, reader s = Some c -> reader s4 = Some true)).
  { unfold s4, reader_cancel. cbn [reader set_aborted set_watchdog].
    destruct (reader s); repeat split; try assumption; try reflexivity;
      intros c [=]. }
  destruct E as (E1 & E2 & E3 & E4 & E5 & E6 & E7).
  assert (I4 : is_Some (audios b1 !! audioEl s4)) by now rewrite E1.
  pose proof (fallbackToBlob_prebuilt w (Blob_of_chunks (receivedChunks s4) "audio/mpeg")
                s4 b1 I4) as (P1 & P2 & P3).
  cbv zeta in P1, P2, P3. rewrite E1 in P1. rewrite E2 in P1, P3 |- *.
  split; [now rewrite P3|]. split; [now rewrite P3|].
  split; [intros c Hc; rewrite P3; now apply (E7 c)|].
  split; [now rewrite P3|]. split; [now rewrite P3|].
  split; [exact P1|]. split.
  - unfold played_bytes. rewrite P3. cbn [fst snd audioEl set_onended].
    rewrite E1, P1. reflexivity.
  - split; [|reflexivity].
    unfold full_buffer_bytes. destruct (reader s).
    + exists (concat (unread s)). now rewrite C.
    + exists (concat (body_chunks resp)). now rewrite C.
Qed.

Lemma streaming_branch_watchdog_sample :
  is_Some (audios browser0 !! 0%nat) /\
  played_bytes
    (handle window_mse WatchdogFires
       (run window_mse [SourceOpen; ReadSettles]
          (streaming_start resp_two_chunks 0%nat browser0)))
  = Some [x49; x44] /\
  full_buffer_bytes resp_two_chunks = [x49; x44] ++ [x33].
Proof.
  assert (Hsome : is_Some (audios browser0 !! 0%nat)) by (eexists; reflexivity).
  split; [exact Hsome|].
  destruct (streaming_branch_watchdog_plays_received_prefix window_mse resp_two_chunks 0%nat browser0
              [SourceOpen; ReadSettles] Hsome eq_refl eq_refl eq_refl)
    as (_ & _ & _ & _ & _ & _ & Hplayed & _ & _).
  split; [exact Hplayed|reflexivity].
Defined.

End PlaybackProps.

(** ** UtteranceRecorder and PipelineClient *)

Module UploadProps.

Import JS Types Dom Playback Hook UploadSpec Examples.

Ltac up_cbn := cbn -[insert lookup fresh Qeq_bool Qmax Qmin] in *.

(** *** The recorder *)

Lemma recorder_ondataavailable_empty data h :
  blob_size data = 0%nat -> recorder_ondataavailable (Some data) h = h.
Proof. intros H. unfold recorder_ondataavailable. now rewrite H. Qed.

(** A fresh recorder: [startRecorder] on a hook with a stream and no
    running recorder. *)
Lemma startRecorder_starts h stream :
  mediaStreamRef h = Some stream ->
  recorder_not_inactive h = false ->
  let id := fresh (dom (recorders (browser h))) in
  recorderRef (startRecorder h) = Some id /\
  recorders (browser (startRecorder h)) !! id
    = Some {| rec_state := recording;
              mimeType := if opusSupported (browser h)
                          then "audio/webm;codecs=opus"%string
                          else "audio/webm"%string |} /\
  chunksRef (startRecorder h) = [] /\
  fetches (browser (startRecorder h)) = fetches (browser h) /\
  state (startRecorder h) = state h /\
  error (startRecorder h) = error h.
Proof.
  intros Hm Hr. unfold startRecorder. rewrite Hm, Hr. up_cbn. rewrite Hm.
  destruct (processedStreamRef h); up_cbn; now rewrite lookup_insert_eq.
Qed.

Lemma stopRecorder_stops h id r :
  recorderRef h = Some id ->
  recorders (browser h) !! id = Some r ->
  rec_state r = recording ->
  recorder_not_inactive (stopRecorder h) = false /\
  chunksRef (stopRecorder h) = chunksRef h /\
  fetches (browser (stopRecorder h)) = fetches (browser h) /\
  state (stopRecorder h) = state h /\
  error (stopRecorder h) = error h.
Proof.
  intros Hid Hl Hst. split; [apply VadProps.stopRecorder_inactive|].
  unfold stopRecorder, recorder_not_inactive, MediaRecorder_stop.
  rewrite Hid, Hl, Hst. now up_cbn.
Qed.

Lemma onstop_upload_frame pathname config mimeType h :
  let h' := recorder_onstop_upload pathname config mimeType h in
  chunksRef h' = [] /\
  state h' = state h /\ error h' = error h /\
  recorderRef h' = recorderRef h /\
  recorders (browser h') = recorders (browser h) /\
  fetches (browser h')
  = fetches (browser h)
    ++ [{| url_path := "/api/voice/process"; method := "POST";
           body := build_form (isDevRoute pathname) config
                     (new_Blob (chunksRef h) mimeType) |}].
Proof. now unfold recorder_onstop_upload. Qed.

(** Every form starts with the audio part. *)
Lemma build_form_audio_first dev config blob :
  exists rest,
    build_form dev config blob = ("audio"%string, FileEntry blob "utterance.webm") :: rest.
Proof.
  unfold build_form, append_if_truthy, append. destruct dev; cbn [negb].
  - now eexists.
  - destruct (openaiSpeed config) as [q1|]; [destruct (truthy_number (Some q1))|];
    (destruct (piperSpeed config) as [q2|]; [destruct (truthy_number (Some q2))|]);
    (destruct (piperPitch config) as [q3|]; [destruct (truthy_number (Some q3))|]);
    (destruct (match coquiSettings config with
               | Some c => coqui_temperature c
               | None => None
               end) as [q4|]; [destruct (truthy_number (Some q4))|]);
    cbn [app]; now eexists.
Qed.

(** C6, as the specification states it, fails: a stop with no chunk
    captured still sends a request. *)
Lemma C6_counterexample : ~ discards_empty_payload.
Proof.
  intros H.
  specialize (H "/"%string DEFAULT_CONFIG "audio/webm"%string listening0 eq_refl).
  apply (f_equal length) in H. vm_compute in H. discriminate.
Qed.

(** C6 (amended). When the recorder is started and then stopped before
    any non-empty chunk arrived (empty data events are not stored), the
    stop handler does not throw and does not discard: it builds an empty
    blob of the recorder's MIME type, leaves the chunk buffer empty and
    uploads the blob as the ['audio'] part of one request to
    [/api/voice/process]; the recorder is inactive from the stop on, the
    state and error of the hook are as before. *)
Theorem C6_empty_stop_still_uploads (pathname : string) (config : AppConfig)
    (h : Hook) (stream : MediaStream) (data : Blob) :
  mediaStreamRef h = Some stream ->
  recorder_not_inactive h = false ->
  blob_size data = 0%nat ->
  let mimeType :=
    if opusSupported (browser h) then "audio/webm;codecs=opus"%string
    else "audio/webm"%string in
  let h1 := startRecorder h in
  let h2 := stopRecorder h1 in
  let h3 := recorder_ondataavailable (Some data) h2 in
  let h4 := recorder_onstop_upload pathname config mimeType h3 in
  recorder_not_inactive h1 = true /\
  recorder_not_inactive h2 = false /\
  chunksRef h3 = [] /\
  (exists rest,
     fetches (browser h4)
     = fetches (browser h)
       ++ [{| url_path := "/api/voice/process"; method := "POST";
              body := ("audio"%string,
                       FileEntry {| blob_bytes := []; blob_type := mimeType |}
                         "utterance.webm") :: rest |}]) /\
  chunksRef h4 = [] /\
  recorder_not_inactive h4 = false /\
  state h4 = state h /\
  error h4 = error h.
Proof.
  intros Hm Hr Hdata mimeType h1 h2 h3 h4.
  destruct (startRecorder_starts h stream Hm Hr) as (S1 & S2 & S3 & S4 & S5 & S6).
  cbv zeta in S1, S2. fold h1 mimeType in S1, S2, S3, S4, S5, S6.
  destruct (stopRecorder_stops h1 _ _ S1 S2 eq_refl) as (T1 & T2 & T3 & T4 & T5).
  fold h2 in T1, T2, T3, T4, T5.
  assert (E3 : h3 = h2) by now apply recorder_ondataavailable_empty.
  pose proof (onstop_upload_frame pathname config mimeType h3)
    as (U1 & U2 & U3 & U4 & U5 & U6).
  cbv zeta in U1, U2, U3, U4, U5, U6. fold h4 in U1, U2, U3, U4, U5, U6.
  rewrite E3 in *.
  split.
  { unfold recorder_not_inactive. now rewrite S1, S2. }
  split; [exact T1|]. split; [congruence|]. split.
  { destruct (build_form_audio_first (isDevRoute pathname) config
                (new_Blob (chunksRef h2) mimeType)) as [rest Hrest].
    exists rest. rewrite U6, Hrest, T3, S4, T2, S3. reflexivity. }
  split; [exact U1|]. split.
  { unfold recorder_not_inactive in *. now rewrite U4, U5. }
  split; congruence.
Qed.

Lemma C6_witness :
  mediaStreamRef listening0 = Some {| getTracks := [0%nat] |} /\
  recorder_not_inactive listening0 = false /\
  exists rest,
    fetches
      (browser
         (recorder_onstop_upload "/" DEFAULT_CONFIG "audio/webm;codecs=opus"
            (recorder_ondataavailable
               (Some {| blob_bytes := []; blob_type := "audio/webm;codecs=opus" |})
               (stopRecorder (startRecorder listening0)))))
    = fetches (browser listening0)
      ++ [{| url_path := "/api/voice/process"; method := "POST";
             body := ("audio"%string,
                      FileEntry {| blob_bytes := []; blob_type := "audio/webm;codecs=opus" |}
                        "utterance.webm") :: rest |}].
Proof.
  split; [reflexivity|]. split; [reflexivity|].
  destruct (C6_empty_stop_still_uploads "/" DEFAULT_CONFIG listening0
              {| getTracks := [0%nat] |}
              {| blob_bytes := []; blob_type := "audio/webm;codecs=opus" |}
              eq_refl eq_refl eq_refl) as (_ & _ & _ & Hfetch & _).
  exact Hfetch.
Defined.

(** *** The error path *)

(** C9, as the specification states it, fails: a failed transcription
    and a failed completion leave the hook in the same state, so the stage
    cannot be read off it. *)
Lemma C9_counterexample : ~ classification_reaches_caller.
Proof.
  intros H.
  destruct (H window_mse (fun key => key) DEFAULT_CONFIG) as [decode Hd].
  pose proof (Hd "Whisper API error 500"%string listening0) as H1.
  pose proof (Hd "GPT API error 500"%string listening0) as H2.
  assert (Hsame :
    fst (recorder_onstop_response window_mse (fun key => key) DEFAULT_CONFIG
           (Resolved (Server.error_reply "Whisper API error 500")) listening0)
    = fst (recorder_onstop_response window_mse (fun key => key) DEFAULT_CONFIG
             (Resolved (Server.error_reply "GPT API error 500")) listening0))
    by reflexivity.
  rewrite Hsame in H1. rewrite H1 in H2. vm_compute in H2. discriminate.
Qed.

(** C9 (amended). When the pipeline of the endpoint throws, the reply
    has status 500 and a JSON body whose [error] names the stage found by
    substring tests on the message, in this order: ['Whisper'] or
    ['transcription'] gives STT, else ['GPT'] or ['LLM'] gives LLM, else
    ['TTS'] gives TTS, else a generic server error; [details] is the
    message.  The hook does not read the body of a reply that is not ok:
    it sets the error [{ type: 'api', message: t('error.general') }] and
    the state ['error'], the same for every such reply. *)
Theorem C9_stage_stays_on_server
    (pipeline : Server.Request -> Server.VoiceConfig -> list (list byte) + string)
    (contentType : string) (fb : Server.FirebaseSettings) (req : Server.Request)
    (message : string) (w : Window) (t : string -> string) (config : AppConfig)
    (h : Hook) :
  is_Some (Server.req_file req) ->
  pipeline req (Server.resolve_config (Server.req_body req) fb) = inr message ->
  let resp := Server.voice_process pipeline contentType fb req in
  resp = Server.error_reply message /\
  status resp = 500%Z /\
  ok resp = false /\
  payload resp
  = Json (if includes message "Whisper" || includes message "transcription"
          then "STT service failed"
          else if includes message "GPT" || includes message "LLM"
               then "LLM service failed"
               else if includes message "TTS"
                    then "TTS service failed"
                    else "Server error in voice pipeline")%string
      (Some message) /\
  (forall resp' : HttpResponse, ok resp' = false ->
     recorder_onstop_response w t config (Resolved resp') h
     = (set_state AppState.error
          (set_error (Some {| type := ErrorType.api; message := t "error.general" |}) h),
        None)) /\
  recorder_onstop_response w t config (Resolved resp) h
  = (set_state AppState.error
       (set_error (Some {| type := ErrorType.api; message := t "error.general" |}) h),
     None).
Proof.
  intros Hfile Hpipe resp.
  assert (Hresp : resp = Server.error_reply message).
  { unfold resp, Server.voice_process. rewrite Hpipe.
    rewrite (bool_decide_eq_true_2 _ Hfile). reflexivity. }
  assert (Hclient : forall resp' : HttpResponse, ok resp' = false ->
     recorder_onstop_response w t config (Resolved resp') h
     = (set_state AppState.error
          (set_error (Some {| type := ErrorType.api; message := t "error.general" |}) h),
        None)).
  { intros resp' Hok. unfold recorder_onstop_response. now rewrite Hok. }
  split; [exact Hresp|]. rewrite Hresp.
  split; [reflexivity|]. split; [reflexivity|]. split; [reflexivity|].
  split; [exact Hclient|]. now apply Hclient.
Qed.

Lemma C9_witness :
  let pipeline := fun (_ : Server.Request) (_ : Server.VoiceConfig) =>
                    @inr (list (list byte)) string "Whisper API error 500"%string in
  let req := Server.multipart
               (build_form false DEFAULT_CONFIG
                  {| blob_bytes := [x00]; blob_type := "audio/webm" |}) in
  is_Some (Server.req_file req) /\
  status (Server.voice_process pipeline "audio/mpeg" Server.DEFAULT_CONFIG req) = 500%Z /\
  recorder_onstop_response window_mse (fun key => key) DEFAULT_CONFIG
    (Resolved (Server.voice_process pipeline "audio/mpeg" Server.DEFAULT_CONFIG req))
    listening0
  = (set_state AppState.error
       (set_error (Some {| type := ErrorType.api; message := "error.general" |})
          listening0), None).
Proof.
  intros pipeline req.
  assert (Hfile : is_Some (Server.req_file req)) by (eexists; reflexivity).
  split; [exact Hfile|].
  destruct (C9_stage_stays_on_server pipeline "audio/mpeg" Server.DEFAULT_CONFIG req
              "Whisper API error 500" window_mse (fun key => key) DEFAULT_CONFIG
              listening0 Hfile eq_refl) as (_ & Hstatus & _ & _ & _ & Hclient).
  split; [exact Hstatus|exact Hclient].
Defined.

(** *** The form and the configuration the server resolves *)

Lemma fields_of_field form name v :
  Server.fields_of (append name (Field v) form)
  = <[name := Server.received v]> (Server.fields_of form).
Proof. unfold Server.fields_of, append. now rewrite fold_left_app. Qed.

Lemma fields_of_knob form name n :
  Server.fields_of (append_if_truthy name n form)
  = match n with
    | Some q => if truthy_number n then <[name := Num q]> (Server.fields_of form)
                else Server.fields_of form
    | None => Server.fields_of form
    end.
Proof.
  unfold append_if_truthy. destruct n as [q|]; [|reflexivity].
  destruct (truthy_number (Some q)); [apply fields_of_field|reflexivity].
Qed.

Lemma lookup_knob_other form name n other :
  name <> other ->
  Server.fields_of (append_if_truthy name n form) !! other = Server.fields_of form !! other.
Proof.
  intros Hne. rewrite fields_of_knob. destruct n as [q|]; [|reflexivity].
  destruct (truthy_number (Some q)); [now apply lookup_insert_ne|reflexivity].
Qed.

(** The knob as the server finds it: its number if it was set and not
    zero, else what the form held under the name before. *)
Lemma lookup_knob form name n :
  Server.fields_of (append_if_truthy name n form) !! name
  = match n with
    | Some q => if Qeq_bool q 0 then Server.fields_of form !! name else Some (Num q)
    | None => Server.fields_of form !! name
    end.
Proof.
  rewrite fields_of_knob. destruct n as [q|]; [|reflexivity].
  unfold truthy_number. destruct (Qeq_bool q 0); cbn [negb]; [reflexivity|].
  apply lookup_insert_eq.
Qed.

Lemma build_form_home config blob :
  build_form false config blob
  = append_if_truthy "coquiTemperature" (coqui_knob config)
      (append_if_truthy "piperPitch" (piperPitch config)
         (append_if_truthy "piperSpeed" (piperSpeed config)
            (append_if_truthy "openaiSpeed" (openaiSpeed config)
               (home_core_entries config blob)))).
Proof. reflexivity. Qed.



(** What the server finds under a name of the core entries, whatever
    knobs follow. *)
Lemma home_body_lookup config blob name :
  name <> "openaiSpeed"%string -> name <> "piperSpeed"%string ->
  name <> "piperPitch"%string -> name <> "coquiTemperature"%string ->
  Server.fields_of (build_form false config blob) !! name
  = Server.fields_of (home_core_entries config blob) !! name.
Proof.
  intros N1 N2 N3 N4. rewrite build_form_home.
  rewrite !lookup_knob_other by congruence. reflexivity.
Qed.

(** *** Line breaks of the encoded form *)

Lemma crlf_empty after_cr s :
  Server.crlf after_cr s = ""%string -> s = ""%string \/ after_cr = true.
Proof.
  destruct s as [|c rest]; [now left|]. cbn [Server.crlf].
  destruct (Ascii.eqb c Server.CR); [discriminate|].
  destruct (Ascii.eqb c Server.LF); [|discriminate].
  destruct after_cr; [now right|discriminate].
Qed.

Lemma normalize_newlines_empty s :
  String.eqb (Server.normalize_newlines s) "" = String.eqb s "".
Proof.
  destruct (String.eqb s "") eqn:Hs.
  - apply String.eqb_eq in Hs. now subst.
  - apply String.eqb_neq. intros H. apply crlf_empty in H as [->|]; [|discriminate].
    discriminate.
Qed.

(** A text without CR and LF is sent as it is. *)
Lemma voice_name_normalized v : Server.normalize_newlines (voice_name v) = voice_name v.
Proof. destruct v; reflexivity. Qed.

Lemma ttsProvider_name_normalized config :
  Server.normalize_newlines (sent_ttsProvider config) = sent_ttsProvider config.
Proof. unfold sent_ttsProvider. destruct (ttsProvider config) as [[| |]|]; reflexivity. Qed.

Lemma sent_language_normalized config :
  Server.normalize_newlines (sent_language config) = sent_language config.
Proof. unfold sent_language. destruct (aiLanguage config) as [[|]|]; reflexivity. Qed.

Lemma voice_nonempty config : voice_name (voice config) <> ""%string.
Proof. destruct (voice config); discriminate. Qed.

Lemma ttsProvider_nonempty config : sent_ttsProvider config <> ""%string.
Proof. unfold sent_ttsProvider. destruct (ttsProvider config) as [[| |]|]; discriminate. Qed.

Lemma ttsModel_nonempty config : sent_ttsModel config <> ""%string.
Proof.
  unfold sent_ttsModel. destruct (ttsModel config) as [m|]; [|discriminate].
  destruct (String.eqb m "") eqn:He; [discriminate|now apply String.eqb_neq].
Qed.

Lemma sent_language_nonempty config : sent_language config <> ""%string.
Proof. unfold sent_language. destruct (aiLanguage config) as [[|]|]; discriminate. Qed.

(** *** The [||] chains of the handler *)

Lemma text_or_firebase fb dflt : Server.text_or None fb dflt = firebase_text fb dflt.
Proof.
  unfold Server.text_or, firebase_text, truthy_string. destruct fb as [s|]; [|reflexivity].
  now destruct (String.eqb s "").
Qed.

Lemma text_or_request s fb dflt :
  Server.text_or (Some (Server.received (Str s))) fb dflt = request_text s fb dflt.
Proof.
  unfold request_text. rewrite <- (normalize_newlines_empty s), <- text_or_firebase.
  unfold Server.text_or, Server.truthy_field, Server.received.
  now destruct (String.eqb (Server.normalize_newlines s) "").
Qed.

Lemma text_or_sent s fb dflt :
  s <> ""%string ->
  Server.text_or (Some (Server.received (Str s))) fb dflt
  = Str (Server.normalize_newlines s).
Proof.
  intros Hs. rewrite text_or_request. unfold request_text.
  apply String.eqb_neq in Hs. now rewrite Hs.
Qed.

Lemma number_or_firebase fb dflt : Server.number_or None fb dflt = firebase_number fb dflt.
Proof.
  unfold Server.number_or, firebase_number, truthy_number. destruct fb as [q|]; [|reflexivity].
  now destruct (Qeq_bool q 0).
Qed.

Lemma number_or_request n fb dflt :
  Server.number_or n fb dflt = request_number n fb dflt.
Proof.
  unfold request_number. rewrite <- number_or_firebase.
  unfold Server.number_or, truthy_number. destruct n as [q|]; [|reflexivity].
  now destruct (Qeq_bool q 0).
Qed.

(** The knob the server parses is the knob of the configuration when it
    was sent, and nothing otherwise. *)
Lemma parsed_knob n :
  request_number
    (Server.parsed match n with
                   | Some q => if Qeq_bool q 0 then None else Some (Num q)
                   | None => None
                   end)
  = request_number n.
Proof.
  destruct n as [q|]; [|reflexivity].
  unfold request_number, Server.parsed. destruct (Qeq_bool q 0) eqn:Hq; [reflexivity|].
  cbn. now rewrite Hq.
Qed.

Lemma clamped_zero t : Qeq_bool (Qmax 0 (Qmin 2 t)) 0 = Qle_bool t 0.
Proof.
  destruct (Qle_bool t 0) eqn:Ht.
  - apply Qle_bool_iff in Ht. apply Qeq_bool_iff.
    rewrite (Q.min_r 2 t) by lra. now apply Q.max_l.
  - apply not_true_iff_false. rewrite Qeq_bool_iff. intros Heq.
    assert (Hpos : (0 < t)%Q).
    { apply Qnot_le_lt. intros Hle. apply Qle_bool_iff in Hle. congruence. }
    assert (Hmin : (0 < Qmin 2 t)%Q) by (apply Q.min_glb_lt; [reflexivity|exact Hpos]).
    pose proof (Q.le_max_r 0 (Qmin 2 t)) as Hle. lra.
Qed.

Lemma temperature_request t fb :
  Server.number_or (Server.parsed_temperature (Some (Num t))) fb 0.7
  = request_temperature t fb.
Proof.
  unfold request_temperature. rewrite <- clamped_zero, number_or_request.
  reflexivity.
Qed.

(** A knob as the server finds it: its number if it is set and not
    zero, nothing otherwise. *)
Lemma home_knob_lookup config blob :
  let found (n : option Q) :=
    match n with
    | Some q => if Qeq_bool q 0 then None else Some (Num q)
    | None => None
    end in
  let body := Server.fields_of (build_form false config blob) in
  body !! "openaiSpeed"%string = found (openaiSpeed config) /\
  body !! "piperSpeed"%string = found (piperSpeed config) /\
  body !! "piperPitch"%string = found (piperPitch config) /\
  body !! "coquiTemperature"%string = found (coqui_knob config).
Proof.
  cbv zeta. rewrite build_form_home. repeat split.
  - rewrite !lookup_knob_other by discriminate. rewrite lookup_knob.
    now destruct (openaiSpeed config) as [q|]; [destruct (Qeq_bool q 0)|].
  - rewrite !lookup_knob_other by discriminate. rewrite lookup_knob.
    rewrite !lookup_knob_other by discriminate.
    now destruct (piperSpeed config) as [q|]; [destruct (Qeq_bool q 0)|].
  - rewrite !lookup_knob_other by discriminate. rewrite lookup_knob.
    rewrite !lookup_knob_other by discriminate.
    now destruct (piperPitch config) as [q|]; [destruct (Qeq_bool q 0)|].
  - rewrite lookup_knob. rewrite !lookup_knob_other by discriminate.
    now destruct (coqui_knob config) as [q|]; [destruct (Qeq_bool q 0)|].
Qed.


(** The configuration of an upload from any other route. *)
Lemma resolve_home config blob fb :
  Server.resolve_config (Server.fields_of (build_form false config blob)) fb
  = home_config config fb.
Proof.
  pose proof (sent_language_nonempty config) as Hl.
  unfold Server.resolve_config, home_config.
  rewrite !(home_body_lookup config blob) by discriminate.
  change (Server.fields_of (home_core_entries config blob) !! "language"%string)
    with (Some (Server.received (Str (sent_language config)))).
  change (Server.fields_of (home_core_entries config blob) !! "systemPrompt"%string)
    with (Some (Server.received (Str (systemPrompt config)))).
  change (Server.fields_of (home_core_entries config blob) !! "temperature"%string)
    with (Some (Num (temperature config))).
  change (Server.fields_of (home_core_entries config blob) !! "voice"%string)
    with (Some (Server.received (Str (voice_name (voice config))))).
  rewrite (text_or_sent (sent_language config)) by exact Hl.
  rewrite sent_language_normalized.
  cbn [Server.is_en]. fold (default_prompt (sent_language config)).
  rewrite text_or_request, temperature_request.
  rewrite (text_or_sent (voice_name (voice config))) by apply voice_nonempty.
  rewrite voice_name_normalized.
  assert (Hprov : Server.fields_of (home_core_entries config blob) !! "ttsProvider"%string
                  = Some (Server.received (Str (sent_ttsProvider config)))) by reflexivity.
  assert (Hmodel : Server.fields_of (home_core_entries config blob) !! "ttsModel"%string
                   = Some (Server.received (Str (sent_ttsModel config)))).
  { unfold sent_ttsModel, home_core_entries, truthy_string.
    destruct (ttsModel config) as [m|]; [|reflexivity].
    now destruct (String.eqb m ""). }
  rewrite Hprov, Hmodel.
  rewrite (text_or_sent (sent_ttsProvider config)) by apply ttsProvider_nonempty.
  rewrite ttsProvider_name_normalized.
  rewrite (text_or_sent (sent_ttsModel config)) by apply ttsModel_nonempty.
  rewrite !number_or_request.
  destruct (home_knob_lookup config blob) as (K1 & K2 & K3 & K4).
  cbv zeta in K1, K2, K3, K4. rewrite K1, K2, K3, K4, !parsed_knob. reflexivity.
Qed.

(** *** What multer lets through *)







Lemma file_of_build_form dev config blob :
  Server.file_of (build_form dev config blob)
  = Some (Server.received_file blob "utterance.webm").
Proof.
  destruct (build_form_audio_first dev config blob) as [rest ->]. reflexivity.
Qed.



(** With the default configuration, where every field is set, nothing of
    the Firebase settings reaches the resolved configuration. *)
Lemma default_config_takes_priority blob fb1 fb2 :
  let req := Server.multipart (build_form (isDevRoute "/") DEFAULT_CONFIG blob) in
  Server.resolve_config (Server.req_body req) fb1
  = Server.resolve_config (Server.req_body req) fb2.
Proof.
  cbv zeta. change (isDevRoute "/") with false. cbn [Server.multipart Server.req_body].
  rewrite !resolve_home. vm_compute. reflexivity.
Qed.

(** A request temperature of [0] is sent as ["0"], parsed and clamped to
    [0], and then passed over by the [||] chain: the Firebase temperature
    is used. *)
Lemma request_temperature_zero_is_passed_over :
  Server.temperature
    (Server.resolve_config (<["temperature"%string := Num 0]> ∅) Server.DEFAULT_CONFIG)
  = 0.8%Q.
Proof. reflexivity. Qed.

(** A prompt of two lines reaches the server with CR LF between them. *)
Lemma multiline_prompt_is_rewritten :
  Server.fields_of [("systemPrompt"%string, Field (Str ("a" +:+ String Server.LF "b")))]
    !! "systemPrompt"%string
  = Some (Str ("a" +:+ String Server.CR (String Server.LF "b"))).
Proof. reflexivity. Qed.

(** The recorder's blob of type ['audio/webm;codecs=opus'] is reported
    with the media type ['audio/webm']. *)
Lemma codecs_parameter_is_dropped bytes :
  Server.received_file {| blob_bytes := bytes; blob_type := "audio/webm;codecs=opus" |}
    "utterance.webm"
  = {| Server.buffer := bytes; Server.mimetype := "audio/webm";
       Server.originalname := "utterance.webm" |}.
Proof. reflexivity. Qed.




End UploadProps.

(** ** The VAD loop over a session *)

Module VadSessionProps.

Import JS JSFacts Types Dom Hook VadSpec SessionSpec VadProps.
Open Scope Q_scope.

Lemma outside_vad_refl h : outside_vad h h.
Proof. unfold outside_vad. easy. Qed.

Lemma outside_vad_trans h1 h2 h3 :
  outside_vad h1 h2 -> outside_vad h2 h3 -> outside_vad h1 h3.
Proof.
  unfold outside_vad. intros H1 H2.
  repeat match goal with H : _ /\ _ |- _ => destruct H end.
  repeat split; congruence.
Qed.

Lemma startRecorder_outside h : outside_vad h (startRecorder h).
Proof.
  unfold startRecorder.
  destruct (mediaStreamRef h) eqn:Hm; [|apply outside_vad_refl].
  destruct (recorder_not_inactive h); [apply outside_vad_refl|].
  refs_cbn. rewrite Hm.
  destruct (processedStreamRef h) eqn:Hp; unfold outside_vad; refs_cbn;
    rewrite ?Hm, ?Hp; easy.
Qed.

Lemma stopRecorder_outside h : outside_vad h (stopRecorder h).
Proof.
  unfold stopRecorder.
  destruct (recorderRef h) as [id|]; [|apply outside_vad_refl].
  destruct (recorder_not_inactive h); [|apply outside_vad_refl].
  unfold MediaRecorder_stop.
  destruct (recorders (browser h) !! id) as [r|]; [|unfold outside_vad; refs_cbn; easy].
  destruct (rec_state r); unfold outside_vad; refs_cbn; easy.
Qed.

Lemma gate_to_outside tgt tc h :
  outside_vad h (gate_to tgt tc h) /\ state (gate_to tgt tc h) = state h.
Proof.
  unfold gate_to.
  destruct (gateGainRef h) eqn:Hg; [|split; [apply outside_vad_refl|easy]].
  destruct (audioContextRef h) eqn:Ha; [|split; [apply outside_vad_refl|easy]].
  unfold outside_vad; refs_cbn. rewrite ?Hg, ?Ha. easy.
Qed.

Lemma set_cells_outside h nf vs sp lv st :
  outside_vad h (set_noiseFloorRef nf h) /\
  outside_vad h (set_vadVoiceStateRef vs h) /\
  outside_vad h (set_speakingRef sp h) /\
  outside_vad h (set_lastVoiceMsRef lv h) /\
  outside_vad h (set_state st h).
Proof. unfold outside_vad. refs_cbn. easy. Qed.

Ltac outside_step :=
  match goal with
  | |- outside_vad ?h ?h => apply outside_vad_refl
  | |- outside_vad ?h (startRecorder ?x) =>
      apply (outside_vad_trans h x); [|apply startRecorder_outside]
  | |- outside_vad ?h (stopRecorder ?x) =>
      apply (outside_vad_trans h x); [|apply stopRecorder_outside]
  | |- outside_vad ?h (gate_to ?a ?b ?x) =>
      apply (outside_vad_trans h x); [|apply gate_to_outside]
  | |- outside_vad ?h (set_noiseFloorRef ?v ?x) =>
      apply (outside_vad_trans h x); [|apply (set_cells_outside x v true true 0 AppState.idle)]
  | |- outside_vad ?h (set_vadVoiceStateRef ?v ?x) =>
      apply (outside_vad_trans h x); [|apply (set_cells_outside x 0 v true 0 AppState.idle)]
  | |- outside_vad ?h (set_speakingRef ?v ?x) =>
      apply (outside_vad_trans h x); [|apply (set_cells_outside x 0 true v 0 AppState.idle)]
  | |- outside_vad ?h (set_lastVoiceMsRef ?v ?x) =>
      apply (outside_vad_trans h x); [|apply (set_cells_outside x 0 true true v AppState.idle)]
  | |- outside_vad ?h (set_state ?v ?x) =>
      apply (outside_vad_trans h x); [|apply (set_cells_outside x 0 true true 0 v)]
  | |- outside_vad ?h (if ?c then _ else _) => destruct c
  end.

(** A tick leaves everything outside the VAD loop as it was. *)
Lemma vadTick_outside config rms now h : outside_vad h (vadTick config rms now h).
Proof.
  unfold vadTick. cbv zeta. repeat outside_step.
Qed.

(** X1. Whatever the ticks of the VAD interval measure, the loop touches
    only the VAD cells, the recorder and the gate: the audio elements, the
    requests sent, the microphone tracks, the timers and animation frames,
    the references to stream, context, analyser and gain nodes, the
    playback reference, the connection state, the error and the displayed
    level are after any number of ticks what they were before. *)
Theorem vad_loop_leaves_playback_alone (config : AppConfig) (ticks : list (Q * Q)) :
  forall h, outside_vad h (vadRun config ticks h).
Proof.
  induction ticks as [|t ticks IH]; intros h; [apply outside_vad_refl|].
  change (vadRun config (t :: ticks) h)
    with (vadRun config ticks (vadTick config (fst t) (snd t) h)).
  eapply outside_vad_trans; [apply vadTick_outside|apply IH].
Qed.

(** A tick that is not voice, outside an utterance: the floor is
    updated and the gate closes; nothing else happens. *)
Lemma vadTick_idle config rms now h :
  isVoice config rms h = false -> speakingRef h = false ->
  vadTick config rms now h
  = gate_to 0.04 0.08
      (if vadVoiceStateRef h then h else set_noiseFloorRef (nextNoiseFloor rms h) h).
Proof.
  unfold vadTick, isVoice, nextNoiseFloor.
  destruct (vadVoiceStateRef h) eqn:Hv; refs_cbn; rewrite ?Hv;
    intros Hi Hs; rewrite Hi; refs_cbn; rewrite Hs; reflexivity.
Qed.

(** A voice tick outside an utterance: speech start. *)
Lemma vadTick_speech_start config rms now h :
  isVoice config rms h = true -> speakingRef h = false ->
  vadTick config rms now h
  = startRecorder
      (set_state AppState.listening
         (set_vadVoiceStateRef true
            (set_speakingRef true
               (gate_to 1.0 0.015
                  (set_lastVoiceMsRef now
                     (if vadVoiceStateRef h then h
                      else set_noiseFloorRef (nextNoiseFloor rms h) h)))))).
Proof.
  unfold vadTick, isVoice, nextNoiseFloor.
  destruct (vadVoiceStateRef h) eqn:Hv; refs_cbn; rewrite ?Hv;
    intros Hi Hs; rewrite Hi;
    match goal with |- context [gate_to ?a ?b ?x] =>
      pose proof (gate_to_refs a b x) as (_ & _ & G3 & _) end;
    refs_cbn; rewrite G3, Hs; reflexivity.
Qed.

Lemma gate_to_state tgt tc h : state (gate_to tgt tc h) = state h.
Proof. apply gate_to_outside. Qed.

Lemma startRecorder_active h :
  is_Some (mediaStreamRef h) -> recorder_not_inactive (startRecorder h) = true.
Proof.
  intros [stream Hm].
  destruct (recorder_not_inactive h) eqn:Hr.
  - unfold startRecorder. now rewrite Hm, Hr.
  - pose proof (UploadProps.startRecorder_starts h stream Hm Hr) as (A & B & _).
    cbv zeta in *. unfold recorder_not_inactive. now rewrite A, B.
Qed.

(** The tick that starts an utterance. *)
Lemma speech_start_effects (config : AppConfig) (rms now : Q) (h : Hook) :
  vadVoiceStateRef h = false -> speakingRef h = false ->
  let h' := vadTick config rms now h in
  speakingRef h' = true ->
  vadVoiceStateRef h' = true /\
  lastVoiceMsRef h' = now /\
  state h' = AppState.listening /\
  (is_Some (mediaStreamRef h) -> recorder_not_inactive h' = true) /\
  (is_Some (mediaStreamRef h) -> recorder_not_inactive h = false ->
     chunksRef h' = [] /\
     recorderRef h' = Some (fresh (dom (recorders (browser h))))).
Proof.
  intros Hv Hs h'.
  pose proof (vadTick_cells config rms now h) as (Hnf & Hl & Hsp & Hvs).
  cbv zeta in Hnf, Hl, Hsp, Hvs. fold h' in Hnf, Hl, Hsp, Hvs.
  rewrite Hs in Hsp, Hvs.
  intros Hs'. rewrite Hsp in Hs'.
  destruct (isVoice config rms h) eqn:Hiv; [|discriminate].
  split; [exact Hvs|]. split; [exact Hl|].
  assert (E := vadTick_speech_start config rms now h Hiv Hs). fold h' in E.
  rewrite Hv in E.
  match type of E with _ = startRecorder ?x =>
    set (x0 := x) in *;
    assert (X1 : state x0 = AppState.listening) by reflexivity;
    assert (X2 : mediaStreamRef x0 = mediaStreamRef h)
      by (unfold x0; refs_cbn;
          match goal with |- context [gate_to ?a ?b ?y] =>
            pose proof (gate_to_outside a b y) as (O & _) end;
          unfold outside_vad in O; tauto);
    assert (X3 : recorder_not_inactive x0 = recorder_not_inactive h)
      by (unfold x0, recorder_not_inactive; refs_cbn;
          match goal with |- context [gate_to ?a ?b ?y] =>
            pose proof (gate_to_refs a b y) as (_ & _ & _ & _ & _ & G6 & G7) end;
          rewrite G6, G7; reflexivity);
    assert (X4 : recorders (browser x0) = recorders (browser h))
      by (unfold x0; refs_cbn;
          match goal with |- context [gate_to ?a ?b ?y] =>
            pose proof (gate_to_refs a b y) as (_ & _ & _ & _ & _ & _ & G7) end;
          rewrite G7; reflexivity)
  end.
  clearbody x0. rewrite E.
  split.
  { unfold startRecorder. destruct (mediaStreamRef x0) eqn:Hm; [|exact X1].
    destruct (recorder_not_inactive x0); [exact X1|].
    refs_cbn. rewrite Hm. destruct (processedStreamRef x0); exact X1. }
  split.
  { intros Hm. apply startRecorder_active. now rewrite X2. }
  intros [stream Hm] Hr.
  rewrite <- X2 in Hm. rewrite <- X3 in Hr.
  pose proof (UploadProps.startRecorder_starts x0 stream Hm Hr) as (A & _ & C & _).
  cbv zeta in A. rewrite X4 in A. split; [exact C|exact A].
Qed.

Lemma one_recorder_ext h h' :
  recorderRef h' = recorderRef h ->
  recorders (browser h') = recorders (browser h) ->
  one_recorder h -> one_recorder h'.
Proof. unfold one_recorder. intros -> ->. easy. Qed.

Lemma startRecorder_one h : one_recorder h -> one_recorder (startRecorder h).
Proof.
  intros Hone. unfold startRecorder.
  destruct (mediaStreamRef h) as [stream|] eqn:Hm; [|exact Hone].
  destruct (recorder_not_inactive h) eqn:Hr; [exact Hone|].
  refs_cbn. rewrite Hm.
  assert (Hall : forall id r, recorders (browser h) !! id = Some r ->
                   rec_state r = inactive).
  { intros id r Hl. destruct (rec_state r) eqn:Hst; [reflexivity| |].
    - assert (Href : recorderRef h = Some id) by (apply (Hone id r Hl); congruence).
      unfold recorder_not_inactive in Hr. rewrite Href, Hl, Hst in Hr. discriminate.
    - assert (Href : recorderRef h = Some id) by (apply (Hone id r Hl); congruence).
      unfold recorder_not_inactive in Hr. rewrite Href, Hl, Hst in Hr. discriminate. }
  assert (Hgoal : forall s : MediaStream, one_recorder
    (set_browser
       (set_recorders
          (<[fresh (dom (recorders (browser h))) :=
               {| rec_state := recording;
                  mimeType := if opusSupported (browser h)
                              then "audio/webm;codecs=opus"%string
                              else "audio/webm"%string |}]> (recorders (browser h)))
          (browser h))
       (set_recorderRef (Some (fresh (dom (recorders (browser h))))) (set_chunksRef [] h)))).
  { intros _ id r. refs_cbn. intros Hl Hst.
    destruct (decide (fresh (dom (recorders (browser h))) = id)) as [->|Hne];
      [reflexivity|].
    rewrite lookup_insert_ne in Hl by exact Hne.
    apply Hall in Hl. contradiction. }
  destruct (processedStreamRef h) as [s|]; [apply (Hgoal s)|apply (Hgoal stream)].
Qed.

Lemma stopRecorder_one h : one_recorder h -> one_recorder (stopRecorder h).
Proof.
  intros Hone. unfold stopRecorder.
  destruct (recorderRef h) as [id|] eqn:Href; [|exact Hone].
  destruct (recorder_not_inactive h); [|exact Hone].
  unfold MediaRecorder_stop.
  destruct (recorders (browser h) !! id) as [r|] eqn:Hl;
    [|apply (one_recorder_ext h); [reflexivity..|exact Hone]].
  destruct (rec_state r) eqn:Hst;
    [apply (one_recorder_ext h); [reflexivity..|exact Hone]| |];
    (intros id' r'; refs_cbn; rewrite Href;
     destruct (decide (id = id')) as [->|Hne];
     [reflexivity|rewrite lookup_insert_ne by exact Hne; intros Hl' Hst';
      rewrite <- Href; now apply (Hone id' r')]).
Qed.

Lemma vadTick_one config rms now h : one_recorder h -> one_recorder (vadTick config rms now h).
Proof.
  intros Hone. unfold vadTick. cbv zeta.
  repeat match goal with
  | |- one_recorder (startRecorder _) => apply startRecorder_one
  | |- one_recorder (stopRecorder _) => apply stopRecorder_one
  | |- one_recorder (gate_to ?a ?b ?x) =>
      apply (one_recorder_ext x);
      [apply (gate_to_refs a b x)|apply (gate_to_refs a b x)|]
  | |- one_recorder (if ?c then _ else _) => destruct c
  | |- one_recorder (set_noiseFloorRef _ ?x) => apply (one_recorder_ext x); [reflexivity..|]
  | |- one_recorder (set_vadVoiceStateRef _ ?x) => apply (one_recorder_ext x); [reflexivity..|]
  | |- one_recorder (set_speakingRef _ ?x) => apply (one_recorder_ext x); [reflexivity..|]
  | |- one_recorder (set_lastVoiceMsRef _ ?x) => apply (one_recorder_ext x); [reflexivity..|]
  | |- one_recorder (set_state _ ?x) => apply (one_recorder_ext x); [reflexivity..|]
  end; exact Hone.
Qed.

Lemma vadRun_one config ticks : forall h, one_recorder h -> one_recorder (vadRun config ticks h).
Proof.
  induction ticks as [|t ticks IH]; intros h Hone; [exact Hone|].
  change (vadRun config (t :: ticks) h)
    with (vadRun config ticks (vadTick config (fst t) (snd t) h)).
  apply IH. now apply vadTick_one.
Qed.

(** *** Playback touches the audio elements only *)

Lemma only_audios_refl b : only_audios b b.
Proof. unfold only_audios. easy. Qed.

Lemma only_audios_trans b1 b2 b3 :
  only_audios b1 b2 -> only_audios b2 b3 -> only_audios b1 b3.
Proof.
  unfold only_audios. intros H1 H2.
  repeat match goal with H : _ /\ _ |- _ => destruct H end.
  repeat split; congruence.
Qed.

Lemma update_audio_only id f b : only_audios b (Playback.update_audio id f b).
Proof. unfold only_audios. now cbn. Qed.

Lemma play_only w id b : only_audios b (try_catch (Playback.play w id b)).
Proof.
  unfold Playback.play. destruct (audios b !! id) as [a|]; [|apply only_audios_refl].
  destruct (Playback.play_rejects w (muted a)); [apply only_audios_refl|].
  apply update_audio_only.
Qed.

Lemma play_unlocking_only w id b : only_audios b (Playback.play_unlocking w id b).
Proof.
  unfold Playback.play_unlocking.
  pose proof (play_only w id b) as P1.
  destruct (Playback.play w id b) as [b1|e b1]; cbn [try_catch] in P1; [exact P1|].
  set (b2 := Playback.update_audio id (Playback.with_muted true) b1).
  pose proof (play_only w id b2) as P2.
  assert (O2 : only_audios b b2)
    by (eapply only_audios_trans; [exact P1|apply update_audio_only]).
  destruct (Playback.play w id b2) as [b3|e' b3]; cbn [try_catch] in P2.
  - eapply only_audios_trans; [|apply update_audio_only].
    eapply only_audios_trans; eassumption.
  - eapply only_audios_trans; eassumption.
Qed.

Lemma fallbackToBlob_only w pre s b :
  only_audios b (snd (Playback.fallbackToBlob w pre (s, b))).
Proof.
  unfold Playback.fallbackToBlob.
  destruct pre as [blob|]; [|destruct (Playback.resp_blob s) as [blob|]];
    cbn [snd]; try apply only_audios_refl;
    (eapply only_audios_trans; [apply update_audio_only|apply play_unlocking_only]).
Qed.

Lemma tryStream_only w resp a b : only_audios b (snd (Playback.tryStream w resp a b)).
Proof.
  unfold Playback.tryStream.
  destruct (negb (Playback.canUseMSE w resp)); [apply fallbackToBlob_only|].
  unfold Playback.streaming_start. cbn [snd]. apply update_audio_only.
Qed.

End VadSessionProps.

(** ** The session *)

Module SessionProps.

Import JS JSFacts Types Dom Playback Hook VadSpec SessionSpec Session VadProps VadSessionProps.
Open Scope Q_scope.

Ltac ses_cbn :=
  cbn -[Qplus Qmult Qminus Qdiv Qopp Qle_bool Qeq_bool Qmax Qmin gt ge fresh insert lookup
        union singleton difference dom AudioLevel.computeAudioLevelAndVad] in *.

(** *** What [startConversation] leaves alone *)

Lemma startConversation_catch_frame t err h :
  let h' := startConversation_catch t err h in
  browser h' = browser h /\
  recorderRef h' = recorderRef h /\ chunksRef h' = chunksRef h /\
  noiseFloorRef h' = noiseFloorRef h /\ vadVoiceStateRef h' = vadVoiceStateRef h /\
  speakingRef h' = speakingRef h /\ lastVoiceMsRef h' = lastVoiceMsRef h /\
  mediaStreamRef h' = mediaStreamRef h /\ audioContextRef h' = audioContextRef h /\
  rafRef h' = rafRef h /\ vadIntervalRef h' = vadIntervalRef h /\
  activeAudioRef h' = activeAudioRef h /\
  state h' = AppState.error /\ connectionState h' = ConnectionState.error.
Proof.
  unfold startConversation_catch.
  destruct (isDOMException err && String.eqb (name err) "NotAllowedError"); ses_cbn; easy.
Qed.

Lemma startConversation_recorders Math_sqrt t config rt h :
  let h' := startConversation Math_sqrt t config rt h in
  recorderRef h' = recorderRef h /\
  recorders (browser h') = recorders (browser h) /\
  chunksRef h' = chunksRef h /\
  noiseFloorRef h' = noiseFloorRef h /\
  vadVoiceStateRef h' = vadVoiceStateRef h /\
  audios (browser h') = audios (browser h) /\
  fetches (browser h') = fetches (browser h) /\
  activeAudioRef h' = activeAudioRef h.
Proof.
  unfold startConversation. cbv zeta.
  destruct (getUserMedia rt) as [stream|err].
  - match goal with |- context [match ?c with inl _ => _ | inr _ => _ end] =>
      destruct c as [err|ctx] eqn:Hctx end.
    + match goal with |- context [startConversation_catch ?a ?b ?c] =>
        pose proof (startConversation_catch_frame a b c) as F end.
      cbv zeta in F. destruct F as (F0 & F1 & F2 & F3 & F4 & _ & _ & _ & _ & _ & _ & F5 & _).
      rewrite F0, F1, F2, F3, F4, F5. ses_cbn. easy.
    + destruct (createMediaStreamSource_throws rt) as [err|].
      * match goal with |- context [startConversation_catch ?a ?b ?c] =>
          pose proof (startConversation_catch_frame a b c) as F end.
        cbv zeta in F. destruct F as (F0 & F1 & F2 & F3 & F4 & _ & _ & _ & _ & _ & _ & F5 & _).
        rewrite F0, F1, F2, F3, F4, F5. ses_cbn. easy.
      * unfold startConversation_graph. ses_cbn. easy.
  - match goal with |- context [startConversation_catch ?a ?b ?c] =>
      pose proof (startConversation_catch_frame a b c) as F end.
    cbv zeta in F. destruct F as (F0 & F1 & F2 & F3 & F4 & _ & _ & _ & _ & _ & _ & F5 & _).
    rewrite F0, F1, F2, F3, F4, F5. ses_cbn. easy.
Qed.

(** X3. When [getUserMedia] rejects, [startConversation] ends in the
    state ['error'] with connection state ['error']; the error is of type
    ['microphone'] with the text of ['error.microphone'] exactly when the
    rejection is a [DOMException] named ['NotAllowedError'], and of type
    ['general'] otherwise.  Nothing was acquired: the browser, the stream
    reference, the animation frame, the interval and the recorder are
    untouched. *)
Theorem startConversation_denied (Math_sqrt : Q -> Q) (t : string -> string)
    (config : AppConfig) (rt : Runtime) (h : Hook) (err : Exception) :
  getUserMedia rt = Denied err ->
  let h' := startConversation Math_sqrt t config rt h in
  state h' = AppState.error /\
  connectionState h' = ConnectionState.error /\
  error h'
  = Some (if isDOMException err && String.eqb (name err) "NotAllowedError"
          then {| type := ErrorType.microphone; message := t "error.microphone" |}
          else {| type := ErrorType.general; message := t "error.general" |}) /\
  ((exists e, error h' = Some e /\ type e = ErrorType.microphone) <->
     isDOMException err = true /\ name err = "NotAllowedError"%string) /\
  browser h' = browser h /\
  mediaStreamRef h' = mediaStreamRef h /\
  rafRef h' = rafRef h /\
  vadIntervalRef h' = vadIntervalRef h /\
  recorderRef h' = recorderRef h.
Proof.
  intros Hd h'. unfold h', startConversation. cbv zeta. rewrite Hd.
  unfold startConversation_catch.
  assert (Hc : isDOMException err && String.eqb (name err) "NotAllowedError" = true <->
               isDOMException err = true /\ name err = "NotAllowedError"%string).
  { rewrite andb_true_iff, String.eqb_eq. reflexivity. }
  destruct (isDOMException err && String.eqb (name err) "NotAllowedError"); ses_cbn.
  - split; [reflexivity|]. split; [reflexivity|]. split; [reflexivity|].
    split; [|easy]. split; [intros _; now apply Hc|]. intros _. now eexists.
  - split; [reflexivity|]. split; [reflexivity|]. split; [reflexivity|].
    split; [|easy]. split.
    + intros (e & [= <-] & He). discriminate.
    + intros H. apply Hc in H. discriminate.
Qed.

Lemma startConversation_denied_witness :
  let rt := {| getUserMedia := Denied {| isDOMException := true; name := "NotAllowedError" |};
               new_AudioContext := inr 0%nat; createMediaStreamSource_throws := None;
               analyser_data := []; performance_now := 0 |} in
  let h' := startConversation Examples.sqrt6 (fun key => key) Examples.DEFAULT_CONFIG rt
              (initial Examples.browser0) in
  state h' = AppState.error /\
  error h' = Some {| type := ErrorType.microphone; message := "error.microphone" |} /\
  browser h' = Examples.browser0.
Proof.
  intros rt h'.
  destruct (startConversation_denied Examples.sqrt6 (fun key => key) Examples.DEFAULT_CONFIG
              rt (initial Examples.browser0) _ eq_refl) as (A & _ & B & _ & C & _).
  split; [exact A|]. split; [exact B|exact C].
Defined.

(** *** A granted microphone *)

Lemma grant_tracks l : forall (m : gmap nat TrackState) (tr : nat),
  fold_left (fun m t => <[t := live]> m) l m !! tr
  = if bool_decide (tr ∈ l) then Some live else m !! tr.
Proof.
  induction l as [|x l IH]; intros m tr; cbn [fold_left].
  - rewrite bool_decide_eq_false_2 by set_solver. reflexivity.
  - rewrite IH. destruct (decide (tr ∈ l)) as [Hin|Hin].
    + rewrite !bool_decide_eq_true_2 by set_solver. reflexivity.
    + rewrite (bool_decide_eq_false_2 (tr ∈ l)) by exact Hin.
      destruct (decide (tr = x)) as [->|Hne].
      * rewrite lookup_insert_eq, bool_decide_eq_true_2 by set_solver. reflexivity.
      * rewrite lookup_insert_ne by congruence.
        rewrite bool_decide_eq_false_2 by set_solver. reflexivity.
Qed.

Lemma micGain_target_range config : 0.5 <= micGain_target config /\ micGain_target config <= 3.0.
Proof.
  unfold micGain_target. split.
  - apply Q.le_max_l.
  - apply Q.max_lub; [apply Qle_bool_imp_le; reflexivity|apply Q.le_min_l].
Qed.

Lemma startConversation_built Math_sqrt t config rt h stream ctx :
  getUserMedia rt = Granted stream ->
  match audioContextRef h with
  | Some c => c = ctx
  | None => new_AudioContext rt = inr ctx
  end ->
  createMediaStreamSource_throws rt = None ->
  startConversation Math_sqrt t config rt h
  = startConversation_graph Math_sqrt config rt
      (set_audioContextRef (Some ctx)
         (set_mediaStreamRef (Some stream)
            (set_browser (grant stream (browser h))
               (set_connectionState ConnectionState.connecting
                  (set_state AppState.connecting (set_error None h)))))).
Proof.
  intros Hg Hctx Hsrc. unfold startConversation. cbv zeta. rewrite Hg.
  cbn [audioContextRef set_mediaStreamRef set_browser set_connectionState set_state set_error].
  destruct (audioContextRef h) as [c|]; [subst c|rewrite Hctx]; now rewrite Hsrc.
Qed.

Lemma startConversation_session (Math_sqrt : Q -> Q) (t : string -> string)
    (config : AppConfig) (rt : Runtime) (h : Hook) (stream : MediaStream) (ctx : nat) :
  getUserMedia rt = Granted stream ->
  match audioContextRef h with
  | Some c => c = ctx
  | None => new_AudioContext rt = inr ctx
  end ->
  createMediaStreamSource_throws rt = None ->
  let h' := startConversation Math_sqrt t config rt h in
  (state h' = AppState.listening /\
   connectionState h' = ConnectionState.connected /\
   error h' = None) /\
  (mediaStreamRef h' = Some stream /\
   audioContextRef h' = Some ctx /\
   analyserRef h'
   = Some {| AudioLevel.fftSize := 1024; AudioLevel.byteTimeDomainData := analyser_data rt |} /\
   forall tr, tr ∈ getTracks stream -> tracks (browser h') !! tr = Some live) /\
  (speakingRef h' = false /\ lastVoiceMsRef h' = performance_now rt) /\
  (exists raf, rafRef h' = Some raf /\
     raf ∈ animationFrames (browser h') /\ raf ∉ animationFrames (browser h)) /\
  (exists iv, vadIntervalRef h' = Some iv /\
     iv ∈ intervals (browser h') /\ iv ∉ intervals (browser h)) /\
  (exists pre gate,
     preGainRef h' = Some pre /\ gateGainRef h' = Some gate /\ pre <> gate /\
     gainParams (browser h') !! pre
     = Some {| target := micGain_target config; timeConstant := 0 |} /\
     gainParams (browser h') !! gate = Some {| target := 1.0; timeConstant := 0 |} /\
     0.5 <= micGain_target config /\ micGain_target config <= 3.0) /\
  (exists tr, processedStreamRef h' = Some {| getTracks := [tr] |} /\
     tracks (browser h') !! tr = Some live /\ tr ∉ getTracks stream) /\
  (noiseFloorRef h' = noiseFloorRef h /\ vadVoiceStateRef h' = vadVoiceStateRef h /\
   recorderRef h' = recorderRef h /\ recorders (browser h') = recorders (browser h)).
Proof.
  intros Hg Hctx Hsrc h'. unfold h'.
  rewrite (startConversation_built Math_sqrt t config rt h stream ctx Hg Hctx Hsrc).
  unfold startConversation_graph, createGain, createMediaStreamDestination, setInterval,
    monitorAudio_tick, requestAnimationFrame, grant.
  ses_cbn.
  set (m' := fold_left (fun (m : gmap nat TrackState) (t0 : nat) => <[t0 := live]> m)
                (getTracks stream) (tracks (browser h))).
  assert (Hgranted : forall tr, tr ∈ getTracks stream -> m' !! tr = Some live).
  { intros tr Hin. unfold m'. rewrite grant_tracks.
    now rewrite bool_decide_eq_true_2 by exact Hin. }
  assert (Hfresh : forall tr, tr ∈ getTracks stream -> fresh (dom m') <> tr).
  { intros tr Hin Heq. pose proof (is_fresh (dom m')) as Hf.
    rewrite Heq in Hf. apply Hf. apply elem_of_dom. rewrite (Hgranted tr Hin). now eexists. }
  split; [easy|]. split.
  { split; [reflexivity|]. split; [reflexivity|]. split; [reflexivity|].
    intros tr Hin. rewrite lookup_insert_ne by (now apply Hfresh). now apply Hgranted. }
  split; [easy|]. split.
  { eexists. split; [reflexivity|]. split; [set_solver|apply is_fresh]. }
  split.
  { eexists. split; [reflexivity|]. split; [set_solver|apply is_fresh]. }
  split.
  { set (gp := gainParams (browser h)).
    set (pre := fresh (dom gp)).
    set (gp1 := <[pre := {| target := micGain_target config; timeConstant := 0 |}]> gp).
    assert (Hne : fresh (dom gp1) <> pre).
    { intros Heq. pose proof (is_fresh (dom gp1)) as Hf. rewrite Heq in Hf.
      apply Hf. unfold gp1. rewrite dom_insert. set_solver. }
    exists pre, (fresh (dom gp1)).
    split; [reflexivity|]. split; [reflexivity|]. split; [congruence|].
    split; [rewrite lookup_insert_ne by exact Hne; unfold gp1; apply lookup_insert_eq|].
    split; [apply lookup_insert_eq|]. apply micGain_target_range. }
  split.
  { eexists. split; [reflexivity|]. split; [apply lookup_insert_eq|].
    intros Hin. now apply (Hfresh _ Hin). }
  easy.
Qed.

(** X4. When [getUserMedia] grants a stream, an audio context exists
    or can be built and the source node can be created,
    [startConversation] ends listening and connected with no error; the
    stream is referenced and its tracks are live; the analyser has
    [fftSize] 1024; a new animation frame and a new interval are
    pending; the pre-amplifier and the gate are two distinct new gain
    nodes, set to the clamped microphone gain and to 1; the processed
    stream has one new live track that is not one of the microphone's;
    [speakingRef] is false and [lastVoiceMsRef] is the time of the start.
    The noise floor, the hysteresis state and the recorder are left as
    they were. *)
Theorem startConversation_granted (Math_sqrt : Q -> Q) (t : string -> string)
    (config : AppConfig) (rt : Runtime) (h : Hook) (stream : MediaStream) (ctx : nat) :
  getUserMedia rt = Granted stream ->
  match audioContextRef h with
  | Some c => c = ctx
  | None => new_AudioContext rt = inr ctx
  end ->
  createMediaStreamSource_throws rt = None ->
  let h' := startConversation Math_sqrt t config rt h in
  (state h' = AppState.listening /\
   connectionState h' = ConnectionState.connected /\
   error h' = None) /\
  (mediaStreamRef h' = Some stream /\
   audioContextRef h' = Some ctx /\
   analyserRef h'
   = Some {| AudioLevel.fftSize := 1024; AudioLevel.byteTimeDomainData := analyser_data rt |} /\
   forall tr, tr ∈ getTracks stream -> tracks (browser h') !! tr = Some live) /\
  (speakingRef h' = false /\ lastVoiceMsRef h' = performance_now rt) /\
  (exists raf, rafRef h' = Some raf /\
     raf ∈ animationFrames (browser h') /\ raf ∉ animationFrames (browser h)) /\
  (exists iv, vadIntervalRef h' = Some iv /\
     iv ∈ intervals (browser h') /\ iv ∉ intervals (browser h)) /\
  (exists pre gate,
     preGainRef h' = Some pre /\ gateGainRef h' = Some gate /\ pre <> gate /\
     gainParams (browser h') !! pre
     = Some {| target := micGain_target config; timeConstant := 0 |} /\
     gainParams (browser h') !! gate = Some {| target := 1.0; timeConstant := 0 |} /\
     0.5 <= micGain_target config /\ micGain_target config <= 3.0) /\
  (exists tr, processedStreamRef h' = Some {| getTracks := [tr] |} /\
     tracks (browser h') !! tr = Some live /\ tr ∉ getTracks stream) /\
  (noiseFloorRef h' = noiseFloorRef h /\ vadVoiceStateRef h' = vadVoiceStateRef h /\
   recorderRef h' = recorderRef h /\ recorders (browser h') = recorders (browser h)).
Proof. exact (startConversation_session Math_sqrt t config rt h stream ctx). Qed.

Lemma startConversation_granted_witness :
  let h' := startConversation Examples.sqrt6 (fun key => key) Examples.DEFAULT_CONFIG runtime0
              (initial Examples.browser0) in
  state h' = AppState.listening /\
  mediaStreamRef h' = Some {| getTracks := [0%nat] |} /\
  speakingRef h' = false.
Proof.
  intros h'.
  destruct (startConversation_granted Examples.sqrt6 (fun key => key) Examples.DEFAULT_CONFIG
              runtime0 (initial Examples.browser0) {| getTracks := [0%nat] |} 0%nat
              eq_refl eq_refl eq_refl)
    as ((A & _) & (B & _) & (C & _) & _).
  split; [exact A|]. split; [exact B|exact C].
Defined.

(** *** The microphone gain *)

(** X5. The microphone gain that is applied is always between 0.5 and
    3: 1.5 when the setting is missing, the setting itself inside the
    range, the nearer end outside of it.  When the setting changes while
    a graph exists, the pre-amplifier alone is retargeted to that value
    with time constant 0.05; without a pre-amplifier or a context the
    change has no effect. *)
Theorem micGain_is_clamped (config : AppConfig) (h : Hook) :
  (0.5 <= micGain_target config /\ micGain_target config <= 3.0) /\
  (micGain config = None -> micGain_target config == 1.5) /\
  (forall g, micGain config = Some g ->
     (g <= 0.5 -> micGain_target config == 0.5) /\
     (0.5 <= g -> g <= 3.0 -> micGain_target config == g) /\
     (3.0 <= g -> micGain_target config == 3.0)) /\
  (forall pre ctx, preGainRef h = Some pre -> audioContextRef h = Some ctx ->
     gainParams (browser (micGain_effect config h)) !! pre
     = Some {| target := micGain_target config; timeConstant := 0.05 |} /\
     forall g, g <> pre ->
       gainParams (browser (micGain_effect config h)) !! g = gainParams (browser h) !! g) /\
  (preGainRef h = None \/ audioContextRef h = None -> micGain_effect config h = h).
Proof.
  split; [apply micGain_target_range|].
  split.
  { intros Hg. unfold micGain_target. rewrite Hg.
    rewrite Q.min_r by (apply Qle_bool_imp_le; reflexivity).
    rewrite Q.max_r by (apply Qle_bool_imp_le; reflexivity). reflexivity. }
  split.
  { intros g Hg. unfold micGain_target. rewrite Hg. split; [|split].
    - intros Hle. rewrite Q.min_r by lra. rewrite Q.max_l by lra. reflexivity.
    - intros H0 H1. rewrite Q.min_r by lra. rewrite Q.max_r by lra. reflexivity.
    - intros Hge. rewrite Q.min_l by lra. rewrite Q.max_r by lra. reflexivity. }
  split.
  { intros pre ctx Hp Hc. unfold micGain_effect. rewrite Hp, Hc.
    unfold setTargetAtTime. ses_cbn. split; [apply lookup_insert_eq|].
    intros g Hne. apply lookup_insert_ne. congruence. }
  intros [Hp|Hc]; unfold micGain_effect.
  - now rewrite Hp.
  - rewrite Hc. now destruct (preGainRef h).
Qed.

(** *** What [stopConversation] does to the browser *)

Lemma stopRecorder_ext h1 h2 :
  recorderRef h1 = recorderRef h2 ->
  recorders (browser h1) = recorders (browser h2) ->
  recorders (browser (stopRecorder h1)) = recorders (browser (stopRecorder h2)).
Proof.
  intros Hr Hb. unfold stopRecorder, recorder_not_inactive, MediaRecorder_stop.
  rewrite Hr, Hb. destruct (recorderRef h2) as [id|]; [|exact Hb].
  destruct (recorders (browser h2) !! id) as [r|]; [|exact Hb].
  destruct (rec_state r); ses_cbn; now rewrite ?Hb.
Qed.

Lemma stop_tracks_other l : forall b (tr : nat),
  tr ∉ l -> tracks (fold_left MediaStreamTrack_stop l b) !! tr = tracks b !! tr.
Proof.
  induction l as [|x l IH]; intros b tr Hin; [reflexivity|].
  cbn [fold_left]. rewrite IH by set_solver.
  unfold MediaStreamTrack_stop. ses_cbn. apply lookup_insert_ne. set_solver.
Qed.

Lemma stop_tracks_fetches l : forall b,
  fetches (fold_left MediaStreamTrack_stop l b) = fetches b.
Proof. induction l as [|x l IH]; intros b; [reflexivity|]. cbn [fold_left]. now rewrite IH. Qed.

Lemma stopConversation_effects h :
  exists h',
    stopConversation h = Normal h' /\
    recorders (browser h') = recorders (browser (stopRecorder h)) /\
    intervals (browser h')
    = match vadIntervalRef h with
      | Some id => intervals (browser h) ∖ {[id]}
      | None => intervals (browser h)
      end /\
    (forall tr, (forall stream, mediaStreamRef h = Some stream -> tr ∉ getTracks stream) ->
       tracks (browser h') !! tr = tracks (browser h) !! tr) /\
    fetches (browser h') = fetches (browser h) /\
    (noiseFloorRef h' = noiseFloorRef h /\ vadVoiceStateRef h' = vadVoiceStateRef h /\
     speakingRef h' = speakingRef h /\ lastVoiceMsRef h' = lastVoiceMsRef h /\
     chunksRef h' = chunksRef h) /\
    (state h' = AppState.idle /\ mediaStreamRef h' = None /\ audioContextRef h' = None /\
     recorderRef h' = None /\ activeAudioRef h' = None).
Proof.
  pose (h1 := match rafRef h with
              | Some id => set_browser (cancelAnimationFrame id (browser h)) h
              | None => h
              end).
  pose (h2 := match vadIntervalRef h1 with
              | Some id => set_browser (clearInterval id (browser h1)) h1
              | None => h1
              end).
  pose (h3 := stopRecorder h2).
  pose (h4 := match activeAudioRef h3 with
              | Some id =>
                  set_activeAudioRef None
                    (set_browser (try_catch (HTMLAudioElement_pause id (browser h3))) h3)
              | None => h3
              end).
  pose (b := match mediaStreamRef h4 with
             | Some stream => fold_left MediaStreamTrack_stop (getTracks stream) (browser h4)
             | None => browser h4
             end).
  assert (E1 : vadIntervalRef h1 = vadIntervalRef h /\ mediaStreamRef h1 = mediaStreamRef h /\
               recorderRef h1 = recorderRef h /\
               intervals (browser h1) = intervals (browser h) /\
               recorders (browser h1) = recorders (browser h) /\
               tracks (browser h1) = tracks (browser h) /\
               fetches (browser h1) = fetches (browser h) /\
               noiseFloorRef h1 = noiseFloorRef h /\ vadVoiceStateRef h1 = vadVoiceStateRef h /\
               speakingRef h1 = speakingRef h /\ lastVoiceMsRef h1 = lastVoiceMsRef h /\
               chunksRef h1 = chunksRef h).
  { unfold h1. destruct (rafRef h); ses_cbn; easy. }
  destruct E1 as (E1a & E1b & E1c & E1d & E1e & E1f & E1g & E1h & E1i & E1j & E1k & E1l).
  assert (E2 : mediaStreamRef h2 = mediaStreamRef h /\
               recorderRef h2 = recorderRef h /\
               intervals (browser h2)
               = match vadIntervalRef h with
                 | Some id => intervals (browser h) ∖ {[id]}
                 | None => intervals (browser h)
                 end /\
               recorders (browser h2) = recorders (browser h) /\
               tracks (browser h2) = tracks (browser h) /\
               fetches (browser h2) = fetches (browser h) /\
               noiseFloorRef h2 = noiseFloorRef h /\ vadVoiceStateRef h2 = vadVoiceStateRef h /\
               speakingRef h2 = speakingRef h /\ lastVoiceMsRef h2 = lastVoiceMsRef h /\
               chunksRef h2 = chunksRef h).
  { unfold h2. rewrite E1a. destruct (vadIntervalRef h); ses_cbn;
      rewrite ?E1d; repeat split; congruence. }
  destruct E2 as (E2a & E2b & E2c & E2d & E2e & E2f & E2g & E2h & E2i & E2j & E2k).
  pose proof (stopRecorder_outside h2) as O3. unfold outside_vad in O3. fold h3 in O3.
  destruct O3 as (_ & O3b & O3c & _ & O3e & _ & O3g & _).
  pose proof (stopRecorder_refs h2) as (R3a & R3b & R3c & R3d & R3e & _). fold h3 in R3a, R3b, R3c, R3d, R3e.
  assert (E4 : mediaStreamRef h4 = mediaStreamRef h3 /\ activeAudioRef h4 = None /\
               intervals (browser h4) = intervals (browser h3) /\
               recorders (browser h4) = recorders (browser h3) /\
               tracks (browser h4) = tracks (browser h3) /\
               fetches (browser h4) = fetches (browser h3) /\
               noiseFloorRef h4 = noiseFloorRef h3 /\ vadVoiceStateRef h4 = vadVoiceStateRef h3 /\
               speakingRef h4 = speakingRef h3 /\ lastVoiceMsRef h4 = lastVoiceMsRef h3 /\
               chunksRef h4 = chunksRef h3).
  { unfold h4. destruct (activeAudioRef h3) as [id|] eqn:Ha; [|easy].
    unfold HTMLAudioElement_pause. destruct (audios (browser h3) !! id); ses_cbn; easy. }
  destruct E4 as (E4a & E4b & E4c & E4d & E4e & E4f & E4g & E4h & E4i & E4j & E4k).
  assert (Eb : intervals b = intervals (browser h4) /\
               recorders b = recorders (browser h4) /\
               fetches b = fetches (browser h4) /\
               forall tr, (forall stream, mediaStreamRef h = Some stream -> tr ∉ getTracks stream) ->
                 tracks b !! tr = tracks (browser h4) !! tr).
  { unfold b. rewrite E4a, O3g, E2a. destruct (mediaStreamRef h) as [stream|].
    - pose proof (StopProps.stop_tracks_frame (getTracks stream) (browser h4)) as (_ & B & C & _).
      cbv zeta in B, C. rewrite B, C, stop_tracks_fetches.
      repeat split. intros tr Hout. apply stop_tracks_other. now apply Hout.
    - easy. }
  destruct Eb as (Eb1 & Eb2 & Eb3 & Eb4).
  exists {| state := AppState.idle; connectionState := ConnectionState.disconnected;
            error := None; audioLevel := 0;
            mediaStreamRef := None; audioContextRef := None; analyserRef := None;
            rafRef := rafRef h4; processedStreamRef := None; gateGainRef := None;
            preGainRef := None; noiseFloorRef := noiseFloorRef h4;
            vadVoiceStateRef := vadVoiceStateRef h4; recorderRef := None;
            chunksRef := chunksRef h4; speakingRef := speakingRef h4;
            lastVoiceMsRef := lastVoiceMsRef h4; vadIntervalRef := vadIntervalRef h4;
            activeAudioRef := activeAudioRef h4; browser := b |}.
  split; [reflexivity|].
  assert (Hrec : recorders (browser h3) = recorders (browser (stopRecorder h))).
  { unfold h3. apply stopRecorder_ext; assumption. }
  clearbody b h4 h3 h2 h1. cbn [browser noiseFloorRef vadVoiceStateRef speakingRef
    lastVoiceMsRef chunksRef state mediaStreamRef audioContextRef recorderRef activeAudioRef].
  split; [congruence|]. split; [congruence|].
  split; [intros tr Hout; rewrite (Eb4 tr Hout); congruence|].
  split; [congruence|].
  split; [repeat split; congruence|].
  repeat split; assumption.
Qed.

(** X6. [startConversation] does not stop what an earlier start set
    up.  Called while an interval of an earlier start is pending, it
    overwrites [vadIntervalRef] with a new interval and leaves the old
    one running; a later [stopConversation] clears only the new one, and
    it stops only the tracks of the stream that was granted last: the old
    interval and every other live track survive the stop. *)
Theorem second_start_leaks_first_session (Math_sqrt : Q -> Q) (t : string -> string)
    (config : AppConfig) (rt : Runtime) (h : Hook) (stream : MediaStream) (ctx : nat)
    (iv : positive) :
  getUserMedia rt = Granted stream ->
  match audioContextRef h with
  | Some c => c = ctx
  | None => new_AudioContext rt = inr ctx
  end ->
  createMediaStreamSource_throws rt = None ->
  vadIntervalRef h = Some iv ->
  iv ∈ intervals (browser h) ->
  let h1 := startConversation Math_sqrt t config rt h in
  exists h2,
    stopConversation h1 = Normal h2 /\
    vadIntervalRef h1 <> Some iv /\
    iv ∈ intervals (browser h1) /\
    iv ∈ intervals (browser h2) /\
    (forall tr, tracks (browser h) !! tr = Some live -> tr ∉ getTracks stream ->
       tracks (browser h2) !! tr = Some live).
Proof.
  intros Hg Hctx Hsrc Hiv Hin h1.
  pose proof (startConversation_session Math_sqrt t config rt h stream ctx Hg Hctx Hsrc)
    as (_ & (Hms & _) & _ & _ & (iv' & Hiv' & Hin' & Hnew) & _).
  cbv zeta in Hms, Hiv', Hin', Hnew. fold h1 in Hms, Hiv', Hin', Hnew.
  assert (Hkeep : intervals (browser h1) = {[iv']} ∪ intervals (browser h) /\
                  forall tr, tracks (browser h) !! tr = Some live -> tr ∉ getTracks stream ->
                    tracks (browser h1) !! tr = Some live).
  { revert Hiv'. unfold h1.
    rewrite (startConversation_built Math_sqrt t config rt h stream ctx Hg Hctx Hsrc).
    unfold startConversation_graph, createGain, createMediaStreamDestination, setInterval,
      monitorAudio_tick, requestAnimationFrame, grant.
    ses_cbn. intros [= <-]. split; [reflexivity|].
    intros tr Hlive Hout.
    set (m' := fold_left (fun (m : gmap nat TrackState) (t0 : nat) => <[t0 := live]> m)
                  (getTracks stream) (tracks (browser h))).
    assert (Hm : m' !! tr = Some live).
    { unfold m'. rewrite grant_tracks. now rewrite bool_decide_eq_false_2 by exact Hout. }
    rewrite lookup_insert_ne; [exact Hm|].
    intros Heq. pose proof (is_fresh (dom m')) as Hf. rewrite Heq in Hf.
    apply Hf. apply elem_of_dom. rewrite Hm. now eexists. }
  destruct Hkeep as (Hivs & Htr).
  destruct (stopConversation_effects h1) as (h2 & Hstop & _ & Hiv2 & Htr2 & _).
  exists h2. split; [exact Hstop|].
  assert (Hne : iv' <> iv) by (intros ->; contradiction).
  split; [rewrite Hiv'; congruence|].
  split; [rewrite Hivs; set_solver|].
  split.
  - rewrite Hiv2, Hiv', Hivs. set_solver.
  - intros tr Hlive Hout. rewrite Htr2; [now apply Htr|].
    intros stream' Hs'. rewrite Hms in Hs'. now injection Hs' as <-.
Qed.

Lemma second_start_witness :
  exists h2,
    stopConversation
      (startConversation Examples.sqrt6 (fun key => key) Examples.DEFAULT_CONFIG
         {| getUserMedia := Granted {| getTracks := [5%nat] |};
            new_AudioContext := inr 1%nat; createMediaStreamSource_throws := None;
            analyser_data := []; performance_now := 2000 |} Examples.listening0)
    = Normal h2 /\
    3%positive ∈ intervals (browser h2) /\
    tracks (browser h2) !! 0%nat = Some live.
Proof.
  destruct (second_start_leaks_first_session Examples.sqrt6 (fun key => key)
              Examples.DEFAULT_CONFIG
              {| getUserMedia := Granted {| getTracks := [5%nat] |};
                 new_AudioContext := inr 1%nat; createMediaStreamSource_throws := None;
                 analyser_data := []; performance_now := 2000 |}
              Examples.listening0 {| getTracks := [5%nat] |} 0%nat 3%positive
              eq_refl eq_refl eq_refl eq_refl)
    as (h2 & A & _ & _ & B & C).
  { vm_compute. set_solver. }
  exists h2. split; [exact A|]. split; [exact B|].
  apply C; [reflexivity|]. cbn. set_solver.
Defined.

(** *** The hysteresis state across a restart *)

(** While the hysteresis state is set outside an utterance, a tick at or
    below the off threshold changes none of the VAD cells. *)
Lemma stale_tick config rms now h :
  vadVoiceStateRef h = true -> speakingRef h = false ->
  rms <= offThresh config (noiseFloorRef h) ->
  let h' := vadTick config rms now h in
  noiseFloorRef h' = noiseFloorRef h /\ vadVoiceStateRef h' = true /\
  speakingRef h' = false /\ lastVoiceMsRef h' = lastVoiceMsRef h.
Proof.
  intros Hv Hs Hr.
  pose proof (vadTick_cells config rms now h) as (Hnf & Hl & Hsp & Hvs).
  cbv zeta in *.
  assert (Hi : isVoice config rms h = false).
  { unfold isVoice, nextNoiseFloor. rewrite Hv. now apply gt_false. }
  rewrite Hi, Hs in *. unfold nextNoiseFloor in Hnf. rewrite Hv in *. easy.
Qed.

Lemma stale_run config ticks : forall h,
  vadVoiceStateRef h = true -> speakingRef h = false ->
  Forall (fun t => fst t <= offThresh config (noiseFloorRef h)) ticks ->
  let h' := vadRun config ticks h in
  noiseFloorRef h' = noiseFloorRef h /\ vadVoiceStateRef h' = true /\
  speakingRef h' = false.
Proof.
  induction ticks as [|t ticks IH]; intros h Hv Hs Hall; [easy|].
  inversion Hall as [|? ? Hr Hall']; subst.
  pose proof (stale_tick config (fst t) (snd t) h Hv Hs Hr) as (T1 & T2 & T3 & _).
  cbv zeta in *.
  change (vadRun config (t :: ticks) h)
    with (vadRun config ticks (vadTick config (fst t) (snd t) h)).
  rewrite <- T1 in Hall'.
  destruct (IH _ T2 T3 Hall') as (I1 & I2 & I3).
  repeat split; congruence.
Qed.

(** X7. [stopConversation] and [startConversation] reset neither
    [vadVoiceStateRef] nor [noiseFloorRef].  After
    [restartWithNewSettings] in the middle of an utterance the new
    session listens with [speakingRef] false but the hysteresis state
    still true: its first tick starts an utterance exactly when the level
    is above the exit threshold [offThresh], not the entry threshold, and
    as long as the level stays at or below [offThresh] the noise floor
    never adapts. *)
Theorem restart_keeps_hysteresis_state (Math_sqrt : Q -> Q) (t : string -> string)
    (config : AppConfig) (rt : Runtime) (h : Hook) (stream : MediaStream) (ctx : nat) :
  state h <> AppState.idle ->
  vadVoiceStateRef h = true ->
  getUserMedia rt = Granted stream ->
  new_AudioContext rt = inr ctx ->
  createMediaStreamSource_throws rt = None ->
  exists h1,
    restartWithNewSettings h = (Normal h1, true) /\
    let h2 := startConversation Math_sqrt t config rt h1 in
    state h2 = AppState.listening /\
    speakingRef h2 = false /\
    vadVoiceStateRef h2 = true /\
    noiseFloorRef h2 = noiseFloorRef h /\
    (forall rms now,
       speakingRef (vadTick config rms now h2) = true <->
       offThresh config (noiseFloorRef h) < rms) /\
    (forall ticks,
       Forall (fun t => fst t <= offThresh config (noiseFloorRef h)) ticks ->
       let h3 := vadRun config ticks h2 in
       noiseFloorRef h3 = noiseFloorRef h /\ vadVoiceStateRef h3 = true /\
       speakingRef h3 = false).
Proof.
  intros Hst Hv Hg Hctx Hsrc.
  destruct (stopConversation_effects h)
    as (h1 & Hstop & _ & _ & _ & _ & (C1 & C2 & _) & (_ & _ & Hac & _)).
  exists h1. split.
  { unfold restartWithNewSettings. rewrite Hstop. now destruct (state h). }
  intros h2.
  assert (Hctx1 : match audioContextRef h1 with
                  | Some c => c = ctx
                  | None => new_AudioContext rt = inr ctx
                  end) by now rewrite Hac.
  pose proof (startConversation_session Math_sqrt t config rt h1 stream ctx Hg Hctx1 Hsrc)
    as ((S1 & _) & _ & (S2 & _) & _ & _ & _ & _ & (S3 & S4 & _)).
  cbv zeta in S1, S2, S3, S4. fold h2 in S1, S2, S3, S4.
  assert (Hv2 : vadVoiceStateRef h2 = true) by congruence.
  assert (Hnf2 : noiseFloorRef h2 = noiseFloorRef h) by congruence.
  split; [exact S1|]. split; [exact S2|]. split; [exact Hv2|]. split; [exact Hnf2|].
  split.
  - intros rms now.
    pose proof (vadTick_cells config rms now h2) as (_ & _ & Hsp & _).
    cbv zeta in Hsp. rewrite Hsp, S2.
    unfold isVoice, nextNoiseFloor. rewrite Hv2, Hnf2.
    destruct (gt rms (offThresh config (noiseFloorRef h))) eqn:Hgt.
    + apply gt_true in Hgt. tauto.
    + apply gt_false in Hgt. split; [discriminate|]. intros H. lra.
  - intros ticks Hall. rewrite <- Hnf2 in Hall |- *.
    now apply stale_run.
Qed.

Lemma restart_keeps_hysteresis_witness :
  exists h1,
    restartWithNewSettings Examples.speaking0 = (Normal h1, true) /\
    let h2 := startConversation Examples.sqrt6 (fun key => key) Examples.DEFAULT_CONFIG
                runtime0 h1 in
    speakingRef h2 = false /\ vadVoiceStateRef h2 = true.
Proof.
  assert (Hst : state Examples.speaking0 <> AppState.idle) by (vm_compute; discriminate).
  destruct (restart_keeps_hysteresis_state Examples.sqrt6 (fun key => key)
              Examples.DEFAULT_CONFIG runtime0 Examples.speaking0
              {| getTracks := [0%nat] |} 0%nat Hst eq_refl eq_refl eq_refl eq_refl)
    as (h1 & A & _ & B & C & _).
  exists h1. split; [exact A|]. split; [exact B|exact C].
Defined.

(** *** The reply handler *)

Lemma recorder_onstop_response_frame w t config r h :
  let h' := fst (recorder_onstop_response w t config r h) in
  only_audios (browser h) (browser h') /\
  recorderRef h' = recorderRef h /\ chunksRef h' = chunksRef h /\
  noiseFloorRef h' = noiseFloorRef h /\ vadVoiceStateRef h' = vadVoiceStateRef h /\
  speakingRef h' = speakingRef h /\ lastVoiceMsRef h' = lastVoiceMsRef h /\
  mediaStreamRef h' = mediaStreamRef h /\ processedStreamRef h' = processedStreamRef h /\
  audioContextRef h' = audioContextRef h /\ gateGainRef h' = gateGainRef h /\
  rafRef h' = rafRef h /\ vadIntervalRef h' = vadIntervalRef h /\
  connectionState h' = connectionState h.
Proof.
  unfold recorder_onstop_response.
  destruct r as [resp|]; [|split; [apply only_audios_refl|easy]].
  destruct (negb (ok resp)); [split; [apply only_audios_refl|easy]|].
  destruct (activeAudioRef h) as [id|] eqn:Ha;
    cbn -[tryStream update_audio fresh insert lookup dom Qdiv]; rewrite ?Ha;
    cbn -[tryStream update_audio fresh insert lookup dom Qdiv].
  - match goal with |- context [tryStream ?a ?b ?c ?d] =>
      pose proof (tryStream_only a b c d) as O; destruct (tryStream a b c d) as [s b'] end.
    cbn [snd fst] in *. ses_cbn. split; [|easy].
    eapply only_audios_trans; [apply update_audio_only|exact O].
  - match goal with |- context [tryStream ?a ?b ?c ?d] =>
      pose proof (tryStream_only a b c d) as O; destruct (tryStream a b c d) as [s b'] end.
    cbn [snd fst] in *. split; [|easy].
    eapply only_audios_trans; [|exact O].
    eapply only_audios_trans; [|apply update_audio_only].
    unfold only_audios. cbn. easy.
Qed.

(** *** At most one recorder records *)

Lemma stop_no_recorder h :
  one_recorder h -> no_recorder_active (browser (try_catch (stopConversation h))).
Proof.
  intros Hone.
  destruct (stopConversation_effects h) as (h' & Hstop & Hrec & _).
  rewrite Hstop. cbn [try_catch]. intros id r Hl. rewrite Hrec in Hl.
  destruct (rec_state r) eqn:Hst; [reflexivity| |].
  - assert (Href : recorderRef (stopRecorder h) = Some id)
      by (apply (stopRecorder_one h Hone id r Hl); congruence).
    pose proof (stopRecorder_refs h) as (_ & _ & _ & _ & _ & R). rewrite R in Href.
    pose proof (StopProps.stopRecorder_recorder h id r Href Hl). congruence.
  - assert (Href : recorderRef (stopRecorder h) = Some id)
      by (apply (stopRecorder_one h Hone id r Hl); congruence).
    pose proof (stopRecorder_refs h) as (_ & _ & _ & _ & _ & R). rewrite R in Href.
    pose proof (StopProps.stopRecorder_recorder h id r Href Hl). congruence.
Qed.

Lemma no_recorder_one h : no_recorder_active (browser h) -> one_recorder h.
Proof. intros Hno id r Hl Hst. apply Hno in Hl. contradiction. Qed.

Lemma step_one Math_sqrt w t config h e :
  one_recorder h -> one_recorder (step Math_sqrt w t config h e).
Proof.
  intros Hone. destruct e; cbn [step].
  - pose proof (startConversation_recorders Math_sqrt t config rt h) as (A & B & _).
    now apply (one_recorder_ext h).
  - apply no_recorder_one. now apply stop_no_recorder.
  - unfold restartWithNewSettings. destruct (state h); cbn [fst try_catch];
      try exact Hone; apply no_recorder_one; now apply stop_no_recorder.
  - apply (one_recorder_ext h); [| |exact Hone]; unfold monitorAudio_tick; now ses_cbn.
  - now apply vadTick_one.
  - apply (one_recorder_ext h); [| |exact Hone]; unfold recorder_ondataavailable;
      (destruct data as [d|]; [destruct (0 <? blob_size d)%nat|]); reflexivity.
  - now apply (one_recorder_ext h).
  - pose proof (recorder_onstop_response_frame w t config r h) as (O & R & _).
    cbv zeta in O, R. apply (one_recorder_ext h); [exact R|apply O|exact Hone].
  - apply (one_recorder_ext h); [| |exact Hone]; unfold audioEl_onended;
      destruct capturedState; reflexivity.
  - apply (one_recorder_ext h); [| |exact Hone]; unfold micGain_effect;
      (destruct (preGainRef h); [destruct (audioContextRef h)|]); reflexivity.
  - now apply (one_recorder_ext h).
Qed.

(** X2. Starting with at most one recorder that is not inactive, and
    that one referenced by [recorderRef], every sequence of callbacks of
    the hook (start, stop, restart, frames, VAD ticks, recorder events,
    replies, playback end, gain change, error timer) keeps it so; and a
    [stopConversation] at any point leaves no recorder recording or
    paused. *)
Theorem at_most_one_recorder (Math_sqrt : Q -> Q) (w : Window) (t : string -> string)
    (config : AppConfig) (events : list Event) (h : Hook) :
  one_recorder h ->
  let h' := run Math_sqrt w t config events h in
  one_recorder h' /\
  no_recorder_active (browser (step Math_sqrt w t config h' StopConversation)).
Proof.
  intros Hone h'.
  assert (H' : one_recorder h').
  { unfold h', run. clear h'. revert h Hone.
    induction events as [|e events IH]; intros h Hone; [exact Hone|].
    cbn [fold_left]. apply IH. now apply step_one. }
  split; [exact H'|]. cbn [step]. now apply stop_no_recorder.
Qed.

Lemma at_most_one_recorder_witness :
  let h' := run Examples.sqrt6 Examples.window_mse (fun key => key) Examples.DEFAULT_CONFIG
              [StartConversation runtime0; VadInterval 0.5 1050; VadInterval 0 1100;
               VadInterval 0 1700; VadInterval 0.5 1750]
              (initial Examples.browser0) in
  one_recorder h' /\
  no_recorder_active
    (browser (step Examples.sqrt6 Examples.window_mse (fun key => key)
                Examples.DEFAULT_CONFIG h' StopConversation)).
Proof.
  apply (at_most_one_recorder Examples.sqrt6 Examples.window_mse (fun key => key)
           Examples.DEFAULT_CONFIG _ (initial Examples.browser0)).
  intros id r Hl. vm_compute in Hl. discriminate.
Defined.

(** *** A failed reply *)

(** X8. When the upload fails ([fetch] rejects, or the reply is not
    ok) the hook shows the state ['error'] with the text of
    ['error.general'] (type ['general'] for a rejection, ['api'] for a
    reply) and plays nothing, but the session is left running: browser,
    stream, interval and connection state are unchanged.  The timer of the
    error effect clears the error and leaves the state ['error']; the next
    tick that starts an utterance sets the state back to ['listening'],
    starts the recorder and leaves the error as it is. *)
Theorem failed_reply_keeps_session (w : Window) (t : string -> string)
    (config : AppConfig) (r : FetchResult) (h : Hook) :
  match r with
  | Rejected => True
  | Resolved resp => ok resp = false
  end ->
  let h1 := fst (recorder_onstop_response w t config r h) in
  snd (recorder_onstop_response w t config r h) = None /\
  state h1 = AppState.error /\
  error h1
  = Some {| type := match r with Rejected => ErrorType.general | _ => ErrorType.api end;
            message := t "error.general" |} /\
  browser h1 = browser h /\
  mediaStreamRef h1 = mediaStreamRef h /\
  vadIntervalRef h1 = vadIntervalRef h /\
  connectionState h1 = connectionState h /\
  state (error_timeout h1) = AppState.error /\
  error (error_timeout h1) = None /\
  (forall rms now,
     speakingRef h = false -> vadVoiceStateRef h = false ->
     let h2 := vadTick config rms now h1 in
     speakingRef h2 = true ->
     state h2 = AppState.listening /\
     error h2 = error h1 /\
     (is_Some (mediaStreamRef h) -> recorder_not_inactive h2 = true)).
Proof.
  intros Hr h1.
  assert (E : recorder_onstop_response w t config r h
              = (set_state AppState.error
                   (set_error
                      (Some {| type := match r with
                                       | Rejected => ErrorType.general
                                       | _ => ErrorType.api
                                       end;
                               message := t "error.general" |}) h), None)).
  { unfold recorder_onstop_response. destruct r as [resp|]; [now rewrite Hr|reflexivity]. }
  unfold h1. rewrite E. cbn [fst snd].
  split; [reflexivity|]. split; [reflexivity|]. split; [reflexivity|].
  split; [reflexivity|]. split; [reflexivity|]. split; [reflexivity|].
  split; [reflexivity|]. split; [reflexivity|]. split; [reflexivity|].
  intros rms now Hs Hv.
  match goal with |- context [vadTick config rms now ?x] => set (x1 := x) end.
  intros Hsp.
  destruct (speech_start_effects config rms now x1 Hv Hs Hsp) as (_ & _ & S3 & S5 & _).
  split; [exact S3|]. split; [|exact S5].
  pose proof (vadTick_outside config rms now x1) as O. unfold outside_vad in O.
  decompose [and] O. assumption.
Qed.

Lemma failed_reply_witness :
  let h1 := fst (recorder_onstop_response Examples.window_mse (fun key => key)
                   Examples.DEFAULT_CONFIG Rejected Examples.listening0) in
  state h1 = AppState.error /\
  state (vadTick Examples.DEFAULT_CONFIG 0.5 100 h1) = AppState.listening.
Proof.
  destruct (failed_reply_keeps_session Examples.window_mse (fun key => key)
              Examples.DEFAULT_CONFIG Rejected Examples.listening0 I)
    as (_ & A & _ & _ & _ & _ & _ & _ & _ & B).
  split; [exact A|].
  apply (B 0.5 100 eq_refl eq_refl). reflexivity.
Defined.

End SessionProps.

(** ** From the recorder to the server and back to the audio element *)

Module ReplyProps.

Import JS JSFacts Types Dom Playback Hook SessionSpec Session VadProps VadSessionProps
  SessionProps.
Open Scope Q_scope.

Ltac rp_cbn := cbn -[alter lookup insert fresh dom concat Qdiv Qmax Qmin] in *.

(** *** The chunks of an utterance *)

Lemma ondataavailable_chunks datas : forall h,
  let h' := fold_left (fun h d => recorder_ondataavailable d h) datas h in
  concat (map blob_bytes (chunksRef h'))
  = concat (map blob_bytes (chunksRef h)) ++ concat (map data_bytes datas) /\
  browser h' = browser h /\ recorderRef h' = recorderRef h /\
  state h' = state h /\ error h' = error h.
Proof.
  induction datas as [|d datas IH]; intros h; cbn [fold_left map concat].
  - now rewrite app_nil_r.
  - destruct (IH (recorder_ondataavailable d h)) as (I1 & I2 & I3 & I4 & I5).
    cbv zeta. rewrite I1, I2, I3, I4, I5.
    unfold recorder_ondataavailable. destruct d as [d|]; cbn [data_bytes].
    + destruct (0 <? blob_size d)%nat eqn:Hsz.
      * rp_cbn. rewrite map_app, concat_app. cbn [map concat].
        rewrite app_nil_r, <- app_assoc. easy.
      * apply Nat.ltb_ge in Hsz. unfold blob_size in Hsz.
        assert (Hnil : blob_bytes d = []) by (destruct (blob_bytes d); [easy|cbn in Hsz; lia]).
        rewrite Hnil. easy.
    + easy.
Qed.

(** X9. From [startRecorder] over any sequence of data events to the
    stop handler: exactly one request is sent, a POST to
    [/api/voice/process], and the file the server receives holds the
    bytes of all data events in their order (events without data or with
    empty data add nothing), under the name ['utterance.webm'] and with
    the media type ['audio/webm'], whether or not the recorder used the
    opus codec; the chunk buffer is empty afterwards. *)
Theorem utterance_reaches_server (pathname : string) (config : AppConfig) (h : Hook)
    (stream : MediaStream) (datas : list (option Blob)) :
  mediaStreamRef h = Some stream ->
  recorder_not_inactive h = false ->
  let mimeType :=
    if opusSupported (browser h) then "audio/webm;codecs=opus"%string
    else "audio/webm"%string in
  let h1 := startRecorder h in
  let h2 := fold_left (fun h d => recorder_ondataavailable d h) datas (stopRecorder h1) in
  let h3 := recorder_onstop_upload pathname config mimeType h2 in
  exists req,
    fetches (browser h3) = fetches (browser h) ++ [req] /\
    url_path req = "/api/voice/process"%string /\
    method req = "POST"%string /\
    Server.req_file (Server.multipart (body req))
    = Some {| Server.buffer := concat (map data_bytes datas);
              Server.mimetype := "audio/webm";
              Server.originalname := "utterance.webm" |} /\
    chunksRef h3 = [].
Proof.
  intros Hm Hr mimeType h1 h2 h3.
  pose proof (UploadProps.startRecorder_starts h stream Hm Hr) as (_ & _ & C1 & F1 & _).
  cbv zeta in C1, F1. fold h1 in C1, F1.
  pose proof (stopRecorder_refs h1) as (_ & _ & _ & _ & C2 & _).
  pose proof (stopRecorder_outside h1) as O2. unfold outside_vad in O2.
  destruct O2 as (_ & F2 & _).
  pose proof (ondataavailable_chunks datas (stopRecorder h1)) as (C3 & B3 & _).
  cbv zeta in C3, B3. fold h2 in C3, B3.
  rewrite C2, C1 in C3. cbn [map concat app] in C3.
  pose proof (UploadProps.onstop_upload_frame pathname config mimeType h2)
    as (C4 & _ & _ & _ & _ & F4).
  cbv zeta in C4, F4. fold h3 in C4, F4.
  eexists. split; [rewrite F4, B3, F2, F1; reflexivity|].
  split; [reflexivity|]. split; [reflexivity|].
  split; [|exact C4].
  cbn [body Server.multipart Server.req_file]. rewrite UploadProps.file_of_build_form.
  unfold Server.received_file, new_Blob. cbn [blob_bytes blob_type]. rewrite C3.
  unfold mimeType. now destruct (opusSupported (browser h)).
Qed.

Lemma utterance_reaches_server_witness :
  let h3 := recorder_onstop_upload "/" Examples.DEFAULT_CONFIG "audio/webm;codecs=opus"
              (fold_left (fun h d => recorder_ondataavailable d h)
                 [Some {| blob_bytes := [x1a; x45]; blob_type := "audio/webm" |}; None;
                  Some {| blob_bytes := [xdf]; blob_type := "audio/webm" |}]
                 (stopRecorder (startRecorder Examples.listening0))) in
  exists req,
    fetches (browser h3) = [req] /\
    Server.req_file (Server.multipart (body req))
    = Some {| Server.buffer := [x1a; x45; xdf]; Server.mimetype := "audio/webm";
              Server.originalname := "utterance.webm" |}.
Proof.
  destruct (utterance_reaches_server "/" Examples.DEFAULT_CONFIG Examples.listening0
              {| getTracks := [0%nat] |}
              [Some {| blob_bytes := [x1a; x45]; blob_type := "audio/webm" |}; None;
               Some {| blob_bytes := [xdf]; blob_type := "audio/webm" |}]
              eq_refl eq_refl) as (req & A & _ & _ & B & _).
  exists req. split; [exact A|exact B].
Defined.

(** *** The audio element of a reply *)

Lemma play_element w id b a :
  audios b !! id = Some a ->
  play w id b
  = if play_rejects w (muted a) then Throw "NotAllowedError" b
    else Normal (update_audio id (with_paused false) b).
Proof. intros Ha. unfold play. now rewrite Ha. Qed.

Lemma update_audio_element id f b a :
  audios b !! id = Some a -> audios (update_audio id f b) !! id = Some (f a).
Proof. intros Ha. rewrite PlaybackProps.update_audio_lookup, Ha. reflexivity. Qed.

Lemma play_unlocking_element w id b a :
  audios b !! id = Some a ->
  audios (play_unlocking w id b) !! id = Some (after_play w a).
Proof.
  intros Ha. unfold play_unlocking, after_play.
  rewrite (play_element w id b a Ha).
  destruct (play_rejects w (muted a)) eqn:H1.
  - rewrite Ha.
    pose proof (update_audio_element id (with_muted true) b a Ha) as Ha2.
    rewrite (play_element w id _ _ Ha2). cbn [muted with_muted].
    destruct (play_rejects w true) eqn:H2.
    + exact Ha2.
    + pose proof (update_audio_element id (with_paused false) _ _ Ha2) as Ha3.
      rewrite (update_audio_element id _ _ _ Ha3). reflexivity.
  - now apply update_audio_element.
Qed.

Lemma play_other w id b id' :
  id' <> id -> audios (try_catch (play w id b)) !! id' = audios b !! id'.
Proof.
  intros Hne. unfold play. destruct (audios b !! id) as [a|]; [|reflexivity].
  destruct (play_rejects w (muted a)); [reflexivity|].
  unfold update_audio. cbn [try_catch audios set_audios]. now rewrite lookup_alter_ne.
Qed.

Lemma update_audio_other id f b id' :
  id' <> id -> audios (update_audio id f b) !! id' = audios b !! id'.
Proof.
  intros Hne. unfold update_audio. cbn [audios set_audios]. now rewrite lookup_alter_ne.
Qed.

Lemma play_unlocking_other w id b id' :
  id' <> id -> audios (play_unlocking w id b) !! id' = audios b !! id'.
Proof.
  intros Hne. unfold play_unlocking.
  pose proof (play_other w id b id' Hne) as P1.
  destruct (play w id b) as [b1|e b1]; cbn [try_catch] in P1; [exact P1|].
  set (b2 := update_audio id (with_muted true) b1).
  pose proof (play_other w id b2 id' Hne) as P2.
  assert (E2 : audios b2 !! id' = audios b !! id')
    by (unfold b2; rewrite update_audio_other by exact Hne; exact P1).
  destruct (play w id b2) as [b3|e' b3]; cbn [try_catch] in P2.
  - rewrite update_audio_other by exact Hne. congruence.
  - congruence.
Qed.

Lemma fallbackToBlob_other w resp id b id' :
  id' <> id ->
  audios (snd (fallbackToBlob w None (closure resp id, b))) !! id' = audios b !! id'.
Proof.
  intros Hne. unfold fallbackToBlob, resp_blob. cbn [bodyUsed closure Playback.resp audioEl snd
    set_bodyUsed set_onended].
  rewrite play_unlocking_other by exact Hne. now apply update_audio_other.
Qed.

Lemma tryStream_buffered w resp a b :
  tryStream w resp a b = fallbackToBlob w None (closure resp a, b).
Proof. reflexivity. Qed.

Lemma fallbackToBlob_element w resp id b a :
  audios b !! id = Some a ->
  audios (snd (fallbackToBlob w None (closure resp id, b))) !! id
  = Some (after_play w (with_src (BlobUrl (reply_blob resp)) a)).
Proof.
  intros Ha. unfold fallbackToBlob, resp_blob. cbn [bodyUsed closure Playback.resp audioEl snd
    set_bodyUsed set_onended].
  apply play_unlocking_element. now apply update_audio_element.
Qed.

(** The element a successful reply is played on: the one the hook holds,
    or a new one. *)
Lemma reply_element w t config resp h :
  ok resp = true -> audio_ref_valid h ->
  let h' := fst (recorder_onstop_response w t config (Resolved resp) h) in
  exists id a0,
    activeAudioRef h' = Some id /\
    match activeAudioRef h with
    | Some id0 => id = id0 /\ audios (browser h) !! id = Some a0
    | None => (id ∉ dom (audios (browser h))) /\ a0 = new_Audio
    end /\
    audios (browser h') !! id
    = Some (after_play w (with_src (BlobUrl (reply_blob resp))
                            (with_volume (volume config / 100) a0))) /\
    (forall id', id' <> id -> audios (browser h') !! id' = audios (browser h) !! id') /\
    state h' = AppState.speaking.
Proof.
  intros Hok Hvalid. unfold recorder_onstop_response. rewrite Hok. cbn [negb].
  unfold audio_ref_valid in Hvalid.
  destruct (activeAudioRef h) as [id|] eqn:Ha;
    cbn -[tryStream update_audio fresh insert lookup dom Qdiv]; rewrite ?Ha;
    cbn -[tryStream update_audio fresh insert lookup dom Qdiv].
  - destruct Hvalid as [a0 Ha0]. exists id, a0.
    rewrite tryStream_buffered.
    pose proof (update_audio_element id (with_volume (volume config / 100)) _ _ Ha0) as E1.
    pose proof (fallbackToBlob_element w resp id _ _ E1) as E2.
    pose proof (fallbackToBlob_other w resp id
                  (update_audio id (with_volume (volume config / 100)) (browser h))) as E3.
    destruct (fallbackToBlob w None (closure resp id, _)) as [s b'].
    cbn [fst snd] in *. cbn [activeAudioRef set_browser set_state browser state].
    rewrite Ha. split; [reflexivity|]. split; [easy|]. split; [exact E2|].
    split; [|reflexivity]. intros id' Hne. rewrite (E3 id' Hne).
    unfold update_audio. cbn [audios set_audios]. now rewrite lookup_alter_ne.
  - set (id := fresh (dom (audios (browser h)))).
    exists id, new_Audio.
    rewrite tryStream_buffered.
    set (b0 := set_audios (<[id := new_Audio]> (audios (browser h))) (browser h)).
    assert (E0 : audios b0 !! id = Some new_Audio) by apply lookup_insert_eq.
    pose proof (update_audio_element id (with_volume (volume config / 100)) _ _ E0) as E1.
    pose proof (fallbackToBlob_element w resp id _ _ E1) as E2.
    pose proof (fallbackToBlob_other w resp id
                  (update_audio id (with_volume (volume config / 100)) b0)) as E3.
    destruct (fallbackToBlob w None (closure resp id, _)) as [s b'].
    cbn [fst snd] in *. cbn [activeAudioRef set_browser set_state browser state
                             set_activeAudioRef].
    split; [reflexivity|]. split; [split; [apply is_fresh|reflexivity]|].
    split; [exact E2|]. split; [|reflexivity].
    intros id' Hne. rewrite (E3 id' Hne).
    unfold update_audio. cbn [audios set_audios]. rewrite lookup_alter_ne by congruence.
    unfold b0. cbn [audios set_audios]. rewrite lookup_insert_ne by congruence. reflexivity.
Qed.

(** X10. An ok reply puts the hook in the state ['speaking'] and is
    played in full from one blob, on the element [activeAudioRef] refers
    to, or on a new element if there is none.  If [play()] is accepted,
    or rejected and then accepted muted, the element plays with its muted
    flag as before; if both attempts are rejected the element is left
    muted and not started. *)
Theorem reply_playback (w : Window) (t : string -> string) (config : AppConfig)
    (resp : HttpResponse) (h : Hook) :
  ok resp = true -> audio_ref_valid h ->
  let h' := fst (recorder_onstop_response w t config (Resolved resp) h) in
  state h' = AppState.speaking /\
  exists id a0 el,
    activeAudioRef h' = Some id /\
    match activeAudioRef h with
    | Some id0 => id = id0 /\ audios (browser h) !! id = Some a0
    | None => (id ∉ dom (audios (browser h))) /\ a0 = new_Audio
    end /\
    audios (browser h') !! id = Some el /\
    src el = BlobUrl (reply_blob resp) /\
    blob_bytes (reply_blob resp) = full_buffer_bytes resp /\
    (play_rejects w (muted a0) = false ->
       audio_paused el = false /\ muted el = muted a0) /\
    (play_rejects w (muted a0) = true -> play_rejects w true = false ->
       audio_paused el = false /\ muted el = muted a0) /\
    (play_rejects w (muted a0) = true -> play_rejects w true = true ->
       audio_paused el = audio_paused a0 /\ muted el = true).
Proof.
  intros Hok Hvalid h'.
  destruct (reply_element w t config resp h Hok Hvalid) as (id & a0 & A & B & C & _ & E).
  fold h' in A, C, E. split; [exact E|].
  exists id, a0. eexists. split; [exact A|]. split; [exact B|]. split; [exact C|].
  unfold after_play. cbn [muted with_src with_volume].
  destruct (play_rejects w (muted a0)) eqn:H1; [destruct (play_rejects w true) eqn:H2|];
    cbn; repeat split; intros; congruence.
Qed.

Lemma reply_playback_witness :
  let h' := fst (recorder_onstop_response Examples.window_mse (fun key => key)
                   Examples.DEFAULT_CONFIG (Resolved Examples.resp_two_chunks)
                   Examples.listening0) in
  state h' = AppState.speaking /\
  exists el, audios (browser h') !! 0%nat = Some el /\ audio_paused el = false.
Proof.
  assert (Hv : audio_ref_valid Examples.listening0) by (now eexists).
  destruct (reply_playback Examples.window_mse (fun key => key) Examples.DEFAULT_CONFIG
              Examples.resp_two_chunks Examples.listening0 eq_refl Hv)
    as (A & id & a0 & el & B & (-> & C) & D & _ & _ & E & _).
  split; [exact A|]. exists el. split; [exact D|].
  injection C as <-. now apply E.
Defined.

(** X11. A reply whose playback is rejected twice (as
    it is, and muted) leaves the shared audio element muted, and nothing
    unmutes it: the next reply, on a runtime that accepts muted playback,
    is played on the same element with the muted flag still set. *)
Theorem blocked_autoplay_leaves_element_muted (w1 w2 : Window) (t : string -> string)
    (config : AppConfig) (resp1 resp2 : HttpResponse) (h : Hook) :
  ok resp1 = true -> ok resp2 = true -> audio_ref_valid h ->
  (forall m, play_rejects w1 m = true) ->
  play_rejects w2 true = false ->
  let h1 := fst (recorder_onstop_response w1 t config (Resolved resp1) h) in
  let h2 := fst (recorder_onstop_response w2 t config (Resolved resp2) h1) in
  exists id el1 el2,
    activeAudioRef h1 = Some id /\ activeAudioRef h2 = Some id /\
    audios (browser h1) !! id = Some el1 /\
    muted el1 = true /\
    audios (browser h2) !! id = Some el2 /\
    src el2 = BlobUrl (reply_blob resp2) /\
    audio_paused el2 = false /\
    muted el2 = true.
Proof.
  intros Hok1 Hok2 Hvalid Hblock Hplay h1 h2.
  destruct (reply_element w1 t config resp1 h Hok1 Hvalid) as (id & a0 & A1 & _ & C1 & _).
  fold h1 in A1, C1.
  assert (Hvalid1 : audio_ref_valid h1).
  { unfold audio_ref_valid. rewrite A1, C1. now eexists. }
  destruct (reply_element w2 t config resp2 h1 Hok2 Hvalid1) as (id2 & a1 & A2 & B2 & C2 & _).
  fold h2 in A2, C2. rewrite A1 in B2. destruct B2 as (-> & B2).
  rewrite C1 in B2. injection B2 as <-.
  eexists id, _, _. split; [exact A1|]. split; [exact A2|]. split; [exact C1|].
  assert (M1 : muted (after_play w1
                        (with_src (BlobUrl (reply_blob resp1))
                           (with_volume (volume config / 100) a0))) = true).
  { unfold after_play. rewrite !Hblock. reflexivity. }
  split; [exact M1|]. split; [exact C2|].
  set (el1 := after_play w1 (with_src (BlobUrl (reply_blob resp1))
                               (with_volume (volume config / 100) a0))) in *.
  clearbody el1. unfold after_play. cbn [muted with_src with_volume]. rewrite M1, Hplay.
  cbn [src audio_paused muted with_paused with_src with_volume].
  split; [reflexivity|]. split; [reflexivity|exact M1].
Qed.

Lemma blocked_autoplay_witness :
  let blocked := {| hasMediaSource := false; MediaSource_isTypeSupported := None;
                    addSourceBuffer_throws := false; play_rejects := fun _ => true |} in
  let h1 := fst (recorder_onstop_response blocked (fun key => key) Examples.DEFAULT_CONFIG
                   (Resolved Examples.resp_two_chunks) Examples.listening0) in
  let h2 := fst (recorder_onstop_response Examples.window_mse (fun key => key)
                   Examples.DEFAULT_CONFIG (Resolved Examples.resp_two_chunks) h1) in
  exists id el2,
    audios (browser h2) !! id = Some el2 /\ audio_paused el2 = false /\ muted el2 = true.
Proof.
  intros blocked h1 h2.
  assert (Hv : audio_ref_valid Examples.listening0) by (now eexists).
  destruct (blocked_autoplay_leaves_element_muted blocked Examples.window_mse (fun key => key)
              Examples.DEFAULT_CONFIG Examples.resp_two_chunks Examples.resp_two_chunks
              Examples.listening0 eq_refl eq_refl Hv (fun _ => eq_refl) eq_refl)
    as (id & el1 & el2 & _ & _ & _ & _ & A & _ & B & C).
  exists id, el2. split; [exact A|]. split; [exact B|exact C].
Defined.

(** X12. [stopConversation] does not cancel an utterance
    that is on its way.  The stop handler of the recorder that runs after
    it still uploads the chunks, and when the reply arrives the hook,
    which was ['idle'], goes to ['speaking'] with the connection state
    still ['disconnected'], plays the reply on a new audio element, and
    the end of the playback sets the state ['listening'] if the handler
    captured a state other than ['idle']. *)
Theorem stop_does_not_cancel_utterance (w : Window) (t : string -> string)
    (config : AppConfig) (pathname mimeType : string) (resp : HttpResponse) (h : Hook) :
  ok resp = true ->
  exists h1,
    stopConversation h = Normal h1 /\
    state h1 = AppState.idle /\
    let h2 := recorder_onstop_upload pathname config mimeType h1 in
    let h3 := fst (recorder_onstop_response w t config (Resolved resp) h2) in
    (exists req,
       fetches (browser h2) = fetches (browser h) ++ [req] /\
       Server.req_file (Server.multipart (body req))
       = Some (Server.received_file (new_Blob (chunksRef h) mimeType) "utterance.webm")) /\
    state h3 = AppState.speaking /\
    connectionState h3 = ConnectionState.disconnected /\
    (exists id el,
       activeAudioRef h3 = Some id /\
       (id ∉ dom (audios (browser h1))) /\
       audios (browser h3) !! id = Some el /\
       src el = BlobUrl (reply_blob resp) /\
       (play_rejects w false = false -> audio_paused el = false)) /\
    (forall capturedState, capturedState <> AppState.idle ->
       state (audioEl_onended capturedState h3) = AppState.listening).
Proof.
  intros Hok.
  destruct (stopConversation_effects h)
    as (h1 & Hstop & _ & _ & _ & Hf & (_ & _ & _ & _ & Hc) & (Hst & _ & _ & _ & Ha)).
  exists h1. split; [exact Hstop|]. split; [exact Hst|]. intros h2 h3.
  pose proof (UploadProps.onstop_upload_frame pathname config mimeType h1)
    as (_ & S2 & _ & _ & _ & F2).
  cbv zeta in S2, F2. fold h2 in S2, F2.
  assert (A2 : activeAudioRef h2 = None) by exact Ha.
  assert (B2 : audios (browser h2) = audios (browser h1)) by reflexivity.
  assert (C2 : connectionState h2 = ConnectionState.disconnected).
  { unfold h2, recorder_onstop_upload. cbn [connectionState set_browser set_chunksRef].
    revert Hstop. unfold stopConversation. now intros [= <-]. }
  assert (Hvalid : audio_ref_valid h2) by (unfold audio_ref_valid; now rewrite A2).
  destruct (reply_element w t config resp h2 Hok Hvalid) as (id & a0 & A3 & B3 & C3 & _ & E3).
  fold h3 in A3, C3, E3. rewrite A2 in B3. destruct B3 as (Hfresh & ->).
  pose proof (recorder_onstop_response_frame w t config (Resolved resp) h2)
    as (_ & _ & _ & _ & _ & _ & _ & _ & _ & _ & _ & _ & _ & K3).
  cbv zeta in K3. fold h3 in K3.
  split.
  { eexists. split; [rewrite F2, Hf; reflexivity|].
    cbn [body Server.multipart Server.req_file]. rewrite UploadProps.file_of_build_form. now rewrite Hc. }
  split; [exact E3|]. split; [congruence|]. split.
  { exists id. eexists. split; [exact A3|]. split; [now rewrite <- B2|].
    split; [exact C3|]. unfold after_play. cbn [muted with_src with_volume new_Audio].
    destruct (play_rejects w false) eqn:H1; [destruct (play_rejects w true)|];
      cbn; split; try reflexivity; intros; congruence. }
  intros cs Hcs. unfold audioEl_onended. destruct cs; try reflexivity. contradiction.
Qed.

Lemma stop_does_not_cancel_witness :
  exists h1,
    stopConversation Examples.speaking0 = Normal h1 /\
    state (fst (recorder_onstop_response Examples.window_mse (fun key => key)
                  Examples.DEFAULT_CONFIG (Resolved Examples.resp_two_chunks)
                  (recorder_onstop_upload "/" Examples.DEFAULT_CONFIG "audio/webm" h1)))
    = AppState.speaking.
Proof.
  destruct (stop_does_not_cancel_utterance Examples.window_mse (fun key => key)
              Examples.DEFAULT_CONFIG "/" "audio/webm" Examples.resp_two_chunks
              Examples.speaking0 eq_refl) as (h1 & A & _ & _ & B & _).
  exists h1. split; [exact A|exact B].
Defined.

End ReplyProps.

(** ** The services and the handlers of the server *)

Module ServerProps.

Import JS JSFacts Types Services ServerSpec.
Open Scope Q_scope.

(** *** [includes] on a text with a known beginning *)

Lemma includes_cons c s kw :
  includes (String c s) kw = String.prefix kw (String c s) || includes s kw.
Proof.
  unfold includes. cbn [String.index].
  destruct (String.prefix kw (String c s)); [reflexivity|].
  cbn [orb]. destruct (String.index 0 kw s); reflexivity.
Qed.

Lemma prefix_lit_correct kw : forall p e, String.prefix kw (p +:+ e) = prefix_lit kw p e.
Proof.
  induction kw as [|a k IH]; intros p e; [now destruct (p +:+ e)|].
  destruct p as [|b p']; [reflexivity|].
  change (String b p' +:+ e) with (String b (p' +:+ e)).
  cbn [String.prefix prefix_lit].
  destruct (Ascii.ascii_dec a b) as [->|Hne].
  - rewrite Ascii.eqb_refl. apply IH.
  - apply Ascii.eqb_neq in Hne. now rewrite Hne.
Qed.

Lemma includes_lit_correct p kw e : includes (p +:+ e) kw = includes_lit p kw e.
Proof.
  induction p as [|c p IH]; [reflexivity|].
  cbn [includes_lit]. rewrite <- IH, <- prefix_lit_correct.
  change (String c p +:+ e) with (String c (p +:+ e)).
  apply includes_cons.
Qed.

Lemma mentions_stage_false m :
  mentions_stage m = false ->
  includes m "Whisper" = false /\ includes m "transcription" = false /\
  includes m "GPT" = false /\ includes m "LLM" = false /\ includes m "TTS" = false.
Proof.
  unfold mentions_stage, stage_keywords. cbn [existsb].
  rewrite !orb_false_iff. tauto.
Qed.

Lemma stage_generic m : mentions_stage m = false -> stage m = "Server error in voice pipeline"%string.
Proof.
  intros H. apply mentions_stage_false in H. destruct H as (A & B & C & D & E).
  unfold stage, Server.error_reply. now rewrite A, B, C, D, E.
Qed.

(** The stage of a message that starts with a known text [p]. *)
Ltac stage_eval :=
  unfold stage, Server.error_reply;
  repeat (rewrite !includes_lit_correct;
          cbv beta iota delta [includes_lit prefix_lit Ascii.eqb Bool.eqb orb andb]);
  repeat match goal with H : includes _ _ = false |- _ => rewrite H end;
  try reflexivity.

Lemma string_or_same s : string_or (Some s) s = s.
Proof. unfold string_or. now destruct (truthy_string (Some s)). Qed.

Lemma keyword_free_rejects {A : Type} (outcome : Promise (Response A)) m :
  keyword_free outcome -> outcome = Rejects m -> mentions_stage m = false.
Proof. intros Hk ->. now inversion Hk. Qed.

Lemma keyword_free_text {A : Type} (outcome : Promise (Response A)) r :
  keyword_free outcome -> outcome = Resolves r ->
  mentions_stage match response_text r with Resolves s => s | Rejects m => m end = false.
Proof.
  intros Hk ->. unfold keyword_free, upstream_texts in Hk.
  destruct (response_text r); now inversion Hk.
Qed.

Lemma keyword_free_json {A : Type} (outcome : Promise (Response A)) r m :
  keyword_free outcome -> outcome = Resolves r -> response_json r = Rejects m ->
  mentions_stage m = false.
Proof.
  intros Hk -> Hj. unfold keyword_free, upstream_texts in Hk. rewrite Hj in Hk.
  apply Forall_app in Hk. destruct Hk as [_ Hk]. now inversion Hk.
Qed.

(** *** The stage of a failure of the speech-to-text service *)

(** X13. The stage that the error handler of the endpoint reads off a
    failure of [whisperService.transcribe], given that the texts coming
    from upstream and the provider name contain none of its five
    keywords: every failure of the provider ['openai'] that the service
    words itself (missing key, reply not ok, empty result) and the
    provider ['local'] are reported as an STT failure; an unknown provider
    and a failure of the HTTP exchange itself are reported as a generic
    server error. *)
Theorem transcribe_failure_stage (String_trim : string -> string) (cfg : Cfg)
    (providers : Providers) (audioBuffer : list byte) (mimetype originalname : option string)
    (language : option string) (message : string) :
  transcribe String_trim cfg providers audioBuffer mimetype originalname language
  = Rejects message ->
  (forall req, keyword_free (openai_transcriptions providers req)) ->
  mentions_stage (providers_STT cfg) = false ->
  (stage message = "STT service failed"%string /\
   (providers_STT cfg = "openai"%string \/ providers_STT cfg = "local"%string)) \/
  (stage message = "Server error in voice pipeline"%string /\
   ((providers_STT cfg <> "openai"%string /\ providers_STT cfg <> "local"%string /\
     message = "Unknown STT provider: " +:+ providers_STT cfg) \/
    (providers_STT cfg = "openai"%string /\
     exists req, exchange_error (openai_transcriptions providers req) message))).
Proof.
  intros Hrej Hfree Hname. unfold transcribe in Hrej. cbv zeta in Hrej.
  destruct (String.eqb (providers_STT cfg) "openai") eqn:Ho.
  - apply String.eqb_eq in Ho.
    unfold _transcribeOpenAI in Hrej. cbv zeta in Hrej. rewrite string_or_same in Hrej.
    destruct (truthy_string (Some (openaiApiKey cfg))); cbn [negb] in Hrej.
    + match type of Hrej with await (openai_transcriptions providers ?req) _ = _ =>
        pose proof (Hfree req) as Hk;
        destruct (openai_transcriptions providers req) as [r|m] eqn:Hout end;
        cbn [await] in Hrej.
      * destruct (response_ok r); cbn [negb] in Hrej.
        -- destruct (response_json r) as [data|m] eqn:Hj; cbn [await] in Hrej.
           ++ match type of Hrej with (if ?c then _ else _) = _ => destruct c end;
                [|discriminate].
              injection Hrej as <-. left. split; [reflexivity|now left].
           ++ injection Hrej as <-. right.
              split; [apply stage_generic; eapply keyword_free_json; eauto|].
              right. split; [exact Ho|]. eexists. right. eexists. split; [exact Hout|now right].
        -- pose proof (keyword_free_text _ r Hk eq_refl) as Ht.
           destruct (response_text r) as [e|m] eqn:Htxt; cbn [await] in Hrej.
           ++ injection Hrej as <-. left. split; [|now left].
              unfold stage, Server.error_reply. rewrite !includes_lit_correct.
              reflexivity.
           ++ injection Hrej as <-. right. split; [now apply stage_generic|].
              right. split; [exact Ho|]. eexists. right. eexists. split; [exact Hout|now left].
      * injection Hrej as <-. right.
        split; [apply stage_generic; eapply keyword_free_rejects; eauto|].
        right. split; [exact Ho|]. eexists. left. exact Hout.
    + injection Hrej as <-. left. split; [reflexivity|now left].
  - apply String.eqb_neq in Ho.
    destruct (String.eqb (providers_STT cfg) "local") eqn:Hl.
    + apply String.eqb_eq in Hl. injection Hrej as <-. left. split; [reflexivity|now right].
    + apply String.eqb_neq in Hl. injection Hrej as <-. right. split.
      * apply mentions_stage_false in Hname. destruct Hname as (A & B & C & D & E).
        stage_eval.
      * left. easy.
Qed.

Lemma transcribe_failure_witness :
  stage "fetch failed" = "Server error in voice pipeline"%string /\
  exists req, exchange_error (openai_transcriptions unreachable req) "fetch failed".
Proof.
  assert (Hfree : forall req, keyword_free (openai_transcriptions unreachable req)).
  { intros req. repeat constructor. }
  destruct (transcribe_failure_stage (fun s => s) cfg0 unreachable [] None None None
              "fetch failed" eq_refl Hfree eq_refl) as [[_ H]|[A H]].
  - split; [reflexivity|]. exists {| tr_apiKey := ""; tr_file := {| blob_bytes := []; blob_type := "" |};
      tr_fileName := ""; tr_model := ""; tr_language := "" |}. now left.
  - split; [exact A|]. destruct H as [(H & _)|(_ & H)]; [now contradiction H|exact H].
Defined.

(** *** The stage of a failure of the chat service *)

(** X14. The stage read off a failure of
    [gptService.generateResponse], under the same assumption on upstream
    texts: with the provider ['ollama'] every failure is reported as a
    generic server error (its messages name Ollama, not the LLM); with
    any other provider a failure is reported as an LLM failure, except a
    failure of the HTTP exchange with OpenAI itself, which is generic. *)
Theorem generateResponse_failure_stage (String_trim : string -> string) (cfg : Cfg)
    (providers : Providers) (userText : string) (options : GptOptions) (message : string) :
  generateResponse String_trim cfg providers userText options = Rejects message ->
  (forall req, keyword_free (openai_chat providers req)) ->
  (forall req, keyword_free (ollama_generate providers req)) ->
  (forall req, keyword_free (local_chat providers req)) ->
  mentions_stage (providers_LLM cfg) = false ->
  if String.eqb (providers_LLM cfg) "ollama"
  then stage message = "Server error in voice pipeline"%string
  else
    stage message = "LLM service failed"%string \/
    (providers_LLM cfg = "openai"%string /\
     stage message = "Server error in voice pipeline"%string /\
     exists req, exchange_error (openai_chat providers req) message).
Proof.
  intros Hrej Hopenai Hollama Hlocal Hname. unfold generateResponse in Hrej. cbv zeta in Hrej.
  destruct (String.eqb (providers_LLM cfg) "openai") eqn:Ho.
  - apply String.eqb_eq in Ho. rewrite Ho. cbn [String.eqb Ascii.eqb Bool.eqb andb].
    unfold _generateOpenAI in Hrej. cbv zeta in Hrej.
    destruct (truthy_string (Some (openaiApiKey cfg))); cbn [negb] in Hrej;
      [|injection Hrej as <-; now left].
    match type of Hrej with await (openai_chat providers ?req) _ = _ =>
      pose proof (Hopenai req) as Hk;
      destruct (openai_chat providers req) as [r|m] eqn:Hout end;
      cbn [await] in Hrej.
    + destruct (response_ok r); cbn [negb] in Hrej.
      * destruct (response_json r) as [data|m] eqn:Hj; cbn [await] in Hrej.
        -- match type of Hrej with (if ?c then _ else _) = _ => destruct c end;
             [|discriminate].
           injection Hrej as <-. now left.
        -- injection Hrej as <-. right. split; [reflexivity|].
           split; [apply stage_generic; eapply keyword_free_json; eauto|].
           eexists. right. eexists. split; [exact Hout|now right].
      * pose proof (keyword_free_text _ r Hk eq_refl) as Ht.
        destruct (response_text r) as [e|m] eqn:Htxt; cbn [await] in Hrej.
        -- injection Hrej as <-. left.
           apply mentions_stage_false in Ht. destruct Ht as (A & B & C & D & E).
           stage_eval.
        -- injection Hrej as <-. right. split; [reflexivity|].
           split; [now apply stage_generic|].
           eexists. right. eexists. split; [exact Hout|now left].
    + injection Hrej as <-. right. split; [reflexivity|].
      split; [apply stage_generic; eapply keyword_free_rejects; eauto|].
      eexists. left. exact Hout.
  - destruct (String.eqb (providers_LLM cfg) "ollama") eqn:Hol.
    + unfold _generateOllama in Hrej.
      match type of Hrej with rethrow _ (await (ollama_generate providers ?req) _) = _ =>
        pose proof (Hollama req) as Hk;
        destruct (ollama_generate providers req) as [r|m] eqn:Hout end;
        cbn [await rethrow] in Hrej.
      * destruct (response_ok r); cbn [negb] in Hrej.
        -- destruct (response_json r) as [data|m] eqn:Hj; cbn [await rethrow] in Hrej.
           ++ match type of Hrej with rethrow _ (if ?c then _ else _) = _ => destruct c end;
                cbn [rethrow] in Hrej; [|discriminate].
              injection Hrej as <-. reflexivity.
           ++ injection Hrej as <-.
              pose proof (keyword_free_json _ r m Hk eq_refl Hj) as Hm.
              apply mentions_stage_false in Hm. destruct Hm as (A & B & C & D & E).
              stage_eval.
        -- pose proof (keyword_free_text _ r Hk eq_refl) as Ht.
           apply mentions_stage_false in Ht. destruct Ht as (A & B & C & D & E).
           destruct (response_text r) as [e|m] eqn:Htxt; cbn [await rethrow] in Hrej;
             injection Hrej as <-; stage_eval.
      * injection Hrej as <-.
        pose proof (keyword_free_rejects _ m Hk eq_refl) as Hm.
        apply mentions_stage_false in Hm. destruct Hm as (A & B & C & D & E).
        stage_eval.
    + left. destruct (String.eqb (providers_LLM cfg) "local") eqn:Hl.
      * unfold _generateLocal in Hrej.
        match type of Hrej with rethrow _ (await (local_chat providers ?req) _) = _ =>
          pose proof (Hlocal req) as Hk;
          destruct (local_chat providers req) as [r|m] eqn:Hout end;
          cbn [await rethrow] in Hrej.
        -- destruct (response_ok r); cbn [negb] in Hrej.
           ++ destruct (response_json r) as [data|m] eqn:Hj; cbn [await rethrow] in Hrej.
              ** match type of Hrej with rethrow _ (if ?c then _ else _) = _ => destruct c end;
                   cbn [rethrow] in Hrej; [|discriminate].
                 injection Hrej as <-. reflexivity.
              ** injection Hrej as <-.
                 pose proof (keyword_free_json _ r m Hk eq_refl Hj) as Hm.
                 apply mentions_stage_false in Hm. destruct Hm as (A & B & C & D & E).
                 stage_eval.
           ++ pose proof (keyword_free_text _ r Hk eq_refl) as Ht.
              apply mentions_stage_false in Ht. destruct Ht as (A & B & C & D & E).
              destruct (response_text r) as [e|m] eqn:Htxt; cbn [await rethrow] in Hrej;
                injection Hrej as <-; stage_eval.
        -- injection Hrej as <-.
           pose proof (keyword_free_rejects _ m Hk eq_refl) as Hm.
           apply mentions_stage_false in Hm. destruct Hm as (A & B & C & D & E).
           stage_eval.
      * injection Hrej as <-.
        apply mentions_stage_false in Hname. destruct Hname as (A & B & C & D & E).
        stage_eval.
Qed.

Lemma generateResponse_failure_witness :
  stage "Ollama service unavailable: fetch failed" = "Server error in voice pipeline"%string.
Proof.
  assert (H1 : forall req, keyword_free (openai_chat unreachable req))
    by (intros req; repeat constructor).
  assert (H2 : forall req, keyword_free (ollama_generate unreachable req))
    by (intros req; repeat constructor).
  assert (H3 : forall req, keyword_free (local_chat unreachable req))
    by (intros req; repeat constructor).
  exact (generateResponse_failure_stage (fun s => s)
           {| adminPassword := ""; openaiApiKey := ""; providers_LLM := "ollama";
              providers_STT := "openai"; providers_TTS := "openai";
              models_llm := "llama2"; models_tts := "tts-1"; models_stt := "whisper-1";
              allowedVoices := [] |}
           unreachable "Hallo"
           {| opt_systemPrompt := None; opt_temperature := None; opt_maxTokens := None;
              opt_aiLanguage := None |}
           "Ollama service unavailable: fetch failed" eq_refl H1 H2 H3 eq_refl).
Defined.

(** *** The temperature the chat endpoints see *)

Lemma clamp_temperature_range x : 0 <= clamp_temperature x /\ clamp_temperature x <= 2.
Proof.
  unfold clamp_temperature. split; [apply Q.le_max_l|].
  apply Q.max_lub; [apply Qle_bool_imp_le; reflexivity|apply Q.le_min_l].
Qed.

(** X15. The temperature of a chat request to OpenAI or to the local
    server is always within [[0,2]], and the one sent to Ollama is the
    option as given (0.7 when missing): two sets of upstream services that
    agree on such requests give the same result, whatever the option
    is. *)
Theorem chat_temperature_is_clamped (String_trim : string -> string) (cfg : Cfg)
    (p1 p2 : Providers) (userText : string) (options : GptOptions) :
  (forall req, 0 <= chat_temperature req -> chat_temperature req <= 2 ->
     openai_chat p1 req = openai_chat p2 req /\ local_chat p1 req = local_chat p2 req) ->
  (forall req, ollama_temperature req = default_to 0.7 (opt_temperature options) ->
     ollama_generate p1 req = ollama_generate p2 req) ->
  generateResponse String_trim cfg p1 userText options
  = generateResponse String_trim cfg p2 userText options.
Proof.
  intros Hchat Hollama.
  unfold generateResponse, _generateOpenAI, _generateOllama, _generateLocal. cbv zeta.
  destruct (String.eqb (providers_LLM cfg) "openai").
  - destruct (negb (truthy_string (Some (openaiApiKey cfg)))); [reflexivity|].
    match goal with |- await (openai_chat p1 ?req) _ = _ =>
      destruct (Hchat req) as [-> _]; [apply clamp_temperature_range..|] end.
    reflexivity.
  - destruct (String.eqb (providers_LLM cfg) "ollama").
    + match goal with |- rethrow _ (await (ollama_generate p1 ?req) _) = _ =>
        rewrite (Hollama req) by reflexivity end.
      reflexivity.
    + destruct (String.eqb (providers_LLM cfg) "local"); [|reflexivity].
      match goal with |- rethrow _ (await (local_chat p1 ?req) _) = _ =>
        destruct (Hchat req) as [_ ->]; [apply clamp_temperature_range..|] end.
      reflexivity.
Qed.

Lemma chat_temperature_witness :
  generateResponse (fun s => s) cfg0 answering "Hallo"
    {| opt_systemPrompt := None; opt_temperature := Some 5; opt_maxTokens := None;
       opt_aiLanguage := None |}
  = generateResponse (fun s => s) cfg0
      {| openai_transcriptions := openai_transcriptions answering;
         openai_chat := fun req =>
           if Qle_bool (chat_temperature req) 2 then openai_chat answering req
           else Rejects "temperature out of range";
         ollama_generate := ollama_generate answering;
         local_chat := fun req =>
           if Qle_bool (chat_temperature req) 2 then local_chat answering req
           else Rejects "temperature out of range";
         openai_speech := openai_speech answering;
         coqui_tts := coqui_tts answering;
         piper_tts := piper_tts answering |}
      "Hallo"
      {| opt_systemPrompt := None; opt_temperature := Some 5; opt_maxTokens := None;
         opt_aiLanguage := None |}.
Proof.
  apply chat_temperature_is_clamped.
  - intros req _ Hle. cbn [openai_chat local_chat].
    apply Qle_bool_iff in Hle. now rewrite Hle.
  - intros req _. reflexivity.
Defined.

(** *** The stage of a failure of the text-to-speech service *)

Lemma catch_empty_free (r : Response unit) :
  keyword_free (Resolves r) -> mentions_stage (catch_empty (response_text r)) = false.
Proof.
  intros Hk. pose proof (keyword_free_text _ r Hk eq_refl) as Ht.
  destruct (response_text r); [exact Ht|reflexivity].
Qed.

Lemma body_or_throw_rejects prefix (r : Response unit) message :
  body_or_throw prefix r = Rejects message ->
  message = prefix +:+ catch_empty (response_text r).
Proof.
  unfold body_or_throw. destruct (response_body r); [destruct (response_ok r)|];
    now intros [= <-].
Qed.

(** X16. The stage read off a failure of [ttsService.synthesize],
    under the same assumption on upstream texts and provider names: every
    failure is reported as a TTS failure, except a failure of the HTTP
    exchange with OpenAI itself, which is reported as a generic server
    error. *)
Theorem synthesize_failure_stage (cfg : Cfg) (providers : Providers) (text : string)
    (options : TtsOptions) (message : string) :
  synthesize cfg providers text options = Rejects message ->
  (forall req, keyword_free (openai_speech providers req)) ->
  (forall req, keyword_free (coqui_tts providers req)) ->
  (forall req, keyword_free (piper_tts providers req)) ->
  mentions_stage (providers_TTS cfg) = false ->
  (forall p, opt_provider options = Some p -> mentions_stage p = false) ->
  stage message = "TTS service failed"%string \/
  (stage message = "Server error in voice pipeline"%string /\
   exists req, openai_speech providers req = Rejects message).
Proof.
  intros Hrej Hopenai Hcoqui Hpiper Hname Hopt. unfold synthesize in Hrej. cbv zeta in Hrej.
  set (activeProvider :=
         string_or (Some (default_to (providers_TTS cfg) (opt_provider options)))
           (providers_TTS cfg)) in *.
  assert (Hactive : mentions_stage activeProvider = false).
  { unfold activeProvider, string_or.
    destruct (truthy_string _); [|exact Hname].
    destruct (opt_provider options) as [p|] eqn:Hp; [now apply Hopt|exact Hname]. }
  clearbody activeProvider.
  destruct (String.eqb activeProvider "openai").
  - unfold _synthesizeOpenAI in Hrej. cbv zeta in Hrej.
    destruct (truthy_string (Some (openaiApiKey cfg))); cbn [negb] in Hrej;
      [|injection Hrej as <-; now left].
    match type of Hrej with await (openai_speech providers ?req) _ = _ =>
      pose proof (Hopenai req) as Hk;
      destruct (openai_speech providers req) as [r|m] eqn:Hout end;
      cbn [await] in Hrej.
    + apply body_or_throw_rejects in Hrej. subst message. left.
      pose proof (catch_empty_free r Hk) as Ht.
      apply mentions_stage_false in Ht. destruct Ht as (A & B & C & D & E).
      stage_eval.
    + injection Hrej as <-. right.
      split; [apply stage_generic; eapply keyword_free_rejects; eauto|].
      eexists. exact Hout.
  - left. destruct (String.eqb activeProvider "coqui").
    + unfold _synthesizeCoqui in Hrej.
      match type of Hrej with rethrow _ (await (coqui_tts providers ?req) _) = _ =>
        pose proof (Hcoqui req) as Hk;
        destruct (coqui_tts providers req) as [r|m] eqn:Hout end;
        cbn [await rethrow] in Hrej.
      * destruct (body_or_throw "Coqui TTS failed: " r) as [body|m] eqn:Hb;
          cbn [rethrow] in Hrej; [discriminate|].
        injection Hrej as <-. apply body_or_throw_rejects in Hb. subst m.
        pose proof (catch_empty_free r Hk) as Ht.
        apply mentions_stage_false in Ht. destruct Ht as (A & B & C & D & E).
        stage_eval.
      * injection Hrej as <-.
        pose proof (keyword_free_rejects _ m Hk eq_refl) as Hm.
        apply mentions_stage_false in Hm. destruct Hm as (A & B & C & D & E).
        stage_eval.
    + destruct (String.eqb activeProvider "piper").
      * unfold _synthesizePiper in Hrej.
        match type of Hrej with rethrow _ (await (piper_tts providers ?req) _) = _ =>
          pose proof (Hpiper req) as Hk;
          destruct (piper_tts providers req) as [r|m] eqn:Hout end;
          cbn [await rethrow] in Hrej.
        -- destruct (body_or_throw "Piper TTS failed: " r) as [body|m] eqn:Hb;
             cbn [rethrow] in Hrej; [discriminate|].
           injection Hrej as <-. apply body_or_throw_rejects in Hb. subst m.
           pose proof (catch_empty_free r Hk) as Ht.
           apply mentions_stage_false in Ht. destruct Ht as (A & B & C & D & E).
           stage_eval.
        -- injection Hrej as <-.
           pose proof (keyword_free_rejects _ m Hk eq_refl) as Hm.
           apply mentions_stage_false in Hm. destruct Hm as (A & B & C & D & E).
           stage_eval.
      * injection Hrej as <-.
        apply mentions_stage_false in Hactive. destruct Hactive as (A & B & C & D & E).
        stage_eval.
Qed.

Lemma synthesize_failure_witness :
  stage "fetch failed" = "TTS service failed"%string \/
  (stage "fetch failed" = "Server error in voice pipeline"%string /\
   exists req, openai_speech unreachable req = Rejects "fetch failed").
Proof.
  apply (synthesize_failure_stage cfg0 unreachable "Hallo"
           {| opt_voice := None; opt_speed := None; opt_pitch := None; opt_language := None;
              opt_provider := None; opt_model := None; opt_tts_temperature := None |}
           "fetch failed" eq_refl).
  - intros req. repeat constructor.
  - intros req. repeat constructor.
  - intros req. repeat constructor.
  - reflexivity.
  - intros p H. discriminate H.
Defined.

(** *** The request to the OpenAI speech endpoint *)

Lemma synthesize_openai cfg providers text options :
  activeProvider cfg options = "openai"%string ->
  openaiApiKey cfg <> ""%string ->
  synthesize cfg providers text options
  = await (openai_speech providers
             {| speech_apiKey := openaiApiKey cfg; speech_model := "tts-1";
                speech_voice := sanitizedVoice cfg (default_to "alloy"%string (opt_voice options));
                speech_input := text; speech_speed := 1 |})
      (body_or_throw "OpenAI TTS failed: ").
Proof.
  intros Hactive Hkey.
  assert (Htruthy : truthy_string (Some (openaiApiKey cfg)) = true).
  { unfold truthy_string. apply String.eqb_neq in Hkey. now rewrite Hkey. }
  unfold synthesize. cbv zeta. fold (activeProvider cfg options). rewrite Hactive.
  cbn [String.eqb Ascii.eqb Bool.eqb andb].
  unfold _synthesizeOpenAI. rewrite Htruthy. reflexivity.
Qed.

(** X17. With the provider ['openai'] and a key, the speech request
    is determined by the text and the voice alone: the model is always
    ['tts-1'] and the speed always 1, the voice is the requested one when
    it is among the allowed voices and ['alloy'] otherwise.  The speed,
    pitch, language, model and temperature options have no effect. *)
Theorem openai_speech_request_is_fixed (cfg : Cfg) (providers : Providers) (text : string)
    (options : TtsOptions) :
  activeProvider cfg options = "openai"%string ->
  openaiApiKey cfg <> ""%string ->
  let voice := default_to "alloy"%string (opt_voice options) in
  let request :=
    {| speech_apiKey := openaiApiKey cfg; speech_model := "tts-1";
       speech_voice := if bool_decide (voice ∈ allowedVoices cfg) then voice else "alloy";
       speech_input := text; speech_speed := 1 |} in
  synthesize cfg providers text options
  = await (openai_speech providers request) (body_or_throw "OpenAI TTS failed: ") /\
  (speech_voice request ∈ allowedVoices cfg \/ speech_voice request = "alloy"%string) /\
  (forall speed pitch language model temperature,
     synthesize cfg providers text
       {| opt_voice := opt_voice options; opt_speed := speed; opt_pitch := pitch;
          opt_language := language; opt_provider := Some "openai"%string;
          opt_model := model; opt_tts_temperature := temperature |}
     = synthesize cfg providers text options).
Proof.
  intros Hactive Hkey voice request.
  pose proof (synthesize_openai cfg providers text options Hactive Hkey) as E.
  split; [exact E|]. split.
  - unfold request. cbn [speech_voice].
    destruct (bool_decide (voice ∈ allowedVoices cfg)) eqn:Hin; [|now right].
    left. now apply bool_decide_eq_true in Hin.
  - intros speed pitch language model temperature. rewrite E.
    now rewrite synthesize_openai.
Qed.

Lemma openai_speech_request_witness :
  synthesize cfg0 answering "Hallo"
    {| opt_voice := Some "nova"%string; opt_speed := Some 2; opt_pitch := None;
       opt_language := None; opt_provider := None; opt_model := Some "tts-1-hd"%string;
       opt_tts_temperature := None |}
  = await (openai_speech answering
             {| speech_apiKey := "sk-test"; speech_model := "tts-1";
                speech_voice := "nova"; speech_input := "Hallo"; speech_speed := 1 |})
      (body_or_throw "OpenAI TTS failed: ").
Proof.
  assert (Hkey : openaiApiKey cfg0 <> ""%string) by discriminate.
  exact (proj1 (openai_speech_request_is_fixed cfg0 answering "Hallo"
                  {| opt_voice := Some "nova"%string; opt_speed := Some 2; opt_pitch := None;
                     opt_language := None; opt_provider := None;
                     opt_model := Some "tts-1-hd"%string; opt_tts_temperature := None |}
                  eq_refl Hkey)).
Defined.

(** *** The handler of [/api/voice/process] with its services *)

Lemma voice_process_pipeline trim cfg providers son TypeError_message fb req :
  (req_file_missing req && negb (isTestMode req)) = false ->
  voice_process trim cfg providers son TypeError_message fb req
  = match pipeline trim cfg providers son TypeError_message req
            (Server.resolve_config (Server.req_body req) fb) with
    | inl audioStream =>
        {| status := 200; content_type := getContentType cfg; payload := Audio audioStream |}
    | inr message => Server.error_reply message
    end.
Proof.
  unfold voice_process, Server.voice_process, req_file_missing, isTestMode.
  intros ->. reflexivity.
Qed.

Lemma pipeline_test_message trim cfg providers son TypeError_message req c m :
  isTestMode req = true ->
  Server.req_body req !! "message" = Some m ->
  Server.truthy_field (Some m) = true ->
  pipeline trim cfg providers son TypeError_message req c
  = match synthesize cfg providers (text_of son m) (ttsOptions son c) with
    | Resolves audioStream => inl audioStream
    | Rejects message => inr message
    end.
Proof.
  unfold pipeline, isTestMode. cbv zeta. intros -> -> Hm.
  cbn [andb]. rewrite Hm. reflexivity.
Qed.

Lemma synthesize_same_tts cfg p1 p2 text options :
  same_tts p1 p2 -> synthesize cfg p1 text options = synthesize cfg p2 text options.
Proof.
  intros (H1 & H2 & H3).
  unfold synthesize, _synthesizeOpenAI, _synthesizeCoqui, _synthesizePiper.
  now rewrite H1, H2, H3.
Qed.

(** X18. With [testMode] set to ['true'] and a message, the endpoint
    neither transcribes nor asks the LLM: the reply is the speech
    synthesised from the message, or the error reply for the failure of
    the synthesis, and it does not depend on the STT and LLM services.
    With [testMode] but neither message nor file the handler does not
    answer 400: reading the missing file throws, and the reply is the 500
    of the error handler. *)
Theorem test_mode_is_tts_only (String_trim : string -> string) (cfg : Cfg)
    (String_of_number : Q -> string) (TypeError_message : string)
    (firebaseSettings : Server.FirebaseSettings) (req : Server.Request) :
  isTestMode req = true ->
  (forall m providers,
     Server.req_body req !! "message" = Some m -> Server.truthy_field (Some m) = true ->
     voice_process String_trim cfg providers String_of_number TypeError_message firebaseSettings req
     = match synthesize cfg providers (text_of String_of_number m)
               (ttsOptions String_of_number
                  (Server.resolve_config (Server.req_body req) firebaseSettings)) with
       | Resolves audioStream =>
           {| status := 200; content_type := getContentType cfg;
              payload := Audio audioStream |}
       | Rejects message => Server.error_reply message
       end) /\
  (forall p1 p2,
     Server.truthy_field (Server.req_body req !! "message") = true -> same_tts p1 p2 ->
     voice_process String_trim cfg p1 String_of_number TypeError_message firebaseSettings req
     = voice_process String_trim cfg p2 String_of_number TypeError_message firebaseSettings req) /\
  (forall providers,
     Server.truthy_field (Server.req_body req !! "message") = false ->
     Server.req_file req = None ->
     voice_process String_trim cfg providers String_of_number TypeError_message
       firebaseSettings req
     = Server.error_reply TypeError_message /\
     status (Server.error_reply TypeError_message) = 500%Z).
Proof.
  intros Htest.
  assert (Hgate : (req_file_missing req && negb (isTestMode req)) = false)
    by (rewrite Htest; apply andb_false_r).
  assert (Hfirst : forall m providers,
     Server.req_body req !! "message" = Some m -> Server.truthy_field (Some m) = true ->
     voice_process String_trim cfg providers String_of_number TypeError_message firebaseSettings req
     = match synthesize cfg providers (text_of String_of_number m)
               (ttsOptions String_of_number
                  (Server.resolve_config (Server.req_body req) firebaseSettings)) with
       | Resolves audioStream =>
           {| status := 200; content_type := getContentType cfg;
              payload := Audio audioStream |}
       | Rejects message => Server.error_reply message
       end).
  { intros m providers Hm Ht.
    rewrite (voice_process_pipeline _ _ _ _ _ _ _ Hgate).
    rewrite (pipeline_test_message _ _ _ _ _ _ _ m Htest Hm Ht).
    now destruct (synthesize _ _ _ _). }
  split; [exact Hfirst|]. split.
  - intros p1 p2 Ht Hsame.
    destruct (Server.req_body req !! "message") as [m|] eqn:Hm; [|discriminate].
    rewrite (Hfirst m p1 eq_refl Ht), (Hfirst m p2 eq_refl Ht).
    now rewrite (synthesize_same_tts cfg p1 p2 _ _ Hsame).
  - intros providers Hm Hfile.
    rewrite (voice_process_pipeline _ _ _ _ _ _ _ Hgate).
    unfold pipeline. cbv zeta. fold (isTestMode req). rewrite Htest, Hm, Hfile.
    split; reflexivity.
Qed.

Lemma test_mode_witness :
  voice_process (fun s => s) cfg0 answering (fun _ => "0"%string) undefined_buffer
    Server.DEFAULT_CONFIG test_request
  = {| status := 200; content_type := "audio/mpeg"; payload := Audio [[x49; x44]; [x33]] |}.
Proof.
  destruct (test_mode_is_tts_only (fun s => s) cfg0 (fun _ => "0"%string) undefined_buffer
              Server.DEFAULT_CONFIG test_request eq_refl) as (H & _).
  rewrite (H (Str "Hallo") answering eq_refl eq_refl). reflexivity.
Defined.

(** X19. Without an OpenAI key the endpoint fails before any
    upstream request: an upload handled by the provider ['openai'] is
    answered 500 with the stage STT, and a test message to be spoken by
    the provider ['openai'] is answered 500 with the stage TTS, each with
    the message naming the missing key. *)
Theorem missing_api_key_fails_first (String_trim : string -> string) (cfg : Cfg)
    (providers : Providers) (String_of_number : Q -> string) (TypeError_message : string)
    (firebaseSettings : Server.FirebaseSettings) (req : Server.Request) :
  openaiApiKey cfg = ""%string ->
  (isTestMode req = false -> is_Some (Server.req_file req) ->
   providers_STT cfg = "openai"%string ->
   voice_process String_trim cfg providers String_of_number TypeError_message firebaseSettings req
   = {| status := 500; content_type := "application/json";
        payload := Json "STT service failed"
                     (Some "Missing OPENAI_API_KEY for Whisper service"%string) |}) /\
  (isTestMode req = true ->
   Server.truthy_field (Server.req_body req !! "message") = true ->
   text_of String_of_number
     (Server.ttsProvider (Server.resolve_config (Server.req_body req) firebaseSettings))
   = "openai"%string ->
   voice_process String_trim cfg providers String_of_number TypeError_message firebaseSettings req
   = {| status := 500; content_type := "application/json";
        payload := Json "TTS service failed"
                     (Some "Missing OPENAI_API_KEY for TTS service"%string) |}).
Proof.
  intros Hkey. split.
  - intros Htest [file Hfile] Hstt.
    assert (Hgate : (req_file_missing req && negb (isTestMode req)) = false).
    { unfold req_file_missing. rewrite Hfile.
      rewrite bool_decide_eq_true_2 by (now eexists). reflexivity. }
    rewrite (voice_process_pipeline _ _ _ _ _ _ _ Hgate).
    unfold pipeline. cbv zeta. fold (isTestMode req). rewrite Htest, Hfile.
    cbn [andb]. unfold transcribe. cbv zeta. rewrite Hstt.
    cbn [String.eqb Ascii.eqb Bool.eqb andb].
    unfold _transcribeOpenAI. cbv zeta. rewrite string_or_same, Hkey. reflexivity.
  - intros Htest Hm Hprov.
    assert (Hgate : (req_file_missing req && negb (isTestMode req)) = false)
      by (rewrite Htest; apply andb_false_r).
    rewrite (voice_process_pipeline _ _ _ _ _ _ _ Hgate).
    destruct (Server.req_body req !! "message") as [m|] eqn:Hmsg; [|discriminate].
    rewrite (pipeline_test_message _ _ _ _ _ _ _ m Htest Hmsg Hm).
    unfold synthesize, ttsOptions. cbv zeta.
    cbn [opt_provider opt_voice opt_speed opt_pitch opt_language opt_model
         opt_tts_temperature default_to].
    rewrite Hprov.
    cbn [string_or truthy_string String.eqb Ascii.eqb Bool.eqb andb negb].
    unfold _synthesizeOpenAI. rewrite Hkey. reflexivity.
Qed.

Lemma missing_api_key_witness :
  voice_process (fun s => s) cfg_nokey answering (fun _ => "0"%string) undefined_buffer
    Server.DEFAULT_CONFIG home_request
  = {| status := 500; content_type := "application/json";
       payload := Json "STT service failed"
                    (Some "Missing OPENAI_API_KEY for Whisper service"%string) |}.
Proof.
  apply (missing_api_key_fails_first (fun s => s) cfg_nokey answering (fun _ => "0"%string)
           undefined_buffer Server.DEFAULT_CONFIG home_request eq_refl).
  - vm_compute. reflexivity.
  - vm_compute. now eexists.
  - reflexivity.
Defined.

(** *** [/api/admin/auth] *)

Lemma string_or_empty v : string_or v "" = match v with Some s => s | None => ""%string end.
Proof.
  unfold string_or, truthy_string. destruct v as [s|]; [|reflexivity].
  destruct (String.eqb_spec s ""); [now subst|reflexivity].
Qed.

Ltac auth_fin :=
  repeat split; intros;
  repeat match goal with
         | H : exists _, _ |- _ => destruct H
         | H : _ /\ _ |- _ => destruct H
         | H : _ \/ _ |- _ => destruct H
         end;
  simplify_eq; try discriminate; try congruence; try tauto; auto;
  try solve [left; congruence | right; congruence];
  try (eexists; repeat split; eauto; congruence).

Lemma admin_auth_cases cfg password :
  (adminPassword cfg = ""%string ->
   admin_auth cfg password
   = {| auth_status := 500; auth_ok := false;
        auth_error := Some "ADMIN_PASSWORD not set on server"%string |}) /\
  (adminPassword cfg <> ""%string -> password = Some (adminPassword cfg) ->
   admin_auth cfg password = {| auth_status := 200; auth_ok := true; auth_error := None |}) /\
  (adminPassword cfg <> ""%string -> password <> Some (adminPassword cfg) ->
   admin_auth cfg password
   = {| auth_status := 401; auth_ok := false; auth_error := Some "Invalid password"%string |}).
Proof.
  unfold admin_auth, truthy_string.
  destruct (String.eqb_spec (adminPassword cfg) "") as [He|Hne]; cbn [negb].
  - split; [reflexivity|]. split; intros; contradiction.
  - split; [intros; contradiction|]. split.
    + intros _ ->. destruct (String.eqb_spec (adminPassword cfg) ""); [contradiction|].
      now rewrite String.eqb_refl.
    + intros _ Hp. destruct password as [p|]; [|reflexivity].
      destruct (String.eqb_spec p (adminPassword cfg)) as [->|]; [contradiction|].
      now rewrite andb_false_r.
Qed.

(** X20. [/api/admin/auth] answers 200, 401 or 500 and nothing else;
    [ok] is true exactly for 200; 200 exactly when a password is
    configured, not empty, and the request carries that very string; 500
    exactly when none is configured or it is empty. *)
Theorem admin_auth_decision (String_trim : string -> string) (env : Env)
    (password : option string) :
  let cfg := cfg_of String_trim env in
  let reply := admin_auth cfg password in
  (auth_ok reply = true <-> auth_status reply = 200%Z) /\
  (auth_status reply = 200%Z <->
     exists p, ADMIN_PASSWORD env = Some p /\ p <> ""%string /\ password = Some p) /\
  (auth_status reply = 500%Z <->
     ADMIN_PASSWORD env = None \/ ADMIN_PASSWORD env = Some ""%string) /\
  (auth_status reply = 200%Z \/ auth_status reply = 401%Z \/ auth_status reply = 500%Z).
Proof.
  intros cfg reply.
  assert (Hadm : adminPassword cfg
                 = match ADMIN_PASSWORD env with Some s => s | None => ""%string end)
    by apply string_or_empty.
  destruct (admin_auth_cases cfg password) as (C500 & C200 & C401).
  fold reply in C500, C200, C401.
  destruct (decide (adminPassword cfg = ""%string)) as [He|Hne].
  - rewrite (C500 He). cbn. rewrite Hadm in He.
    destruct (ADMIN_PASSWORD env) as [a|]; auth_fin.
  - destruct (decide (password = Some (adminPassword cfg))) as [Hp|Hp].
    + rewrite (C200 Hne Hp). cbn. rewrite Hadm in Hne, Hp.
      destruct (ADMIN_PASSWORD env) as [a|]; auth_fin.
    + rewrite (C401 Hne Hp). cbn. rewrite Hadm in Hne, Hp.
      destruct (ADMIN_PASSWORD env) as [a|]; auth_fin.
Qed.

(** *** The voices of the client and the voices the server allows *)

(** X21. With [ALLOWED_VOICES] unset, every voice the client can
    select is on the server's list and passes the sanitisation unchanged,
    and every other voice name is replaced by ['alloy']. *)
Theorem default_voices_pass_sanitization (String_trim : string -> string) (env : Env) :
  ALLOWED_VOICES env = None ->
  (forall v : Voice, String_trim (Hook.voice_name v) = Hook.voice_name v) ->
  let cfg := cfg_of String_trim env in
  (forall v : Voice, sanitizedVoice cfg (Hook.voice_name v) = Hook.voice_name v) /\
  (forall voice : string,
     (forall v : Voice, voice <> Hook.voice_name v) -> sanitizedVoice cfg voice = "alloy"%string).
Proof.
  intros Henv Htrim cfg.
  assert (Hallowed : allowedVoices cfg
                     = ["nova"; "shimmer"; "echo"; "onyx"; "fable"; "alloy"; "ash"; "sage";
                        "coral"]%string).
  { unfold cfg, cfg_of. cbn [allowedVoices]. rewrite Henv.
    change (split comma (string_or None "nova,shimmer,echo,onyx,fable,alloy,ash,sage,coral"))
      with ["nova"; "shimmer"; "echo"; "onyx"; "fable"; "alloy"; "ash"; "sage"; "coral"]%string.
    cbn [map].
    pose proof (Htrim nova) as T1. pose proof (Htrim shimmer) as T2.
    pose proof (Htrim echo) as T3. pose proof (Htrim onyx) as T4.
    pose proof (Htrim fable) as T5. pose proof (Htrim alloy) as T6.
    pose proof (Htrim ash) as T7. pose proof (Htrim sage) as T8.
    pose proof (Htrim coral) as T9.
    cbn [Hook.voice_name] in T1, T2, T3, T4, T5, T6, T7, T8, T9.
    rewrite T1, T2, T3, T4, T5, T6, T7, T8, T9. reflexivity. }
  unfold sanitizedVoice. rewrite Hallowed. split.
  - intros v. rewrite bool_decide_eq_true_2; [reflexivity|].
    destruct v; cbn [Hook.voice_name]; set_solver.
  - intros voice Hother. rewrite bool_decide_eq_false_2; [reflexivity|].
    intros Hin.
    pose proof (Hother nova). pose proof (Hother shimmer). pose proof (Hother echo).
    pose proof (Hother onyx). pose proof (Hother fable). pose proof (Hother alloy).
    pose proof (Hother ash). pose proof (Hother sage). pose proof (Hother coral).
    cbn [Hook.voice_name] in *. set_solver.
Qed.

Lemma default_voices_witness :
  sanitizedVoice cfg0 (Hook.voice_name coral) = "coral"%string.
Proof.
  exact (proj1 (default_voices_pass_sanitization (fun s => s) env0 eq_refl (fun v => eq_refl))
           coral).
Defined.

End ServerProps.

(** ** From the upload to the loudspeaker *)

Module EndToEndProps.

Import JS Types Dom Playback Hook Services SessionSpec ServerSpec ReplyProps ServerProps.
Open Scope Q_scope.

(** X22. When the pipeline of the endpoint succeeds, the reply is
    200 with the synthesised audio as its body and the content type of
    the configured TTS provider (['audio/wav'] exactly for ['coqui'] and
    ['piper'], ['audio/mpeg'] otherwise, whatever provider the request
    chose), and the hook that receives it goes to ['speaking'] and plays a
    blob of exactly those bytes with that type. *)
Theorem synthesized_audio_reaches_element (String_trim : string -> string) (cfg : Cfg)
    (providers : Providers) (String_of_number : Q -> string) (TypeError_message : string)
    (firebaseSettings : Server.FirebaseSettings) (req : Server.Request)
    (audioStream : list (list byte)) (w : Window) (t : string -> string)
    (config : AppConfig) (h : Hook) :
  (req_file_missing req && negb (isTestMode req)) = false ->
  pipeline String_trim cfg providers String_of_number TypeError_message req
    (Server.resolve_config (Server.req_body req) firebaseSettings)
  = inl audioStream ->
  audio_ref_valid h ->
  let resp :=
    voice_process String_trim cfg providers String_of_number TypeError_message
      firebaseSettings req in
  let h' := fst (recorder_onstop_response w t config (Resolved resp) h) in
  resp = {| status := 200; content_type := getContentType cfg; payload := Audio audioStream |} /\
  (getContentType cfg = "audio/wav"%string <->
     providers_TTS cfg = "coqui"%string \/ providers_TTS cfg = "piper"%string) /\
  (getContentType cfg = "audio/mpeg"%string \/ getContentType cfg = "audio/wav"%string) /\
  state h' = AppState.speaking /\
  exists id el,
    activeAudioRef h' = Some id /\
    audios (browser h') !! id = Some el /\
    src el = BlobUrl {| blob_bytes := concat audioStream; blob_type := getContentType cfg |}.
Proof.
  intros Hgate Hpipe Hvalid resp h'.
  assert (Hresp : resp = {| status := 200; content_type := getContentType cfg;
                            payload := Audio audioStream |}).
  { unfold resp. rewrite (voice_process_pipeline _ _ _ _ _ _ _ Hgate). now rewrite Hpipe. }
  split; [exact Hresp|].
  split.
  { unfold getContentType.
    destruct (String.eqb_spec (providers_TTS cfg) "openai") as [->|Ho];
      [split; [discriminate|intros [?|?]; discriminate]|].
    destruct (String.eqb_spec (providers_TTS cfg) "coqui") as [->|Hc]; [cbn [orb]; tauto|].
    destruct (String.eqb_spec (providers_TTS cfg) "piper") as [->|Hp]; cbn [orb]; [tauto|].
    split; [discriminate|tauto]. }
  split.
  { unfold getContentType.
    destruct (String.eqb (providers_TTS cfg) "openai"); [now left|].
    destruct (String.eqb (providers_TTS cfg) "coqui" || String.eqb (providers_TTS cfg) "piper");
      [now right|now left]. }
  assert (Hok : ok resp = true) by now rewrite Hresp.
  destruct (reply_element w t config resp h Hok Hvalid) as (id & a0 & A & _ & C & _ & E).
  fold h' in A, C, E. split; [exact E|].
  exists id. eexists. split; [exact A|]. split; [exact C|].
  rewrite Hresp. unfold after_play. cbn [muted with_src with_volume].
  destruct (play_rejects w (muted a0)); [destruct (play_rejects w true)|];
    reflexivity.
Qed.

Lemma synthesized_audio_witness :
  let resp := voice_process (fun s => s) cfg0 answering (fun _ => "0"%string) undefined_buffer
                Server.DEFAULT_CONFIG home_request in
  let h' := fst (recorder_onstop_response Examples.window_mse (fun key => key)
                   Examples.DEFAULT_CONFIG (Resolved resp) Examples.listening0) in
  state h' = AppState.speaking /\
  exists id el,
    audios (browser h') !! id = Some el /\
    src el = BlobUrl {| blob_bytes := [x49; x44; x33]; blob_type := "audio/mpeg" |}.
Proof.
  intros resp h'.
  assert (Hv : audio_ref_valid Examples.listening0) by (now eexists).
  destruct (synthesized_audio_reaches_element (fun s => s) cfg0 answering
              (fun _ => "0"%string) undefined_buffer Server.DEFAULT_CONFIG home_request
              [[x49; x44]; [x33]] Examples.window_mse (fun key => key)
              Examples.DEFAULT_CONFIG Examples.listening0)
    as (_ & _ & _ & A & id & el & _ & B & C).
  - vm_compute. reflexivity.
  - vm_compute. reflexivity.
  - exact Hv.
  - split; [exact A|]. exists id, el. split; [exact B|exact C].
Defined.

End EndToEndProps.
